(** * Dependency and status consistency of the task manager

    A shallow embedding of [backend/src/models/Task.js], of the task
    controller and of the tables of [database/schema.sql], with the
    properties of the dependency graph, of the status recomputation and of the
    task hierarchy that the code has, and the inputs on which it departs from
    them.

    Ids are integers ([SERIAL] keys; the route validators admit integers
    only).  A request is the user id of its token with the parameters and
    the body fields that the handler reads.  The user id is the id of a row
    of [users], the one the token was issued for. *)

From stdpp Require Import gmap strings list fin_maps.

Set Warnings "-clear-no-such-hyp".

Local Open Scope Z_scope.

(** ** Column values *)

(** [status VARCHAR(20) CHECK (status IN ('To Do', 'In Progress',
    'Completed', 'Blocked'))]. *)
Inductive Status := ToDo | InProgress | Completed | Blocked.

(** [priority VARCHAR(20) CHECK (priority IN ('Low', 'Medium', 'High'))]. *)
Inductive Priority := Low | Medium | High.

#[global] Instance Status_eq_dec : EqDecision Status.
Proof. solve_decision. Defined.

#[global] Instance Priority_eq_dec : EqDecision Priority.
Proof. solve_decision. Defined.

Definition status_of_text (s : string) : option Status :=
  if String.eqb s "To Do" then Some ToDo
  else if String.eqb s "In Progress" then Some InProgress
  else if String.eqb s "Completed" then Some Completed
  else if String.eqb s "Blocked" then Some Blocked
  else None.

Definition priority_of_text (s : string) : option Priority :=
  if String.eqb s "Low" then Some Low
  else if String.eqb s "Medium" then Some Medium
  else if String.eqb s "High" then Some High
  else None.

(** A query parameter as the driver hands it to the store. *)
Inductive SqlValue := VNull | VInt (z : Z) | VText (s : string).

#[global] Instance SqlValue_eq_dec : EqDecision SqlValue.
Proof. solve_decision. Defined.

(** ** Tables

    A row of [tasks], without its primary key (the key of the table map) and
    without the two timestamps.  [updated_at] is set by every [UPDATE] of a
    row, by the statement of [Task.update] and by the trigger of the schema:
    what the properties say a request writes or leaves, they say of the
    other columns.  [user_id] and [parent_task_id] are nullable
    foreign keys.  [status] and [priority] are never NULL in a store written
    through the routes: the validators admit only the listed texts and
    [Task.create] defaults an absent one. *)
Record TaskRow := mkTask {
  user_id : option Z;
  title : string;
  description : option string;
  parent_task_id : option Z;
  due_date : option string;
  priority : Priority;
  status : Status
}.

#[global] Instance TaskRow_eq_dec : EqDecision TaskRow.
Proof. solve_decision. Defined.

Definition with_status (s : Status) (r : TaskRow) : TaskRow :=
  mkTask (user_id r) (title r) (description r) (parent_task_id r)
         (due_date r) (priority r) s.

(** The store: [users] (ids only), [tasks] keyed by [id SERIAL PRIMARY KEY]
    with the next value of its sequence, and [task_dependencies] as the list
    of its [(task_id, depends_on_task_id)] pairs in insertion order. *)
Record Db := mkDb {
  users : gset Z;
  tasks : gmap Z TaskRow;
  tasks_id_seq : Z;
  task_dependencies : list (Z * Z)
}.

Definition with_tasks (m : gmap Z TaskRow) (db : Db) : Db :=
  mkDb (users db) m (tasks_id_seq db) (task_dependencies db).

Definition with_dependencies (l : list (Z * Z)) (db : Db) : Db :=
  mkDb (users db) (tasks db) (tasks_id_seq db) l.

(** ** Errors and the effect monad

    A JavaScript [Error]: its message and, for an error raised by the store,
    the SQLSTATE in [code]. *)
Record JsError := mkError { message : string; code : option string }.

Definition Error (msg : string) : JsError := mkError msg None.

Inductive Outcome (A : Type) :=
| Returned (a : A)
| Thrown (e : JsError).
Arguments Returned {A} a.
Arguments Thrown {A} e.

(** An [async] function over the store: it returns or throws, and leaves the
    store as it is at that point (no query of the source runs in a
    transaction). *)
Definition M (A : Type) : Type := Db → Outcome A * Db.

Definition ret {A} (a : A) : M A := λ db, (Returned a, db).
Definition throw {A} (e : JsError) : M A := λ db, (Thrown e, db).
Definition bind {A B} (m : M A) (k : A → M B) : M B :=
  λ db, match m db with
        | (Returned a, db') => k a db'
        | (Thrown e, db') => (Thrown e, db')
        end.
Definition try_catch {A} (m : M A) (handler : JsError → M A) : M A :=
  λ db, match m db with
        | (Returned a, db') => (Returned a, db')
        | (Thrown e, db') => handler e db'
        end.
(** A read-only query. *)
Definition query {A} (q : Db → A) : M A := λ db, (Returned (q db), db).
(** A statement that cannot fail. *)
Definition exec (f : Db → Db) : M unit := λ db, (Returned tt, f db).

Notation "'let!' x ':=' m 'in' k" := (bind m (λ x, k))
  (at level 10, x pattern, m at level 100, k at level 200).

(** [String.prototype.includes]. *)
Fixpoint includes (needle hay : string) : bool :=
  if String.prefix needle hay then true
  else match hay with
       | EmptyString => false
       | String _ rest => includes needle rest
       end.

(** ** The record store

    PostgreSQL is outside the repository; the statements of [Task.js] are
    given the meaning that [schema.sql] fixes: the primary key, the foreign
    keys with [ON DELETE CASCADE], the [UNIQUE] pair of [task_dependencies],
    the [CHECK] value sets and the [SERIAL] id.

    The id columns are [INTEGER].  A statement whose id parameter is outside
    the range of that type fails with SQLSTATE 22003 before it reads a row,
    and every handler answers that with its 500.  The statements below are
    given their meaning on parameters inside the range, [int4]: the ids of
    stored rows are inside it, and a property about an id that need not be
    stored assumes [int4] of it. *)
Definition int4 (z : Z) : Prop := -2147483648 ≤ z ≤ 2147483647.

#[global] Instance int4_dec z : Decision (int4 z).
Proof. unfold int4. apply _. Defined.

Module Store.

Definition pg_error (sqlstate msg : string) : JsError :=
  mkError msg (Some sqlstate).

Definition unique_violation : JsError :=
  pg_error "23505" "duplicate key value violates unique constraint".
Definition foreign_key_violation : JsError :=
  pg_error "23503" "insert or update violates foreign key constraint".
Definition check_violation : JsError :=
  pg_error "23514" "new row violates check constraint".
Definition not_null_violation : JsError :=
  pg_error "23502" "null value violates not-null constraint".
Definition invalid_text_representation : JsError :=
  pg_error "22P02" "invalid input syntax".
Definition string_data_right_truncation : JsError :=
  pg_error "22001" "value too long for type character varying".
Definition undefined_column : JsError :=
  pg_error "42703" "column of relation tasks does not exist".
Definition multiple_assignments : JsError :=
  pg_error "42601" "multiple assignments to same column".

(** [SELECT ... FROM tasks t WHERE t.id = $1 AND t.user_id = $2]. *)
Definition select_task (id u : Z) (db : Db) : option TaskRow :=
  match tasks db !! id with
  | Some r => if decide (user_id r = Some u) then Some r else None
  | None => None
  end.

(** The referential checks of a row of [tasks] stored under [id]. *)
Definition references_ok (known : gmap Z TaskRow) (db : Db) (id : Z)
    (r : TaskRow) : bool :=
  match user_id r with
  | Some u => bool_decide (u ∈ users db)
  | None => true
  end
  && match parent_task_id r with
     | Some p => bool_decide (p = id) || bool_decide (is_Some (known !! p))
     | None => true
     end.

(** The same checks on an update from [r] to [r'], made for the foreign keys
    that the update changes. *)
Definition references_kept (known : gmap Z TaskRow) (db : Db) (id : Z)
    (r r' : TaskRow) : bool :=
  (bool_decide (user_id r' = user_id r)
   || match user_id r' with
      | Some u => bool_decide (u ∈ users db)
      | None => true
      end)
  && (bool_decide (parent_task_id r' = parent_task_id r)
      || match parent_task_id r' with
         | Some p => bool_decide (p = id) || bool_decide (is_Some (known !! p))
         | None => true
         end).

(** [INSERT INTO tasks (...) VALUES (...) RETURNING *]: the sequence
    advances whether or not the row is accepted. *)
Definition insert_task (r : TaskRow) : M (Z * TaskRow) := λ db,
  let id := tasks_id_seq db in
  let db1 := mkDb (users db) (tasks db) (id + 1) (task_dependencies db) in
  if negb (references_ok (tasks db) db id r)
  then (Thrown foreign_key_violation, db1)
  else if decide (is_Some (tasks db !! id))
  then (Thrown unique_violation, db1)
  else (Returned (id, r), with_tasks (<[id := r]> (tasks db)) db1).

Definition columns : list string :=
  ["id"; "user_id"; "title"; "description"; "parent_task_id"; "due_date";
   "priority"; "status"; "created_at"; "updated_at"].

(** One assignment [col = $n] on the row [(id, r)].  A parameter whose type
    is not that of the column is refused; [created_at] is outside the
    model.

    The key goes into the statement as it is written and the driver sends
    every parameter as text, so PostgreSQL reads more than this: it folds
    the key [Status] to [status] and takes the text [2] for an integer.  The
    model is that of keys written as the column names with parameters of
    the type of the column, which is what [admissible] below requires. *)
Definition assign (col : string) (v : SqlValue) (ir : Z * TaskRow)
    : JsError + Z * TaskRow :=
  let '(id, r) := ir in
  if String.eqb col "id" then
    match v with
    | VInt z => inr (z, r)
    | VNull => inl not_null_violation
    | VText _ => inl invalid_text_representation
    end
  else if String.eqb col "user_id" then
    match v with
    | VInt z => inr (id, mkTask (Some z) (title r) (description r)
                       (parent_task_id r) (due_date r) (priority r) (status r))
    | VNull => inr (id, mkTask None (title r) (description r)
                       (parent_task_id r) (due_date r) (priority r) (status r))
    | VText _ => inl invalid_text_representation
    end
  else if String.eqb col "title" then
    match v with
    | VText s =>
        if (String.length s <=? 255)%nat
        then inr (id, mkTask (user_id r) s (description r)
                        (parent_task_id r) (due_date r) (priority r) (status r))
        else inl string_data_right_truncation
    | VNull => inl not_null_violation
    | VInt _ => inl invalid_text_representation
    end
  else if String.eqb col "description" then
    match v with
    | VText s => inr (id, mkTask (user_id r) (title r) (Some s)
                        (parent_task_id r) (due_date r) (priority r) (status r))
    | VNull => inr (id, mkTask (user_id r) (title r) None
                       (parent_task_id r) (due_date r) (priority r) (status r))
    | VInt _ => inl invalid_text_representation
    end
  else if String.eqb col "parent_task_id" then
    match v with
    | VInt z => inr (id, mkTask (user_id r) (title r) (description r)
                       (Some z) (due_date r) (priority r) (status r))
    | VNull => inr (id, mkTask (user_id r) (title r) (description r)
                       None (due_date r) (priority r) (status r))
    | VText _ => inl invalid_text_representation
    end
  else if String.eqb col "due_date" then
    match v with
    | VText s => inr (id, mkTask (user_id r) (title r) (description r)
                        (parent_task_id r) (Some s) (priority r) (status r))
    | VNull => inr (id, mkTask (user_id r) (title r) (description r)
                       (parent_task_id r) None (priority r) (status r))
    | VInt _ => inl invalid_text_representation
    end
  else if String.eqb col "priority" then
    match v with
    | VText s =>
        match priority_of_text s with
        | Some p => inr (id, mkTask (user_id r) (title r) (description r)
                           (parent_task_id r) (due_date r) p (status r))
        | None => inl check_violation
        end
    | _ => inl check_violation
    end
  else if String.eqb col "status" then
    match v with
    | VText s =>
        match status_of_text s with
        | Some st => inr (id, with_status st r)
        | None => inl check_violation
        end
    | _ => inl check_violation
    end
  else if String.eqb col "created_at" then inr (id, r)
  else inl undefined_column.

Fixpoint assign_all (sets : list (string * SqlValue)) (ir : Z * TaskRow)
    : JsError + Z * TaskRow :=
  match sets with
  | [] => inr ir
  | (col, v) :: rest =>
      match assign col v ir with
      | inr ir' => assign_all rest ir'
      | inl e => inl e
      end
  end.

(** Is the task [id] the parent of a row or an endpoint of a dependency? *)
Definition referenced (id : Z) (db : Db) : bool :=
  bool_decide (Exists (λ kv, parent_task_id kv.2 = Some id)
                      (map_to_list (tasks db)))
  || bool_decide (Exists (λ e, e.1 = id ∨ e.2 = id) (task_dependencies db)).

(** [UPDATE tasks SET <sets>, updated_at = CURRENT_TIMESTAMP
     WHERE id = $k AND user_id = $k+1 RETURNING *]. *)
Definition update_task (sets : list (string * SqlValue)) (id u : Z)
    : M (option (Z * TaskRow)) := λ db,
  if bool_decide ("updated_at" ∈ sets.*1)
  then (Thrown multiple_assignments, db)
  else if negb (forallb (λ c, bool_decide (c ∈ columns)) sets.*1)
  then (Thrown undefined_column, db)
  else match select_task id u db with
       | None => (Returned None, db)
       | Some r =>
           match assign_all sets (id, r) with
           | inl e => (Thrown e, db)
           | inr (id', r') =>
               let others := base.delete id (tasks db) in
               if negb (references_kept others db id' r r')
               then (Thrown foreign_key_violation, db)
               else if bool_decide (id' = id)
               then (Returned (Some (id, r')),
                     with_tasks (<[id := r']> (tasks db)) db)
               else if decide (is_Some (others !! id'))
               then (Thrown unique_violation, db)
               else if referenced id db
               then (Thrown foreign_key_violation, db)
               else (Returned (Some (id', r')),
                     with_tasks (<[id' := r']> others) db)
           end
       end.

(** [UPDATE tasks SET status = <s> WHERE id = $1]. *)
Definition set_status (id : Z) (s : Status) (db : Db) : Db :=
  with_tasks (alter (with_status s) id (tasks db)) db.

(** The rows removed with the rows [doomed] by
    [parent_task_id ... ON DELETE CASCADE]. *)
Definition is_child_of (doomed : gset Z) (r : TaskRow) : bool :=
  match parent_task_id r with
  | Some p => bool_decide (p ∈ doomed)
  | None => false
  end.

Definition cascade_step (m : gmap Z TaskRow) (doomed : gset Z) : gset Z :=
  doomed ∪ dom (filter (λ kv, is_child_of doomed kv.2) m).

Definition cascade (m : gmap Z TaskRow) (id : Z) : gset Z :=
  Nat.iter (size m) (cascade_step m) {[id]}.

(** [DELETE FROM tasks WHERE id = $1 AND user_id = $2 RETURNING *], with
    the cascades of both tables. *)
Definition delete_task (id u : Z) : M (option (Z * TaskRow)) := λ db,
  match select_task id u db with
  | None => (Returned None, db)
  | Some r =>
      let doomed := cascade (tasks db) id in
      (Returned (Some (id, r)),
       mkDb (users db)
            (filter (λ kv, kv.1 ∉ doomed) (tasks db))
            (tasks_id_seq db)
            (filter (λ e, (e.1 ∉ doomed) ∧ (e.2 ∉ doomed))
                    (task_dependencies db)))
  end.

(** [INSERT INTO task_dependencies (task_id, depends_on_task_id)
     VALUES ($1, $2) RETURNING *]. *)
Definition insert_dependency (t d : Z) : M (Z * Z) := λ db,
  if negb (bool_decide (is_Some (tasks db !! t))
           && bool_decide (is_Some (tasks db !! d)))
  then (Thrown foreign_key_violation, db)
  else if bool_decide ((t, d) ∈ task_dependencies db)
  then (Thrown unique_violation, db)
  else (Returned (t, d),
        with_dependencies (task_dependencies db ++ [(t, d)]) db).

(** [DELETE FROM task_dependencies
     WHERE task_id = $1 AND depends_on_task_id = $2 RETURNING *]. *)
Definition delete_dependency (t d : Z) : M (option (Z * Z)) := λ db,
  (if bool_decide ((t, d) ∈ task_dependencies db)
   then Returned (Some (t, d)) else Returned None,
   with_dependencies (filter (λ e, e ≠ (t, d)) (task_dependencies db)) db).

(** [SELECT depends_on_task_id FROM task_dependencies WHERE task_id = $1]. *)
Definition depends_on (t : Z) (db : Db) : list Z :=
  (filter (λ e, e.1 = t) (task_dependencies db)).*2.

(** [SELECT task_id FROM task_dependencies WHERE depends_on_task_id = $1]. *)
Definition dependents_of (d : Z) (db : Db) : list Z :=
  (filter (λ e, e.2 = d) (task_dependencies db)).*1.

End Store.

(** ** The model: [backend/src/models/Task.js] *)
Module Task.

(** The argument of [Task.create]; an absent [priority] or [status] takes
    the default of the destructuring. *)
Record TaskData := mkTaskData {
  userId : Z;
  td_title : string;
  td_description : option string;
  parentTaskId : option Z;
  dueDate : option string;
  td_priority : option Priority;
  td_status : option Status
}.

Definition create (taskData : TaskData) : M (Z * TaskRow) :=
  Store.insert_task
    (mkTask (Some (userId taskData)) (td_title taskData)
            (td_description taskData) (parentTaskId taskData)
            (dueDate taskData)
            (default Medium (td_priority taskData))
            (default ToDo (td_status taskData))).

Definition findById (taskId userId : Z) : M (option TaskRow) :=
  query (Store.select_task taskId userId).

(** The [SET] list that [update] builds: one assignment for each key of
    [updateData] whose value is not [undefined] ([None]), in key order. *)
Fixpoint set_clause (updateData : list (string * option SqlValue))
    : list (string * SqlValue) :=
  match updateData with
  | [] => []
  | (key, Some v) :: rest => (key, v) :: set_clause rest
  | (key, None) :: rest => set_clause rest
  end.

Definition update (taskId userId : Z)
    (updateData : list (string * option SqlValue))
    : M (option (Z * TaskRow)) :=
  let fields := set_clause updateData in
  if bool_decide (length fields = 0%nat)
  then throw (Error "No fields to update")
  else Store.update_task fields taskId userId.

Definition delete (taskId userId : Z) : M (option (Z * TaskRow)) :=
  Store.delete_task taskId userId.

(** [SELECT id FROM tasks WHERE id IN ($1, $2) AND user_id = $3]: the
    number of rows. *)
Definition taskCheck (taskId dependsOnTaskId userId : Z) (db : Db) : nat :=
  size (filter (λ kv, (kv.1 = taskId ∨ kv.1 = dependsOnTaskId)
                      ∧ user_id kv.2 = Some userId) (tasks db)).

(** The recursive search of [checkCircularDependency].  The sets [visited]
    and [path] are shared by all the calls, so each call returns them with
    its answer; [fuel] bounds the depth of the recursion.

    [for_each_dependency] is the loop
    [for (const dep of dependencies.rows)] of the call on [toTaskId], with
    [path.delete(toTaskId); return false] after it. *)
Definition SearchResult : Type := option (bool * gset Z * gset Z).

Fixpoint for_each_dependency (recur : Z → gset Z → gset Z → SearchResult)
    (toTaskId : Z) (rows : list Z) (visited path : gset Z) : SearchResult :=
  match rows with
  | [] => Some (false, visited, path ∖ {[toTaskId]})
  | dep :: rows' =>
      match recur dep visited path with
      | None => None
      | Some (true, visited', path') => Some (true, visited', path')
      | Some (false, visited', path') =>
          for_each_dependency recur toTaskId rows' visited' path'
      end
  end.

Fixpoint checkCircularDependency_rec (fuel : nat) (db : Db)
    (fromTaskId toTaskId : Z) (visited path : gset Z) : SearchResult :=
  match fuel with
  | O => None
  | S fuel' =>
      if decide (toTaskId ∈ path) then Some (true, visited, path)
      else if decide (toTaskId ∈ visited) then Some (false, visited, path)
      else
        let visited := {[toTaskId]} ∪ visited in
        let path := {[toTaskId]} ∪ path in
        let dependencies := Store.depends_on toTaskId db in
        for_each_dependency (checkCircularDependency_rec fuel' db fromTaskId)
          toTaskId dependencies visited path
  end.

(** Depth enough for every store: a call below the first one is on the
    target of a dependency, and a call that goes on to recurse marks a node
    that was not yet visited. *)
Definition search_depth (db : Db) : nat :=
  S (S (length (task_dependencies db))).

Definition checkCircularDependency_run (fromTaskId toTaskId : Z) (db : Db)
    : option bool :=
  fst <$> (fst <$> checkCircularDependency_rec (search_depth db) db
                     fromTaskId toTaskId ∅ ∅).

(** The call with new, empty sets; the default is never taken
    ([checkCircularDependency_total]). *)
Definition checkCircularDependency (fromTaskId toTaskId : Z) (db : Db)
    : bool :=
  default false (checkCircularDependency_run fromTaskId toTaskId db).

Definition validateDependencies (taskId dependsOnTaskId : Z) : M bool :=
  query (checkCircularDependency taskId dependsOnTaskId).

(** A row of the join
    [task_dependencies td JOIN tasks t ON td.depends_on_task_id = t.id]
    with [t.status != 'Completed']. *)
Definition incomplete (db : Db) (id : Z) : bool :=
  match tasks db !! id with
  | Some r => bool_decide (status r ≠ Completed)
  | None => false
  end.

Definition incompleteDeps (taskId : Z) (db : Db) : list (Z * Z) :=
  filter (λ e, e.1 = taskId ∧ incomplete db e.2) (task_dependencies db).

(** [parseInt(incompleteDeps.rows[0].count) > 0]. *)
Definition hasIncompleteDeps (taskId : Z) (db : Db) : bool :=
  bool_decide (0 < length (incompleteDeps taskId db))%nat.

Definition updateTaskStatusBasedOnDependencies (taskId : Z) (db : Db) : Db :=
  let hasIncompleteDeps := hasIncompleteDeps taskId db in
  match tasks db !! taskId with
  | None => db
  | Some currentTask =>
      let currentStatus := status currentTask in
      if hasIncompleteDeps && bool_decide (currentStatus ≠ Blocked)
         && bool_decide (currentStatus ≠ Completed)
      then Store.set_status taskId Blocked db
      else if negb hasIncompleteDeps && bool_decide (currentStatus = Blocked)
      then Store.set_status taskId ToDo db
      else db
  end.

Definition addDependency (taskId dependsOnTaskId userId : Z) : M (Z * Z) :=
  let! rows := query (taskCheck taskId dependsOnTaskId userId) in
  if bool_decide (rows ≠ 2%nat)
  then throw (Error "One or both tasks not found or not owned by user")
  else
    let! hasCircular :=
      query (checkCircularDependency taskId dependsOnTaskId) in
    if hasCircular : bool
    then throw (Error
           "Adding this dependency would create a circular dependency")
    else
      try_catch
        (let! result := Store.insert_dependency taskId dependsOnTaskId in
         let! _ := exec (updateTaskStatusBasedOnDependencies taskId) in
         ret result)
        (λ error,
           if bool_decide (code error = Some "23505")
           then throw (Error "Dependency already exists")
           else throw error).

Definition removeDependency (taskId dependsOnTaskId userId : Z)
    : M (option (Z * Z)) :=
  let! owner := query (Store.select_task taskId userId) in
  if bool_decide (owner = None)
  then throw (Error "Task not found or not owned by user")
  else
    let! result := Store.delete_dependency taskId dependsOnTaskId in
    let! _ := exec (updateTaskStatusBasedOnDependencies taskId) in
    ret result.

(** The ids of the rows of [getDependents]: the dependents of [taskId]
    owned by [userId]. *)
Definition getDependents (taskId userId : Z) (db : Db) : list Z :=
  filter (λ t, is_Some (Store.select_task t userId db))
         (Store.dependents_of taskId db).

Definition incompleteSubtasks (taskId : Z) (db : Db) : gmap Z TaskRow :=
  filter (λ kv, parent_task_id kv.2 = Some taskId
                ∧ status kv.2 ≠ Completed) (tasks db).

Definition canCompleteTask (taskId : Z) (db : Db) : bool :=
  bool_decide (size (incompleteSubtasks taskId db) = 0%nat).

(** The loop [for (const d of rows) await
    updateTaskStatusBasedOnDependencies(d)]. *)
Definition recompute_each (rows : list Z) (db : Db) : Db :=
  foldl (λ db d, updateTaskStatusBasedOnDependencies d db) db rows.

Definition markAsCompleted (taskId userId : Z) : M (option (Z * TaskRow)) :=
  let! canComplete := query (canCompleteTask taskId) in
  if negb canComplete
  then throw (Error "Cannot complete task: subtasks are not completed")
  else
    let! result := update taskId userId [("status", Some (VText "Completed"))] in
    let! dependents := query (Store.dependents_of taskId) in
    let! _ := exec (recompute_each dependents) in
    ret result.

End Task.

(** ** The controller: [taskController.js] *)

(** The JSON body of a response, as far as the properties below read it:
    its [error] text, or the [task], the [dependency] or the two flags it
    carries.  The [message] field, a fixed text for each handler and
    outcome, is left out, so that two responses that are equal here can
    still differ in their [message]. *)
Inductive Body :=
| ErrorBody (error : string)
| TaskBody (task : Z * TaskRow)
| DependencyBody (dependency : Z * Z)
| ValidationBody (hasCircularDependency canAddDependency : bool).

Record Response := mkResponse { http_status : Z; body : Body }.

#[global] Instance Body_eq_dec : EqDecision Body.
Proof. solve_decision. Defined.
#[global] Instance Response_eq_dec : EqDecision Response.
Proof. solve_decision. Defined.

Module TaskController.

(** A handler: the body of its [try] and what its [catch] answers. *)
Definition handle (attempt : M Response) (on_error : JsError → Response)
    (db : Db) : Response * Db :=
  match attempt db with
  | (Returned r, db') => (r, db')
  | (Thrown e, db') => (on_error e, db')
  end.

Definition reply (st : Z) (b : Body) : M Response := ret (mkResponse st b).
Definition failure (st : Z) (error : string) : Response :=
  mkResponse st (ErrorBody error).

(** JavaScript truthiness of a nullable integer. *)
Definition truthy (o : option Z) : bool :=
  match o with
  | Some z => bool_decide (z ≠ 0)
  | None => false
  end.

(** [updateData.status === 'Completed'] on the request body. *)
Definition field (key : string) (obj : list (string * option SqlValue))
    : option SqlValue :=
  match list_find (λ kv, kv.1 = key) obj with
  | Some (_, (_, v)) => v
  | None => None
  end.

Definition createTask (userId : Z) (title : string)
    (description : option string) (parentTaskId : option Z)
    (dueDate : option string) (priority : option Priority)
    (status : option Status) : Db → Response * Db :=
  handle
    (let create :=
       let! task := Task.create (Task.mkTaskData userId title description
                                   parentTaskId dueDate priority status) in
       reply 201 (TaskBody task) in
     if truthy parentTaskId then
       let! parentTask := Task.findById (default 0 parentTaskId) userId in
       match parentTask with
       | None => reply 404 (ErrorBody "Parent task not found")
       | Some parent =>
           if truthy (parent_task_id parent)
           then reply 400 (ErrorBody "Invalid parent task")
           else create
       end
     else create)
    (λ _, failure 500 "Failed to create task").

Definition updateTask (taskId userId : Z)
    (updateData : list (string * option SqlValue)) : Db → Response * Db :=
  let completing :=
    bool_decide (field "status" updateData = Some (VText "Completed")) in
  handle
    (let! existingTask := Task.findById taskId userId in
     match existingTask with
     | None => reply 404 (ErrorBody "Task not found")
     | Some _ =>
         let! canComplete :=
           if completing then query (Task.canCompleteTask taskId)
           else ret true in
         if negb canComplete
         then reply 400 (ErrorBody "Cannot complete task")
         else
           let! updatedTask := Task.update taskId userId updateData in
           match updatedTask with
           | None => reply 404 (ErrorBody "Task not found")
           | Some task =>
               let! _ :=
                 if completing then
                   let! dependents :=
                     query (Task.getDependents taskId userId) in
                   exec (Task.recompute_each dependents)
                 else ret tt in
               reply 200 (TaskBody task)
           end
     end)
    (λ _, failure 500 "Failed to update task").

Definition deleteTask (taskId userId : Z) : Db → Response * Db :=
  handle
    (let! deletedTask := Task.delete taskId userId in
     match deletedTask with
     | None => reply 404 (ErrorBody "Task not found")
     | Some task => reply 200 (TaskBody task)
     end)
    (λ _, failure 500 "Failed to delete task").

Definition createSubtask (parentTaskId userId : Z) (title : string)
    (description dueDate : option string) (priority : option Priority)
    : Db → Response * Db :=
  handle
    (let! parentTask := Task.findById parentTaskId userId in
     match parentTask with
     | None => reply 404 (ErrorBody "Parent task not found")
     | Some parent =>
         if truthy (parent_task_id parent)
         then reply 400 (ErrorBody "Invalid parent task")
         else
           let! subtask :=
             Task.create (Task.mkTaskData userId title description
                            (Some parentTaskId) dueDate priority
                            (Some ToDo)) in
           reply 201 (TaskBody subtask)
     end)
    (λ _, failure 500 "Failed to create subtask").

Definition addDependency (taskId dependsOnTaskId userId : Z)
    : Db → Response * Db :=
  handle
    (let! task := Task.findById taskId userId in
     match task with
     | None => reply 404 (ErrorBody "Task not found")
     | Some _ =>
         let! dependency :=
           Task.addDependency taskId dependsOnTaskId userId in
         reply 201 (DependencyBody dependency)
     end)
    (λ error,
       if includes "circular dependency" (message error)
       then failure 400 "Circular dependency detected"
       else if includes "not found" (message error)
       then failure 404 "Task not found"
       else if includes "already exists" (message error)
       then failure 409 "Dependency already exists"
       else failure 500 "Failed to add dependency").

Definition removeDependency (taskId dependsOnTaskId userId : Z)
    : Db → Response * Db :=
  handle
    (let! removedDependency :=
       Task.removeDependency taskId dependsOnTaskId userId in
     match removedDependency with
     | None => reply 404 (ErrorBody "Dependency not found")
     | Some dependency => reply 200 (DependencyBody dependency)
     end)
    (λ _, failure 500 "Failed to remove dependency").

Definition validateDependencies (taskId dependsOnTaskId : Z)
    : Db → Response * Db :=
  handle
    (let! hasCircular := Task.validateDependencies taskId dependsOnTaskId in
     reply 200 (ValidationBody hasCircular (negb hasCircular)))
    (λ _, failure 500 "Failed to validate dependencies").

Definition markAsCompleted (taskId userId : Z) : Db → Response * Db :=
  handle
    (let! task := Task.markAsCompleted taskId userId in
     match task with
     | None => reply 404 (ErrorBody "Task not found")
     | Some t => reply 200 (TaskBody t)
     end)
    (λ error,
       if includes "subtasks are not completed" (message error)
       then failure 400 "Cannot complete task"
       else failure 500 "Failed to mark task as completed").

End TaskController.

(** ** The dependency graph *)

(** A path of one or more dependency edges. *)
Inductive path_in (deps : list (Z * Z)) : Z → Z → Prop :=
| path_edge a b : (a, b) ∈ deps → path_in deps a b
| path_step a b c : (a, b) ∈ deps → path_in deps b c → path_in deps a c.

Definition acyclic (deps : list (Z * Z)) : Prop := ∀ x, ¬ path_in deps x x.

(** The contract of the cycle check: the edge [task → dependsOnTask] closes
    a cycle when the two ids are equal or [task] is already reached from
    [dependsOnTask]. *)
Definition wouldCreateCycle (deps : list (Z * Z)) (task dependsOnTask : Z)
    : Prop :=
  task = dependsOnTask ∨ path_in deps dependsOnTask task.

(** The ids that the search can reach below its first call. *)
Definition targets (db : Db) : gset Z := list_to_set (task_dependencies db).*2.


(** ** Status consistency *)

(** Some dependency of [t] has a target that is not Completed. *)
Definition has_incomplete_dependency (db : Db) (t : Z) : Prop :=
  ∃ d r, (t, d) ∈ task_dependencies db ∧ tasks db !! d = Some r
         ∧ status r ≠ Completed.

Definition has_dependency (db : Db) (t : Z) : Prop :=
  ∃ d, (t, d) ∈ task_dependencies db.

(** The row [r] of task [t] is Blocked exactly when a dependency of [t] is
    incomplete and [t] is not Completed. *)
Definition blocked_iff (db : Db) (t : Z) (r : TaskRow) : Prop :=
  status r = Blocked ↔ has_incomplete_dependency db t ∧ status r ≠ Completed.

(** Every task with a dependency is Blocked exactly when it should be. *)
Definition status_consistent (db : Db) : Prop :=
  ∀ t r, tasks db !! t = Some r → has_dependency db t → blocked_iff db t r.

(** The decision table of [updateTaskStatusBasedOnDependencies]. *)
Definition recomputed_status (incompleteDeps : bool) (current : Status)
    : Status :=
  if incompleteDeps && bool_decide (current ≠ Blocked)
     && bool_decide (current ≠ Completed)
  then Blocked
  else if negb incompleteDeps && bool_decide (current = Blocked)
  then ToDo
  else current.

(** ** Rows after an update *)

Definition with_parent (p : option Z) (r : TaskRow) : TaskRow :=
  mkTask (user_id r) (title r) (description r) p (due_date r) (priority r)
         (status r).

Definition with_owner (u : option Z) (r : TaskRow) : TaskRow :=
  mkTask u (title r) (description r) (parent_task_id r) (due_date r)
         (priority r) (status r).

(** ** The columns of a row as values *)

Definition status_text (s : Status) : string :=
  match s with
  | ToDo => "To Do"
  | InProgress => "In Progress"
  | Completed => "Completed"
  | Blocked => "Blocked"
  end.

Definition priority_text (p : Priority) : string :=
  match p with
  | Low => "Low"
  | Medium => "Medium"
  | High => "High"
  end.

Definition nullable_int (o : option Z) : SqlValue :=
  match o with
  | Some z => VInt z
  | None => VNull
  end.

Definition nullable_text (o : option string) : SqlValue :=
  match o with
  | Some s => VText s
  | None => VNull
  end.

(** What the column [col] of the row holds, for the seven columns of the
    model that a [SET] list can name without moving the row. *)
Definition column (col : string) (r : TaskRow) : option SqlValue :=
  if String.eqb col "user_id" then Some (nullable_int (user_id r))
  else if String.eqb col "title" then Some (VText (title r))
  else if String.eqb col "description"
  then Some (nullable_text (description r))
  else if String.eqb col "parent_task_id"
  then Some (nullable_int (parent_task_id r))
  else if String.eqb col "due_date" then Some (nullable_text (due_date r))
  else if String.eqb col "priority"
  then Some (VText (priority_text (priority r)))
  else if String.eqb col "status" then Some (VText (status_text (status r)))
  else None.

(** A text of printable ASCII characters, which PostgreSQL stores as it is
    and counts one character a byte. *)
Definition plain_text (s : string) : bool :=
  forallb (λ a, (32 <=? Ascii.nat_of_ascii a)%nat
                && (Ascii.nat_of_ascii a <=? 126)%nat)
          (String.list_ascii_of_string s).

(** A calendar date written [YYYY-MM-DD] (45 is the hyphen), from the year
    0001 on: a text that PostgreSQL reads as that date whatever its
    [DateStyle]. *)
Definition digit (a : Ascii.ascii) : option nat :=
  let n := Ascii.nat_of_ascii a in
  if (48 <=? n)%nat && (n <=? 57)%nat then Some (n - 48)%nat else None.

Definition leap_year (y : nat) : bool :=
  ((y mod 4 =? 0)%nat && negb (y mod 100 =? 0)%nat) || (y mod 400 =? 0)%nat.

Definition days_in_month (y m : nat) : nat :=
  match m with
  | 1 | 3 | 5 | 7 | 8 | 10 | 12 => 31
  | 4 | 6 | 9 | 11 => 30
  | 2 => if leap_year y then 29 else 28
  | _ => 0
  end%nat.

Definition iso_date (s : string) : bool :=
  match String.list_ascii_of_string s with
  | [y1; y2; y3; y4; h1; m1; m2; h2; d1; d2] =>
      match mapM digit [y1; y2; y3; y4; m1; m2; d1; d2] with
      | Some [a; b; c; d; e; f; g; h] =>
          let y := (1000 * a + 100 * b + 10 * c + d)%nat in
          let m := (10 * e + f)%nat in
          let day := (10 * g + h)%nat in
          (Ascii.nat_of_ascii h1 =? 45)%nat
          && (Ascii.nat_of_ascii h2 =? 45)%nat
          && (1 <=? y)%nat && (1 <=? day)%nat
          && (day <=? days_in_month y m)%nat
      | _ => false
      end
  | _ => false
  end.

(** The assignments [col = v] that the table accepts on the task [t] and
    that the update handler passes on without a further step: a column
    written as its name, a value of its type that meets [NOT NULL], the
    length, the [CHECK] value sets and the foreign keys, and a status other
    than Completed. *)
Inductive admissible (db : Db) (t : Z) : string → SqlValue → Prop :=
| adm_user_id_null : admissible db t "user_id" VNull
| adm_user_id u : u ∈ users db → admissible db t "user_id" (VInt u)
| adm_title s :
    plain_text s = true → (String.length s ≤ 255)%nat →
    admissible db t "title" (VText s)
| adm_description_null : admissible db t "description" VNull
| adm_description s :
    plain_text s = true → admissible db t "description" (VText s)
| adm_parent_task_id_null : admissible db t "parent_task_id" VNull
| adm_parent_task_id p :
    p = t ∨ is_Some (tasks db !! p) →
    admissible db t "parent_task_id" (VInt p)
| adm_due_date_null : admissible db t "due_date" VNull
| adm_due_date s : iso_date s = true → admissible db t "due_date" (VText s)
| adm_priority s p :
    priority_of_text s = Some p → admissible db t "priority" (VText s)
| adm_status s st :
    status_of_text s = Some st → st ≠ Completed →
    admissible db t "status" (VText s).

(** ** The hierarchy *)

(** The parent of the row, when it has one, has no parent itself. *)
Definition parent_is_root (db : Db) (r : TaskRow) : Prop :=
  match parent_task_id r with
  | Some p => match tasks db !! p with
              | Some rp => parent_task_id rp = None
              | None => True
              end
  | None => True
  end.

(** Nesting is one level deep at most. *)
Definition single_level (db : Db) : Prop :=
  map_Forall (λ _ r, parent_is_root db r) (tasks db).

#[global] Instance parent_is_root_dec db r : Decision (parent_is_root db r).
Proof.
  unfold parent_is_root. destruct (parent_task_id r) as [p|]; [|apply _].
  destruct (tasks db !! p); apply _.
Defined.

#[global] Instance single_level_dec db : Decision (single_level db).
Proof. unfold single_level. apply _. Defined.

(** ** The error conditions of the interface

    The condition that a response reports, read from its [error] text. No
    response of the controller reports a self-dependency or a reference
    across owners. *)
Inductive Condition :=
| NotFound | CrossOwner | SelfDependency | CycleDetected | AlreadyExists
| SubtasksIncomplete | ParentNotFound | ParentAlreadyNested.

Definition reported (r : Response) : option Condition :=
  match body r with
  | ErrorBody e =>
      if String.eqb e "Task not found" then Some NotFound
      else if String.eqb e "Dependency not found" then Some NotFound
      else if String.eqb e "Circular dependency detected" then Some CycleDetected
      else if String.eqb e "Dependency already exists" then Some AlreadyExists
      else if String.eqb e "Cannot complete task" then Some SubtasksIncomplete
      else if String.eqb e "Parent task not found" then Some ParentNotFound
      else if String.eqb e "Invalid parent task" then Some ParentAlreadyNested
      else None
  | _ => None
  end.

(** ** Stores used in the examples *)

Definition empty_db : Db := mkDb {[1]} ∅ 1 [].

Definition row (parent : option Z) (s : Status) : TaskRow :=
  mkTask (Some 1) "t" None parent None Medium s.

(** Tasks 1, 2, 3 of user 1 with the dependencies 1→2 and 2→3. *)
Definition chain_db : Db :=
  mkDb {[1]}
       (<[1 := row None Blocked]> (<[2 := row None Blocked]>
          (<[3 := row None ToDo]> ∅)))
       4 [(1, 2); (2, 3)].

(** Tasks 1, 2, 3 of user 1, To Do, with no dependency. *)
Definition three_tasks_db : Db :=
  mkDb {[1]}
       (<[1 := row None ToDo]> (<[2 := row None ToDo]>
          (<[3 := row None ToDo]> ∅)))
       4 [].

(** Task 1 with the subtask 2, and task 3. *)
Definition family_db : Db :=
  mkDb {[1]}
       (<[1 := row None ToDo]> (<[2 := row (Some 1) ToDo]>
          (<[3 := row None ToDo]> ∅)))
       4 [].

(** Task 1, Blocked on its one dependency, task 2. *)
Definition blocked_pair_db : Db :=
  mkDb {[1]}
       (<[1 := row None Blocked]> (<[2 := row None ToDo]> ∅))
       3 [(1, 2)].

(** Task 1, created Blocked, with no dependency. *)
Definition blocked_alone_db : Db :=
  mkDb {[1]} (<[1 := row None Blocked]> ∅) 2 [].

Definition new_task (s : option Status) (db : Db) : Db :=
  (TaskController.createTask 1 "t" None None None None s db).2.

(** ** Further notions *)

(** A cycle of the graph that is reached from [t]: through [t] itself or
    through a node on a path from [t]. *)
Definition cycle_reachable (deps : list (Z * Z)) (t : Z) : Prop :=
  ∃ x, (x = t ∨ path_in deps t x) ∧ path_in deps x x.

(** A set of nodes that the search has left: it holds the targets of its
    nodes, and no cycle goes through one of them. *)
Definition finished_ok (deps : list (Z * Z)) (F : gset Z) : Prop :=
  (∀ x d, x ∈ F → (x, d) ∈ deps → d ∈ F)
  ∧ (∀ x, x ∈ F → ¬ path_in deps x x).

(** The owner of a task, when the task exists and has one. *)
Definition owner_of (db : Db) (t : Z) : option Z := tasks db !! t ≫= user_id.

(** Every dependency joins two tasks of one owner. *)
Definition same_owner_edges (db : Db) : Prop :=
  ∀ a b, (a, b) ∈ task_dependencies db →
    ∃ u, owner_of db a = Some u ∧ owner_of db b = Some u.

(** What the foreign keys of [schema.sql] require: the parent of a task, the
    two ends of a dependency and the owner of a task exist. *)
Definition referential_integrity (db : Db) : Prop :=
  (∀ t r p, tasks db !! t = Some r → parent_task_id r = Some p →
            is_Some (tasks db !! p))
  ∧ (∀ a b, (a, b) ∈ task_dependencies db →
            is_Some (tasks db !! a) ∧ is_Some (tasks db !! b))
  ∧ (∀ t r u, tasks db !! t = Some r → user_id r = Some u → u ∈ users db).

(** The chain closed into the cycle 1→2→3→1, as the three accepted requests
    leave it. *)
Definition cyclic_db : Db :=
  mkDb {[1]}
       (<[1 := row None Blocked]> (<[2 := row None Blocked]>
          (<[3 := row None Blocked]> ∅)))
       4 [(1, 2); (2, 3); (3, 1)].

(** Two stores with the same users, sequence, dependencies and tasks, whose
    rows differ in [status] at most. *)
Definition same_but_statuses (db db' : Db) : Prop :=
  users db' = users db
  ∧ tasks_id_seq db' = tasks_id_seq db
  ∧ task_dependencies db' = task_dependencies db
  ∧ (∀ y, tasks db' !! y = None ↔ tasks db !! y = None)
  ∧ (∀ y r', tasks db' !! y = Some r' →
       ∃ r, tasks db !! y = Some r ∧ r' = with_status (status r') r).

(** The hierarchy as the creation handlers mean it: references intact,
    nesting one level deep, and ids from a sequence that starts at 1. *)
Definition hierarchy_ok (db : Db) : Prop :=
  referential_integrity db ∧ single_level db
  ∧ tasks db !! 0 = None ∧ 0 < tasks_id_seq db.

(** The two checks of [referential_integrity] on a row. *)
Definition parent_exists (db : Db) (r : TaskRow) : Prop :=
  match parent_task_id r with
  | Some p => is_Some (tasks db !! p)
  | None => True
  end.

Definition owner_exists (db : Db) (r : TaskRow) : Prop :=
  match user_id r with
  | Some u => u ∈ users db
  | None => True
  end.

#[global] Instance parent_exists_dec db r : Decision (parent_exists db r).
Proof. unfold parent_exists. destruct (parent_task_id r); apply _. Defined.

#[global] Instance owner_exists_dec db r : Decision (owner_exists db r).
Proof. unfold owner_exists. destruct (user_id r); apply _. Defined.

(** ** The reads of [Task.js] behind the detail page *)
Module TaskQueries.



End TaskQueries.

(** ** [frontend/src/utils/helpers.js]: [taskUtils] *)
Module taskUtils.

(** The task object of the detail page, as far as the two helpers read it:
    the arrays [subtasks] and [dependencies], each possibly absent. *)
Record TaskObject := mkTaskObject {
  subtasks : option (list TaskRow);
  dependencies : option (list TaskRow)
}.

Definition canCompleteTask (task : option TaskObject) : bool :=
  match task with
  | None => false
  | Some task =>
      match subtasks task with
      | Some rows =>
          if (0 <? length rows)%nat
          then forallb (λ subtask, bool_decide (status subtask = Completed))
                       rows
          else true
      | None => true
      end
  end.


End taskUtils.

(** ** [Task.getTaskTree]: the recursive query of the tree view *)
Module TaskTree.

(** A row of [task_tree]: a row of [tasks] with its [level] and [path]. *)
Record TreeRow := mkTreeRow {
  tree_id : Z;
  tree_task : TaskRow;
  level : nat;
  path : list Z
}.

(** The non-recursive term: the root tasks of the user. *)
Definition anchor (userId : Z) (db : Db) : list TreeRow :=
  (λ kv, mkTreeRow kv.1 kv.2 0 [kv.1]) <$>
  filter (λ kv, user_id kv.2 = Some userId ∧ parent_task_id kv.2 = None)
         (map_to_list (tasks db)).

(** The recursive term on one row [tt] of the working table: the tasks of
    the user whose parent is [tt]. *)
Definition subtasks_of (userId : Z) (db : Db) (tt : TreeRow) : list TreeRow :=
  (λ kv, mkTreeRow kv.1 kv.2 (S (level tt)) (path tt ++ [kv.1])) <$>
  filter (λ kv, parent_task_id kv.2 = Some (tree_id tt)
                ∧ user_id kv.2 = Some userId)
         (map_to_list (tasks db)).

Definition recursive_term (userId : Z) (db : Db) (working : list TreeRow)
    : list TreeRow :=
  working ≫= subtasks_of userId db.

(** The evaluation of [WITH RECURSIVE ... UNION ALL]: the working table goes
    to the result and is replaced by the recursive term on it, until it is
    empty; [rounds] bounds the number of rounds. *)
Fixpoint task_tree (rounds : nat) (userId : Z) (db : Db)
    (working : list TreeRow) : option (list TreeRow) :=
  match working, rounds with
  | [], _ => Some []
  | _, O => None
  | _, S rounds' =>
      app working <$>
        task_tree rounds' userId db (recursive_term userId db working)
  end.

(** The rows come [ORDER BY level, due_date, priority, created_at]: by level
    as here, and within a level in an order that the model leaves open. *)
Definition getTaskTree_run (userId : Z) (db : Db) : option (list TreeRow) :=
  task_tree (S (size (tasks db))) userId db (anchor userId db).

Definition getTaskTree (userId : Z) (db : Db) : list TreeRow :=
  default [] (getTaskTree_run userId db).

End TaskTree.

(** The task [t] belongs to [u] and lies [k] levels below a root task,
    through tasks of [u] only. *)
Fixpoint depth_is (u : Z) (db : Db) (k : nat) (t : Z) : Prop :=
  ∃ r, tasks db !! t = Some r ∧ user_id r = Some u ∧
       match k with
       | O => parent_task_id r = None
       | S k' => ∃ p, parent_task_id r = Some p ∧ depth_is u db k' p
       end.

(** The task [t] after its [k] nearest ancestors, the farthest first. *)
Fixpoint ancestors (db : Db) (k : nat) (t : Z) : list Z :=
  match k with
  | O => [t]
  | S k' =>
      match tasks db !! t ≫= parent_task_id with
      | Some p => ancestors db k' p ++ [t]
      | None => [t]
      end
  end.

(** A subtask belongs to the owner of its parent. *)
Definition subtasks_with_parent_owner (db : Db) : Prop :=
  map_Forall (λ _ r, match parent_task_id r with
                     | Some p => owner_of db p = user_id r
                     | None => True
                     end) (tasks db).

#[global] Instance subtasks_with_parent_owner_dec db :
  Decision (subtasks_with_parent_owner db).
Proof.
  unfold subtasks_with_parent_owner. apply map_Forall_dec. intros _ r.
  destruct (parent_task_id r); apply _.
Defined.

(** Task 1 of user 1 and task 2 of user 2. *)
Definition two_owners_db : Db :=
  mkDb {[1; 2]}
       (<[1 := row None ToDo]>
          (<[2 := with_owner (Some 2) (row None ToDo)]> ∅))
       3 [].

(** The rows that round [k] of the query adds. *)
Definition level_rows (u : Z) (db : Db) (k : nat) : list TaskTree.TreeRow :=
  Nat.iter k (TaskTree.recursive_term u db) (TaskTree.anchor u db).

(** ** [Task.findByUser]: the list of the tasks page *)
Module TaskList.





End TaskList.

(** ** [components/Tasks/DependencyManager.js] *)
Module DependencyManager.


End DependencyManager.


(** ** Completed parents *)

(** The row is Completed when its parent is. *)
Definition completed_with_parent (db : Db) (rs : TaskRow) : Prop :=
  match parent_task_id rs with
  | Some p => match tasks db !! p with
              | Some rp => status rp = Completed → status rs = Completed
              | None => True
              end
  | None => True
  end.

(** What the gate of the completion is there for: a Completed task has no
    subtask that is not Completed. *)
Definition completed_parents_ok (db : Db) : Prop :=
  map_Forall (λ _ rs, completed_with_parent db rs) (tasks db).

#[global] Instance completed_with_parent_dec db rs :
  Decision (completed_with_parent db rs).
Proof.
  unfold completed_with_parent. destruct (parent_task_id rs) as [p|]; [|apply _].
  destruct (tasks db !! p); apply _.
Defined.

#[global] Instance completed_parents_ok_dec db :
  Decision (completed_parents_ok db).
Proof. unfold completed_parents_ok. apply _. Defined.

(** Task 1, Completed, with its Completed subtask 2, and task 3. *)
Definition finished_family_db : Db :=
  mkDb {[1]}
       (<[1 := row None Completed]> (<[2 := row (Some 1) Completed]>
          (<[3 := row None ToDo]> ∅)))
       4 [].

(** * Properties *)

(** ** The search of [checkCircularDependency] returns *)

Lemma size_list_to_set_le (l : list Z) :
  (size (list_to_set l : gset Z) ≤ length l)%nat.
Proof.
  induction l as [|x l IH].
  - rewrite list_to_set_nil, size_empty. done.
  - rewrite list_to_set_cons. cbn [length].
    destruct (decide (x ∈ (list_to_set l : gset Z))) as [Hin|Hin].
    + replace ({[x]} ∪ list_to_set l) with (list_to_set l : gset Z)
        by set_solver.
      lia.
    + rewrite size_union by set_solver. rewrite size_singleton. lia.
Qed.

Lemma checkCircularDependency_rec_unfold n db f t visited path :
  Task.checkCircularDependency_rec (S n) db f t visited path
  = if decide (t ∈ path) then Some (true, visited, path)
    else if decide (t ∈ visited) then Some (false, visited, path)
    else Task.for_each_dependency (Task.checkCircularDependency_rec n db f) t
           (Store.depends_on t db) ({[t]} ∪ visited) ({[t]} ∪ path).
Proof. reflexivity. Qed.

Section search_total.
Context (db : Db) (fromTaskId : Z).

Lemma depends_on_targets t d : d ∈ Store.depends_on t db → d ∈ targets db.
Proof.
  unfold Store.depends_on, targets. rewrite elem_of_list_to_set.
  intros [e [-> He]]%list_elem_of_fmap.
  apply list_elem_of_filter in He as [_ He].
  apply list_elem_of_fmap. by exists e.
Qed.

Lemma size_targets : (size (targets db) ≤ length (task_dependencies db))%nat.
Proof.
  unfold targets. rewrite <- (length_fmap snd).
  apply size_list_to_set_le.
Qed.

(** The loop returns when every call it makes does. *)
Lemma for_each_dependency_total recur t (n : nat) rows :
  (∀ d visited path, d ∈ rows → (size (targets db ∖ visited) < n)%nat →
     ∃ b v p, recur d visited path = Some (b, v, p) ∧ visited ⊆ v) →
  ∀ visited path, (size (targets db ∖ visited) < n)%nat →
    ∃ b v p, Task.for_each_dependency recur t rows visited path
             = Some (b, v, p) ∧ visited ⊆ v.
Proof.
  induction rows as [|d rows IH]; intros Hrec visited path Hsize; simpl.
  - by eexists _, _, _.
  - destruct (Hrec d visited path) as (b & v & p & -> & Hsub);
      [by left | done |].
    destruct b; [by eexists _, _, _|].
    destruct (IH (λ d' v' p' Hd', Hrec d' v' p' (list_elem_of_further _ _ _ Hd'))
                 v p) as (b' & v' & p' & -> & Hsub').
    + eapply Nat.le_lt_trans; [|exact Hsize].
      apply subseteq_size. set_solver.
    + eexists _, _, _. split; [done|]. set_solver.
Qed.

(** A call on the target of a dependency returns when the fuel exceeds the
    number of targets not yet visited. *)
Lemma checkCircularDependency_rec_total (n : nat) :
  ∀ t visited path, t ∈ targets db → (size (targets db ∖ visited) < n)%nat →
    ∃ b v p, Task.checkCircularDependency_rec n db fromTaskId t visited path
             = Some (b, v, p) ∧ visited ⊆ v.
Proof.
  induction n as [|n IH]; intros t visited path Ht Hsize; [lia|].
  rewrite checkCircularDependency_rec_unfold.
  destruct (decide (t ∈ path)); [by eexists _, _, _|].
  destruct (decide (t ∈ visited)) as [|Hnv]; [by eexists _, _, _|].
  assert (size (targets db ∖ ({[t]} ∪ visited)) < size (targets db ∖ visited))%nat
    as Hlt by (apply subset_size; set_solver).
  destruct (for_each_dependency_total
              (Task.checkCircularDependency_rec n db fromTaskId) t n
              (Store.depends_on t db)) with
    (visited := {[t]} ∪ visited) (path := {[t]} ∪ path)
    as (b & v & p & -> & Hsub).
  - intros d v' p' Hd Hs. apply IH; [|done].
    by eapply depends_on_targets.
  - lia.
  - eexists _, _, _. split; [done|]. set_solver.
Qed.

Lemma checkCircularDependency_total toTaskId :
  is_Some (Task.checkCircularDependency_run fromTaskId toTaskId db).
Proof.
  unfold Task.checkCircularDependency_run, Task.search_depth.
  rewrite checkCircularDependency_rec_unfold.
  destruct (decide (toTaskId ∈ (∅ : gset Z))) as [Hin|_]; [set_solver|].
  destruct (for_each_dependency_total
              (Task.checkCircularDependency_rec
                 (S (length (task_dependencies db))) db fromTaskId)
              toTaskId (S (length (task_dependencies db)))
              (Store.depends_on toTaskId db)) with
    (visited := ({[toTaskId]} ∪ ∅ : gset Z))
    (path := ({[toTaskId]} ∪ ∅ : gset Z))
    as (b & v & p & -> & _).
  - intros d v' p' Hd Hs. apply checkCircularDependency_rec_total; [|done].
    by eapply depends_on_targets.
  - pose proof size_targets.
    assert (size (targets db ∖ ({[toTaskId]} ∪ ∅)) ≤ size (targets db))%nat
      by (apply subseteq_size; set_solver).
    lia.
  - by eexists.
Qed.

(** The answer does not depend on [fromTaskId]: the search never reads
    it. *)
Lemma checkCircularDependency_rec_from (n : nat) other :
  ∀ t visited path,
    Task.checkCircularDependency_rec n db fromTaskId t visited path
    = Task.checkCircularDependency_rec n db other t visited path.
Proof.
  induction n as [|n IH]; intros t visited path; [done|].
  rewrite !checkCircularDependency_rec_unfold.
  destruct (decide (t ∈ path)); [done|].
  destruct (decide (t ∈ visited)); [done|].
  generalize ({[t]} ∪ visited) ({[t]} ∪ path).
  induction (Store.depends_on t db) as [|d rows IHrows]; intros v p; simpl;
    [done|].
  rewrite IH.
  destruct (Task.checkCircularDependency_rec n db other d v p)
    as [[[[] v'] p']|]; auto.
Qed.

Lemma checkCircularDependency_returns toTaskId :
  Task.checkCircularDependency_run fromTaskId toTaskId db
  = Some (Task.checkCircularDependency fromTaskId toTaskId db).
Proof.
  unfold Task.checkCircularDependency.
  by destruct (checkCircularDependency_total toTaskId) as [b ->].
Qed.

End search_total.

(** ** What the search answers on an acyclic graph *)

Lemma elem_of_depends_on t d db :
  d ∈ Store.depends_on t db ↔ (t, d) ∈ task_dependencies db.
Proof.
  unfold Store.depends_on. rewrite list_elem_of_fmap. split.
  - intros ([t' d'] & -> & [Ht Hin]%list_elem_of_filter). simpl in *.
    by subst.
  - intros Hin. exists (t, d). split; [done|].
    by apply list_elem_of_filter.
Qed.

Lemma path_in_snoc deps a b c :
  path_in deps a b → (b, c) ∈ deps → path_in deps a c.
Proof.
  induction 1 as [a b Hab|a b b' Hab Hp IH]; intros Hbc.
  - eapply path_step; [done|]. by apply path_edge.
  - eapply path_step; [done|]. by apply IH.
Qed.

(** The search answers true only when it meets a node of its own [path].
    As long as every node of [path] has a path of edges to the node of the
    call, that is a cycle of the graph as it is: on an acyclic graph every
    call answers false and hands [path] back as it got it. *)
Lemma checkCircularDependency_rec_acyclic db f (n : nat) :
  acyclic (task_dependencies db) →
  ∀ t visited path r,
    (∀ p, p ∈ path → path_in (task_dependencies db) p t) →
    Task.checkCircularDependency_rec n db f t visited path = Some r →
    ∃ v, r = (false, v, path).
Proof.
  intros Hacyclic. induction n as [|n IH]; intros t visited path r Hpath;
    [done|].
  rewrite checkCircularDependency_rec_unfold.
  destruct (decide (t ∈ path)) as [Hin|Hnin].
  { by destruct (Hacyclic t (Hpath t Hin)). }
  destruct (decide (t ∈ visited)); [intros [= <-]; by eexists|].
  assert (∀ d, d ∈ Store.depends_on t db →
               (t, d) ∈ task_dependencies db) as Hrows
    by (intros d; by rewrite elem_of_depends_on).
  revert Hrows. generalize ({[t]} ∪ visited).
  induction (Store.depends_on t db) as [|d rows IHrows]; intros v Hrows;
    simpl.
  - intros [= <-]. exists v. f_equal. set_solver.
  - destruct (Task.checkCircularDependency_rec n db f d v ({[t]} ∪ path))
      as [r'|] eqn:Hcall; [|done].
    apply IH in Hcall as [v' ->].
    + apply IHrows. intros d' Hd'. apply Hrows. by right.
    + intros p [->%elem_of_singleton|Hp]%elem_of_union.
      * apply path_edge, Hrows. by left.
      * eapply path_in_snoc; [by apply Hpath|]. apply Hrows. by left.
Qed.

(** So on an acyclic graph the check answers false for every pair, also
    for a pair whose edge would close a cycle. *)
Lemma checkCircularDependency_acyclic db f t :
  acyclic (task_dependencies db) → Task.checkCircularDependency f t db = false.
Proof.
  intros Hacyclic.
  pose proof (checkCircularDependency_returns db f t) as Hrun.
  unfold Task.checkCircularDependency_run in Hrun.
  destruct (Task.checkCircularDependency_rec _ db f t ∅ ∅) as [r|] eqn:Hrec;
    [|done].
  apply checkCircularDependency_rec_acyclic in Hrec as [v ->];
    [|done|set_solver].
  simpl in Hrun. by injection Hrun as <-.
Qed.

Lemma with_status_id r : with_status (status r) r = r.
Proof. by destruct r. Qed.

Lemma with_status_same s r : status r = s → with_status s r = r.
Proof. intros <-. apply with_status_id. Qed.

Lemma status_with_status s r : status (with_status s r) = s.
Proof. done. Qed.

Lemma incomplete_true db d :
  Task.incomplete db d = true
  ↔ ∃ r, tasks db !! d = Some r ∧ status r ≠ Completed.
Proof.
  unfold Task.incomplete. destruct (tasks db !! d) as [r|].
  - rewrite bool_decide_eq_true. naive_solver.
  - naive_solver.
Qed.

Lemma hasIncompleteDeps_true db t :
  Task.hasIncompleteDeps t db = true ↔ has_incomplete_dependency db t.
Proof.
  unfold Task.hasIncompleteDeps, Task.incompleteDeps, has_incomplete_dependency.
  rewrite bool_decide_eq_true. split.
  - intros Hlen.
    destruct (filter _ _) as [|[t' d] l] eqn:Hf; [simpl in Hlen; lia|].
    assert ((t', d) ∈ filter (λ e : Z * Z, e.1 = t ∧ Task.incomplete db e.2)
                        (task_dependencies db)) as Hin
      by (rewrite Hf; left).
    apply list_elem_of_filter in Hin as [[Ht Hi] Hin]. simpl in *. subst t'.
    apply Is_true_true, incomplete_true in Hi as (r & Hr & Hs).
    by exists d, r.
  - intros (d & r & Hin & Hr & Hs).
    assert ((t, d) ∈ filter (λ e : Z * Z, e.1 = t ∧ Task.incomplete db e.2)
                       (task_dependencies db)) as Hf.
    { apply list_elem_of_filter. split; [|done]. split; [done|].
      apply Is_true_true, incomplete_true. by exists r. }
    destruct (filter _ _); [by apply elem_of_nil in Hf|simpl; lia].
Qed.

(** What one recomputation writes. *)
Lemma recompute_dependencies x db :
  task_dependencies (Task.updateTaskStatusBasedOnDependencies x db)
  = task_dependencies db.
Proof.
  unfold Task.updateTaskStatusBasedOnDependencies.
  destruct (tasks db !! x); [|done].
  repeat case_match; done.
Qed.

Lemma recompute_lookup x db y :
  tasks (Task.updateTaskStatusBasedOnDependencies x db) !! y
  = if decide (y = x)
    then (λ r, with_status (recomputed_status (Task.hasIncompleteDeps x db)
                              (status r)) r) <$> tasks db !! x
    else tasks db !! y.
Proof.
  unfold Task.updateTaskStatusBasedOnDependencies, recomputed_status.
  destruct (tasks db !! x) as [r|] eqn:Hx.
  - destruct (Task.hasIncompleteDeps x db && bool_decide (status r ≠ Blocked)
              && bool_decide (status r ≠ Completed)) eqn:E1;
      [|destruct (negb (Task.hasIncompleteDeps x db)
                  && bool_decide (status r = Blocked)) eqn:E2]; simpl;
      rewrite ?lookup_alter; destruct (decide (y = x)) as [->|];
      rewrite ?decide_True, ?decide_False by done;
      rewrite ?Hx; simpl; rewrite ?E1, ?E2, ?with_status_id; done.
  - destruct (decide (y = x)) as [->|]; [by rewrite Hx|done].
Qed.

Lemma recomputed_status_completed b s :
  recomputed_status b s = Completed ↔ s = Completed.
Proof. destruct b, s; by vm_compute. Qed.

Lemma recompute_incomplete x db y :
  Task.incomplete (Task.updateTaskStatusBasedOnDependencies x db) y
  = Task.incomplete db y.
Proof.
  unfold Task.incomplete. rewrite recompute_lookup.
  destruct (decide (y = x)) as [->|]; [|done].
  destruct (tasks db !! x) as [r|]; [|done]. simpl.
  apply bool_decide_ext. by rewrite recomputed_status_completed.
Qed.

Lemma has_incomplete_dependency_alt db t :
  has_incomplete_dependency db t
  ↔ ∃ d, (t, d) ∈ task_dependencies db ∧ Task.incomplete db d = true.
Proof.
  unfold has_incomplete_dependency. split.
  - intros (d & r & Hin & Hr & Hs). exists d. split; [done|].
    apply incomplete_true. by exists r.
  - intros (d & Hin & (r & Hr & Hs)%incomplete_true). by exists d, r.
Qed.



(** A recomputation leaves the recomputed task as the decision table
    says... *)
Lemma recompute_establishes x db r' :
  tasks (Task.updateTaskStatusBasedOnDependencies x db) !! x = Some r' →
  blocked_iff (Task.updateTaskStatusBasedOnDependencies x db) x r'.
Proof.
  rewrite recompute_lookup, decide_True by done.
  destruct (tasks db !! x) as [r|]; [|done]. simpl. intros [= <-].
  unfold blocked_iff. rewrite status_with_status.
  rewrite has_incomplete_dependency_alt, recompute_dependencies.
  setoid_rewrite recompute_incomplete.
  rewrite <- has_incomplete_dependency_alt, <- hasIncompleteDeps_true.
  destruct (Task.hasIncompleteDeps x db), (status r); vm_compute; naive_solver.
Qed.


Lemma recompute_each_dependencies l db :
  task_dependencies (Task.recompute_each l db) = task_dependencies db.
Proof.
  revert db. induction l as [|a l IH]; intros db; [done|].
  change (Task.recompute_each (a :: l) db)
    with (Task.recompute_each l (Task.updateTaskStatusBasedOnDependencies a db)).
  by rewrite IH, recompute_dependencies.
Qed.


(** ** What the statements of the model evaluate to *)

Lemma update_status_completed t u db :
  Task.update t u [("status", Some (VText "Completed"))] db
  = match Store.select_task t u db with
    | None => (Returned None, db)
    | Some r => (Returned (Some (t, with_status Completed r)),
                 with_tasks (<[t := with_status Completed r]> (tasks db)) db)
    end.
Proof.
  unfold Task.update, Store.update_task. simpl.
  destruct (Store.select_task t u db) as [r|]; [|done]. simpl.
  unfold Store.references_kept. simpl.
  rewrite !bool_decide_eq_true_2 by done. done.
Qed.

(** *** Deciding consistency *)

Lemma has_dependency_Exists db t :
  has_dependency db t ↔ Exists (λ e, e.1 = t) (task_dependencies db).
Proof.
  unfold has_dependency. rewrite Exists_exists. split.
  - intros [d Hd]. by exists (t, d).
  - intros ([t' d] & Hin & Ht). simpl in Ht. subst t'. by exists d.
Qed.

#[global] Instance has_dependency_dec db t : Decision (has_dependency db t).
Proof.
  destruct (decide (Exists (λ e, e.1 = t) (task_dependencies db)));
    [left|right]; by rewrite has_dependency_Exists.
Defined.

#[global] Instance has_incomplete_dependency_dec db t :
  Decision (has_incomplete_dependency db t).
Proof.
  destruct (Task.hasIncompleteDeps t db) eqn:E; [left|right].
  - by apply hasIncompleteDeps_true.
  - rewrite <- hasIncompleteDeps_true. congruence.
Defined.

#[global] Instance blocked_iff_dec db t r : Decision (blocked_iff db t r).
Proof. unfold blocked_iff. apply _. Defined.

#[global] Instance status_consistent_dec db : Decision (status_consistent db).
Proof.
  unfold status_consistent.
  apply (map_Forall_dec (λ t r, has_dependency db t → blocked_iff db t r)).
Defined.

(** *** The store after a request *)

Lemma addDependency_store t d u db :
  (TaskController.addDependency t d u db).2 = db
  ∨ (TaskController.addDependency t d u db).2
    = Task.updateTaskStatusBasedOnDependencies t
        (with_dependencies (task_dependencies db ++ [(t, d)]) db).
Proof.
  unfold TaskController.addDependency, TaskController.handle, Task.findById,
    Task.addDependency, Store.insert_dependency, TaskController.reply,
    bind, try_catch, query, exec, throw, ret.
  repeat (case_match; simplify_eq/=); auto.
Qed.

Lemma removeDependency_store t d u db :
  (TaskController.removeDependency t d u db).2 = db
  ∨ (TaskController.removeDependency t d u db).2
    = Task.updateTaskStatusBasedOnDependencies t
        (with_dependencies
           (filter (λ e, e ≠ (t, d)) (task_dependencies db)) db).
Proof.
  unfold TaskController.removeDependency, TaskController.handle,
    Task.removeDependency, Store.delete_dependency, TaskController.reply,
    bind, query, exec, throw, ret.
  repeat (case_match; simplify_eq/=); auto.
Qed.

Lemma markAsCompleted_store t u db :
  (TaskController.markAsCompleted t u db).2 = db
  ∨ (TaskController.markAsCompleted t u db).2
    = Task.recompute_each (Store.dependents_of t db)
        match Store.select_task t u db with
        | Some r => with_tasks (<[t := with_status Completed r]> (tasks db)) db
        | None => db
        end.
Proof.
  unfold TaskController.markAsCompleted, TaskController.handle,
    Task.markAsCompleted, bind, query, exec, throw, ret.
  destruct (negb (Task.canCompleteTask t db)); [by left|].
  rewrite update_status_completed.
  destruct (Store.select_task t u db); simpl; by right.
Qed.

Lemma elem_of_dependents_of x t db :
  x ∈ Store.dependents_of t db ↔ (x, t) ∈ task_dependencies db.
Proof.
  unfold Store.dependents_of. rewrite list_elem_of_fmap. split.
  - intros ([x' t'] & -> & [Ht Hin]%list_elem_of_filter). simpl in *.
    by subst.
  - intros Hin. exists (x, t). split; [done|].
    by apply list_elem_of_filter.
Qed.


(** ** Completion and the loop over the dependents *)

Lemma canCompleteTask_true t db :
  Task.canCompleteTask t db = true
  ↔ ∀ s rs, tasks db !! s = Some rs → parent_task_id rs = Some t →
            status rs = Completed.
Proof.
  unfold Task.canCompleteTask, Task.incompleteSubtasks.
  rewrite bool_decide_eq_true, map_size_empty_iff, map_empty.
  setoid_rewrite map_lookup_filter_None. simpl. split.
  - intros H s rs Hrs Hp. destruct (H s) as [Hn|Hn]; [congruence|].
    destruct (decide (status rs = Completed)); [done|].
    by destruct (Hn rs Hrs).
  - intros H s. right. intros rs Hrs [Hp Hs]. eauto.
Qed.

Lemma recompute_each_cons x l db :
  Task.recompute_each (x :: l) db
  = Task.recompute_each l (Task.updateTaskStatusBasedOnDependencies x db).
Proof. done. Qed.

Lemma recompute_hasIncompleteDeps x db y :
  Task.hasIncompleteDeps y (Task.updateTaskStatusBasedOnDependencies x db)
  = Task.hasIncompleteDeps y db.
Proof.
  apply Bool.eq_iff_eq_true.
  rewrite !hasIncompleteDeps_true, !has_incomplete_dependency_alt.
  rewrite recompute_dependencies. by setoid_rewrite recompute_incomplete.
Qed.

(** A row met after the loop is a row met before it, with its owner and its
    parent, and Completed after exactly when it was before. *)
Lemma recompute_each_row l db y r' :
  tasks (Task.recompute_each l db) !! y = Some r' →
  ∃ r, tasks db !! y = Some r ∧ user_id r' = user_id r
       ∧ parent_task_id r' = parent_task_id r
       ∧ (status r' = Completed ↔ status r = Completed).
Proof.
  revert db r'. induction l as [|x l IH]; intros db r' Hr'.
  - by exists r'.
  - rewrite recompute_each_cons in Hr'.
    apply IH in Hr' as (r1 & Hr1 & Hu & Hp & Hs).
    rewrite recompute_lookup in Hr1. destruct (decide (y = x)) as [->|].
    + destruct (tasks db !! x) as [r|]; [|done]. simpl in Hr1.
      injection Hr1 as <-. exists r. simpl in *.
      rewrite recomputed_status_completed in Hs. done.
    + by exists r1.
Qed.

(** A task outside the loop keeps its row. *)
Lemma recompute_each_other l db y :
  y ∉ l → tasks (Task.recompute_each l db) !! y = tasks db !! y.
Proof.
  revert db. induction l as [|x l IH]; intros db Hy; [done|].
  rewrite recompute_each_cons, IH by set_solver.
  rewrite recompute_lookup, decide_False; [done|set_solver].
Qed.


(** A To Do task with no incomplete dependency keeps its row. *)
Lemma recompute_each_todo l db y r :
  tasks db !! y = Some r → status r = ToDo →
  Task.hasIncompleteDeps y db = false →
  tasks (Task.recompute_each l db) !! y = Some r.
Proof.
  revert db. induction l as [|x l IH]; intros db Hr Hs Hn; [done|].
  rewrite recompute_each_cons. apply IH; [|done|].
  - rewrite recompute_lookup. destruct (decide (y = x)) as [->|]; [|done].
    rewrite Hr. simpl. rewrite with_status_same; [done|].
    by rewrite Hs, Hn.
  - by rewrite recompute_hasIncompleteDeps.
Qed.

(** A Blocked task of the loop with no incomplete dependency ends To Do. *)
Lemma recompute_each_unblocks l db y r :
  y ∈ l → tasks db !! y = Some r → status r = Blocked →
  Task.hasIncompleteDeps y db = false →
  tasks (Task.recompute_each l db) !! y = Some (with_status ToDo r).
Proof.
  revert db. induction l as [|x l IH]; intros db Hy Hr Hs Hn;
    [by apply elem_of_nil in Hy|].
  rewrite recompute_each_cons. destruct (decide (y = x)) as [->|Hne].
  - apply recompute_each_todo; [|done|by rewrite recompute_hasIncompleteDeps].
    rewrite recompute_lookup, decide_True by done.
    rewrite Hr. simpl. by rewrite Hs, Hn.
  - apply IH; [set_solver| |done|by rewrite recompute_hasIncompleteDeps].
    by rewrite recompute_lookup, decide_False.
Qed.

(** The successful request: the task is written Completed and each of its
    dependents is recomputed, in the order of the dependency rows. *)
Lemma markAsCompleted_success db t u r :
  tasks db !! t = Some r → user_id r = Some u →
  Task.canCompleteTask t db = true →
  TaskController.markAsCompleted t u db
  = (mkResponse 200 (TaskBody (t, with_status Completed r)),
     Task.recompute_each (Store.dependents_of t db)
       (with_tasks (<[t := with_status Completed r]> (tasks db)) db)).
Proof.
  intros Hr Hu Hcan.
  unfold TaskController.markAsCompleted, TaskController.handle,
    Task.markAsCompleted, bind, query, exec, throw, ret.
  rewrite Hcan. simpl. rewrite update_status_completed.
  unfold Store.select_task. by rewrite Hr, decide_True.
Qed.

Lemma hasIncompleteDeps_false db t :
  (∀ d, (t, d) ∈ task_dependencies db → Task.incomplete db d = false) →
  Task.hasIncompleteDeps t db = false.
Proof.
  intros H. apply Bool.not_true_is_false.
  rewrite hasIncompleteDeps_true, has_incomplete_dependency_alt.
  intros (d & Hin & Hd). rewrite H in Hd; done.
Qed.


(** C8: with the dependencies a→b and b→c, a and b Blocked and no subtask
    under b or c, completing c and then b leaves a To Do; no request names
    a.  After the first request b is To Do and a is still Blocked. *)
Theorem cascade_unblocks_transitive db a b c u ra rb rc :
  a ≠ b → a ≠ c → b ≠ c →
  tasks db !! a = Some ra → tasks db !! b = Some rb →
  tasks db !! c = Some rc →
  user_id ra = Some u → user_id rb = Some u → user_id rc = Some u →
  (∀ d, (a, d) ∈ task_dependencies db ↔ d = b) →
  (∀ d, (b, d) ∈ task_dependencies db ↔ d = c) →
  status ra = Blocked → status rb = Blocked →
  (∀ s rs, tasks db !! s = Some rs →
           parent_task_id rs ≠ Some b ∧ parent_task_id rs ≠ Some c) →
  ∃ db1 db2,
    TaskController.markAsCompleted c u db
    = (mkResponse 200 (TaskBody (c, with_status Completed rc)), db1)
    ∧ tasks db1 !! a = Some ra
    ∧ tasks db1 !! b = Some (with_status ToDo rb)
    ∧ TaskController.markAsCompleted b u db1
      = (mkResponse 200 (TaskBody (b, with_status Completed rb)), db2)
    ∧ tasks db2 !! a = Some (with_status ToDo ra).
Proof.
  intros Hab Hac Hbc Ha Hb Hc Hua Hub Huc Hdepa Hdepb Hsa Hsb Hnosub.
  set (db0 := with_tasks (<[c := with_status Completed rc]> (tasks db)) db).
  set (db1 := Task.recompute_each (Store.dependents_of c db) db0).
  assert (task_dependencies db1 = task_dependencies db) as Hdeps1
    by (unfold db1; by rewrite recompute_each_dependencies).
  assert (tasks db1 !! a = Some ra) as Ha1.
  { unfold db1. rewrite recompute_each_other.
    - simpl. by rewrite lookup_insert_ne.
    - rewrite elem_of_dependents_of, Hdepa. congruence. }
  assert (tasks db1 !! b = Some (with_status ToDo rb)) as Hb1.
  { apply recompute_each_unblocks; [| |done|].
    - by rewrite elem_of_dependents_of, Hdepb.
    - simpl. by rewrite lookup_insert_ne.
    - apply hasIncompleteDeps_false. intros d ->%Hdepb.
      unfold Task.incomplete. simpl. by rewrite lookup_insert_eq. }
  assert (Task.canCompleteTask b db1 = true) as Hcan1.
  { apply canCompleteTask_true. intros s rs Hrs Hp.
    apply recompute_each_row in Hrs as (r0 & Hr0 & _ & Hp0 & _).
    simpl in Hr0. rewrite Hp in Hp0.
    destruct (decide (s = c)) as [->|Hne].
    - rewrite lookup_insert_eq in Hr0. injection Hr0 as <-. simpl in Hp0.
      by destruct (Hnosub c rc Hc).
    - rewrite lookup_insert_ne in Hr0 by done.
      by destruct (Hnosub s r0 Hr0). }
  set (db1' := with_tasks
                 (<[b := with_status Completed (with_status ToDo rb)]>
                    (tasks db1)) db1).
  exists db1, (Task.recompute_each (Store.dependents_of b db1) db1').
  split; [|split; [done|split; [done|split]]].
  - apply markAsCompleted_success; [done..|].
    apply canCompleteTask_true. intros s rs Hrs Hp.
    by destruct (Hnosub s rs Hrs).
  - by rewrite (markAsCompleted_success db1 b u (with_status ToDo rb)).
  - apply recompute_each_unblocks; [| |done|].
    + by rewrite elem_of_dependents_of, Hdeps1, Hdepa.
    + simpl. by rewrite lookup_insert_ne.
    + apply hasIncompleteDeps_false. simpl. rewrite Hdeps1.
      intros d ->%Hdepa. unfold Task.incomplete. simpl.
      by rewrite lookup_insert_eq.
Qed.

(** ** Removing a dependency that is not there *)

Lemma filter_absent (l : list (Z * Z)) e :
  e ∉ l → filter (λ e', e' ≠ e) l = l.
Proof.
  induction l as [|x l IH]; intros Hin; [done|].
  rewrite filter_cons_True by set_solver. f_equal. apply IH. set_solver.
Qed.

Lemma with_dependencies_id db : with_dependencies (task_dependencies db) db = db.
Proof. by destruct db. Qed.

(** C9, as the code has it: when the edge does not exist, the request of a
    task of the caller, for a [dependsOnTaskId] that the id column can hold,
    answers 404 "Dependency not found" after it has recomputed the status of
    that task, as a successful removal does.  The recomputation writes
    nothing but the status of the task ([updated_at] apart, which the
    trigger sets and the model leaves out). *)
Theorem removeDependency_missing_edge db t d u :
  int4 d →
  (t, d) ∉ task_dependencies db →
  is_Some (Store.select_task t u db) →
  TaskController.removeDependency t d u db
  = (mkResponse 404 (ErrorBody "Dependency not found"),
     Task.updateTaskStatusBasedOnDependencies t db)
  ∧ task_dependencies (Task.updateTaskStatusBasedOnDependencies t db)
    = task_dependencies db
  ∧ (∀ y, y ≠ t →
       tasks (Task.updateTaskStatusBasedOnDependencies t db) !! y
       = tasks db !! y)
  ∧ (∀ r, tasks db !! t = Some r →
       tasks (Task.updateTaskStatusBasedOnDependencies t db) !! t
       = Some (with_status (recomputed_status (Task.hasIncompleteDeps t db)
                              (status r)) r)).
Proof.
  intros _ Hno [r0 Hsel].
  unfold TaskController.removeDependency, TaskController.handle,
    Task.removeDependency, Store.delete_dependency, TaskController.reply,
    bind, query, exec, throw, ret.
  split; [|split; [|split]].
  - rewrite Hsel. simpl.
    rewrite bool_decide_eq_false_2 by done.
    by rewrite filter_absent, with_dependencies_id.
  - apply recompute_dependencies.
  - intros y Hy. by rewrite recompute_lookup, decide_False.
  - intros r Hr. by rewrite recompute_lookup, decide_True, Hr.
Qed.

(** ** A dependency of a task on itself *)

Lemma taskCheck_same t u db :
  Task.taskCheck t t u db
  = if Store.select_task t u db is Some _ then 1%nat else 0%nat.
Proof.
  unfold Task.taskCheck, Store.select_task.
  destruct (tasks db !! t) as [r|] eqn:Hr;
    [destruct (decide (user_id r = Some u)) as [Hu|Hu]|].
  - replace (filter _ (tasks db)) with ({[t := r]} : gmap Z TaskRow);
      [apply map_size_singleton|].
    apply map_eq. intros i. apply option_eq. intros x.
    rewrite map_lookup_filter_Some, lookup_singleton_Some. simpl.
    naive_solver.
  - replace (filter _ (tasks db)) with (∅ : gmap Z TaskRow);
      [apply map_size_empty|].
    symmetry. apply map_empty. intros i.
    apply map_lookup_filter_None. right. simpl. naive_solver.
  - replace (filter _ (tasks db)) with (∅ : gmap Z TaskRow);
      [apply map_size_empty|].
    symmetry. apply map_empty. intros i.
    apply map_lookup_filter_None. right. simpl. naive_solver.
Qed.

Lemma taskCheck_two t d u db rt rd :
  t ≠ d → tasks db !! t = Some rt → user_id rt = Some u →
  tasks db !! d = Some rd → user_id rd = Some u →
  Task.taskCheck t d u db = 2%nat.
Proof.
  intros Hne Ht Hut Hd Hud. unfold Task.taskCheck.
  replace (filter _ (tasks db)) with (<[t := rt]> {[d := rd]} : gmap Z TaskRow).
  - rewrite map_size_insert_None by (by rewrite lookup_singleton_ne).
    by rewrite map_size_singleton.
  - apply map_eq. intros i. apply option_eq. intros x.
    rewrite map_lookup_filter_Some, lookup_insert_Some, lookup_singleton_Some.
    simpl. naive_solver.
Qed.

(** On an acyclic graph every new dependency between two distinct tasks of
    the caller is accepted, whether or not it closes a cycle: the one edge is
    added and the task is recomputed. *)
Lemma addDependency_accepted db t d u rt rd :
  acyclic (task_dependencies db) →
  t ≠ d → tasks db !! t = Some rt → user_id rt = Some u →
  tasks db !! d = Some rd → user_id rd = Some u →
  (t, d) ∉ task_dependencies db →
  TaskController.addDependency t d u db
  = (mkResponse 201 (DependencyBody (t, d)),
     Task.updateTaskStatusBasedOnDependencies t
       (with_dependencies (task_dependencies db ++ [(t, d)]) db)).
Proof.
  intros Hacyclic Hne Ht Hut Hd Hud Hnew.
  unfold TaskController.addDependency, TaskController.handle, Task.findById,
    Task.addDependency, Store.insert_dependency, Store.select_task,
    TaskController.reply, bind, try_catch, query, exec, throw, ret.
  rewrite Ht, decide_True by done. cbn beta iota.
  rewrite (taskCheck_two t d u db rt rd) by done.
  rewrite (bool_decide_eq_false_2 (2 ≠ 2)%nat) by (by intros []).
  cbn beta iota.
  rewrite checkCircularDependency_acyclic by done. cbn beta iota.
  rewrite Ht, Hd. simpl.
  by rewrite bool_decide_eq_false_2.
Qed.

(** C7, as the code has it: a request to make a task depend on itself,
    for an id that the id column can hold, is always refused before any
    search and writes nothing, and the answer is 404 "Task not found": the
    ownership query finds one row where two are required. *)
Theorem addDependency_self_rejected db t u :
  int4 t →
  TaskController.addDependency t t u db
  = (mkResponse 404 (ErrorBody "Task not found"), db).
Proof.
  intros _. unfold TaskController.addDependency, TaskController.handle, Task.findById,
    Task.addDependency, TaskController.reply, bind, query, throw, ret.
  destruct (Store.select_task t u db) eqn:Hsel; cbn beta iota; [|done].
  by rewrite taskCheck_same, Hsel.
Qed.

(** ** The update of a task *)

Lemma set_clause_elem_of updateData key v :
  (key, v) ∈ Task.set_clause updateData ↔ (key, Some v) ∈ updateData.
Proof.
  induction updateData as [|[k [w|]] rest IH]; simpl.
  - by rewrite !elem_of_nil.
  - rewrite !elem_of_cons, IH. naive_solver.
  - rewrite elem_of_cons, IH. naive_solver.
Qed.

Lemma status_text_of_text s st :
  status_of_text s = Some st → status_text st = s.
Proof.
  unfold status_of_text.
  destruct (String.eqb_spec s "To Do"); [intros [= <-]; by subst|].
  destruct (String.eqb_spec s "In Progress"); [intros [= <-]; by subst|].
  destruct (String.eqb_spec s "Completed"); [intros [= <-]; by subst|].
  destruct (String.eqb_spec s "Blocked"); [intros [= <-]; by subst|].
  done.
Qed.

Lemma priority_text_of_text s p :
  priority_of_text s = Some p → priority_text p = s.
Proof.
  unfold priority_of_text.
  destruct (String.eqb_spec s "Low"); [intros [= <-]; by subst|].
  destruct (String.eqb_spec s "Medium"); [intros [= <-]; by subst|].
  destruct (String.eqb_spec s "High"); [intros [= <-]; by subst|].
  done.
Qed.

Ltac split_column c :=
  repeat match goal with
         | |- context [String.eqb c ?s] =>
             destruct (String.eqb_spec c s) as [->|?]
         end.

(** One admissible assignment succeeds, sets its column to its value and
    leaves the other columns as they were. *)
Lemma assign_column db t k v r :
  admissible db t k v →
  ∃ r1, Store.assign k v (t, r) = inr (t, r1)
        ∧ column k r1 = Some v
        ∧ (∀ c, c ≠ k → column c r1 = column c r).
Proof.
  intros Hadm.
  destruct Hadm
    as [|u Hu|s Hs Hlen| |s Hs| |p Hp| |s Hs|s p Hp|s st Hst Hne]; simpl.
  - eexists. split; [done|]. split; [done|].
    intros c Hc. unfold column. split_column c; done.
  - eexists. split; [done|]. split; [done|].
    intros c Hc. unfold column. split_column c; done.
  - apply Nat.leb_le in Hlen. rewrite Hlen.
    eexists. split; [done|]. split; [done|].
    intros c Hc. unfold column. split_column c; done.
  - eexists. split; [done|]. split; [done|].
    intros c Hc. unfold column. split_column c; done.
  - eexists. split; [done|]. split; [done|].
    intros c Hc. unfold column. split_column c; done.
  - eexists. split; [done|]. split; [done|].
    intros c Hc. unfold column. split_column c; done.
  - eexists. split; [done|]. split; [done|].
    intros c Hc. unfold column. split_column c; done.
  - eexists. split; [done|]. split; [done|].
    intros c Hc. unfold column. split_column c; done.
  - eexists. split; [done|]. split; [done|].
    intros c Hc. unfold column. split_column c; done.
  - rewrite Hp. eexists. split; [done|].
    split; [unfold column; simpl; by rewrite (priority_text_of_text s p)|].
    intros c Hc. unfold column. split_column c; done.
  - rewrite Hst. eexists. split; [done|].
    split; [unfold column; simpl; by rewrite (status_text_of_text s st)|].
    intros c Hc. unfold column. split_column c; done.
Qed.

Lemma admissible_column db t k v : admissible db t k v → k ∈ Store.columns.
Proof. intros []; unfold Store.columns; set_solver. Qed.

Lemma admissible_not_updated_at db t k v :
  admissible db t k v → k ≠ "updated_at"%string.
Proof. by intros []. Qed.

Lemma assign_all_columns db t sets r :
  NoDup sets.*1 → (∀ k v, (k, v) ∈ sets → admissible db t k v) →
  ∃ r', Store.assign_all sets (t, r) = inr (t, r')
        ∧ (∀ k v, (k, v) ∈ sets → column k r' = Some v)
        ∧ (∀ c, c ∉ sets.*1 → column c r' = column c r).
Proof.
  revert r. induction sets as [|[k v] sets IH]; intros r Hnd Hadm.
  - exists r. split; [done|]. split; [|done]. by intros k v ?%elem_of_nil.
  - rewrite fmap_cons in Hnd. apply NoDup_cons in Hnd as [Hk Hnd].
    destruct (assign_column db t k v r) as (r1 & Hr1 & Hset & Hkeep);
      [apply Hadm; by left|].
    destruct (IH r1 Hnd) as (r' & Hr' & Hsets & Hkeeps);
      [intros k' v' Hin; apply Hadm; by right|].
    exists r'. cbn [Store.assign_all]. rewrite Hr1. split; [done|]. split.
    + intros k' v' [[= -> ->]|Hin]%elem_of_cons; [|by apply Hsets].
      by rewrite (Hkeeps k Hk).
    + intros c Hc. rewrite fmap_cons in Hc. apply not_elem_of_cons in Hc as [Hck Hc].
      rewrite (Hkeeps c Hc). by apply Hkeep.
Qed.

Lemma set_clause_keys updateData :
  (Task.set_clause updateData).*1 `sublist_of` updateData.*1.
Proof.
  induction updateData as [|[k [w|]] rest IH]; simpl; [done| |].
  - by apply sublist_skip.
  - by apply sublist_cons.
Qed.

Lemma column_user_id r r' :
  column "user_id" r' = column "user_id" r → user_id r' = user_id r.
Proof.
  unfold column. simpl. intros [= Heq].
  by destruct (user_id r'), (user_id r); simplify_eq.
Qed.

Lemma column_parent_task_id r r' :
  column "parent_task_id" r' = column "parent_task_id" r →
  parent_task_id r' = parent_task_id r.
Proof.
  unfold column. simpl. intros [= Heq].
  by destruct (parent_task_id r'), (parent_task_id r); simplify_eq.
Qed.

(** The foreign keys of the row that admissible assignments leave. *)
Lemma admissible_references_kept db t sets r r' :
  (∀ k v, (k, v) ∈ sets → admissible db t k v) →
  (∀ k v, (k, v) ∈ sets → column k r' = Some v) →
  (∀ c, c ∉ sets.*1 → column c r' = column c r) →
  Store.references_kept (base.delete t (tasks db)) db t r r' = true.
Proof.
  intros Hadm Hsets Hkeep. unfold Store.references_kept.
  apply andb_true_iff. split.
  - destruct (decide ("user_id"%string ∈ sets.*1)) as [Hin|Hout].
    + apply list_elem_of_fmap in Hin as ([k v] & Hk & Hin). simpl in Hk.
      subst k. pose proof (Hsets _ _ Hin) as Hcol.
      pose proof (Hadm _ _ Hin) as Ha. unfold column in Hcol. simpl in Hcol.
      inversion Ha as [Hv|u Hu Hv| | | | | | | | |]; subst v.
      * destruct (user_id r'); [done|]. apply orb_true_r.
      * destruct (user_id r') as [u'|]; [|done]. simpl in Hcol.
        injection Hcol as ->. rewrite (bool_decide_eq_true_2 _ Hu).
        apply orb_true_r.
    + rewrite (column_user_id r r') by by apply Hkeep.
      by rewrite bool_decide_eq_true_2.
  - destruct (decide ("parent_task_id"%string ∈ sets.*1)) as [Hin|Hout].
    + apply list_elem_of_fmap in Hin as ([k v] & Hk & Hin). simpl in Hk.
      subst k. pose proof (Hsets _ _ Hin) as Hcol.
      pose proof (Hadm _ _ Hin) as Ha. unfold column in Hcol. simpl in Hcol.
      inversion Ha as [| | | | |Hv|p Hp Hv| | | |]; subst v.
      * destruct (parent_task_id r'); [done|]. apply orb_true_r.
      * destruct (parent_task_id r') as [p'|]; [|done]. simpl in Hcol.
        injection Hcol as ->.
        destruct (decide (p = t)) as [->|Hne].
        -- rewrite (bool_decide_eq_true_2 (t = t)) by done.
           simpl. apply orb_true_r.
        -- destruct Hp as [?|Hp]; [done|].
           rewrite lookup_delete_ne by done.
           rewrite (bool_decide_eq_true_2 _ Hp). by rewrite !orb_true_r.
    + rewrite (column_parent_task_id r r') by by apply Hkeep.
      by rewrite bool_decide_eq_true_2.
Qed.

(** What [Task.update] does with a field map of admissible assignments. *)
Lemma update_admissible db t u r updateData :
  Store.select_task t u db = Some r →
  NoDup updateData.*1 →
  (∃ k v, (k, Some v) ∈ updateData) →
  (∀ k v, (k, Some v) ∈ updateData → admissible db t k v) →
  ∃ r',
    Task.update t u updateData db
    = (Returned (Some (t, r')), with_tasks (<[t := r']> (tasks db)) db)
    ∧ (∀ k v, (k, Some v) ∈ updateData → column k r' = Some v)
    ∧ (∀ c, (∀ v, (c, Some v) ∉ updateData) → column c r' = column c r).
Proof.
  intros Hsel Hnd (k0 & v0 & Hin0) Hadm.
  set (sets := Task.set_clause updateData).
  assert (∀ k v, (k, v) ∈ sets → admissible db t k v) as Hadm'.
  { intros k v Hin. apply Hadm. by apply set_clause_elem_of. }
  assert (NoDup sets.*1) as Hnd'.
  { eapply sublist_NoDup; [exact Hnd|apply set_clause_keys]. }
  destruct (assign_all_columns db t sets r Hnd' Hadm')
    as (r' & Hr' & Hsets & Hkeep).
  exists r'. split; [|split].
  - unfold Task.update. fold sets.
    rewrite bool_decide_eq_false_2.
    2: { intros Hlen. apply nil_length_inv in Hlen.
         apply set_clause_elem_of in Hin0. fold sets in Hin0.
         rewrite Hlen in Hin0. by apply elem_of_nil in Hin0. }
    unfold Store.update_task.
    rewrite bool_decide_eq_false_2.
    2: { intros ([k v] & Hk & Hin)%list_elem_of_fmap. simpl in Hk. subst k.
         by apply Hadm', admissible_not_updated_at in Hin. }
    assert (forallb (λ c, bool_decide (c ∈ Store.columns)) sets.*1 = true)
      as ->.
    { apply forallb_forall. intros c Hc. apply bool_decide_eq_true_2.
      apply list_elem_of_In, list_elem_of_fmap in Hc as ([k v] & -> & Hin).
      by apply Hadm', admissible_column in Hin. }
    simpl. rewrite Hsel, Hr'.
    rewrite (admissible_references_kept db t sets r r') by done.
    simpl. by rewrite bool_decide_eq_true_2.
  - intros k v Hin. apply Hsets. by apply set_clause_elem_of.
  - intros c Hc. apply Hkeep.
    intros ([k v] & Hk & Hin)%list_elem_of_fmap. simpl in Hk. subst k.
    apply (Hc v). by apply set_clause_elem_of.
Qed.

(** C10, as the code has it: for every field map whose defined keys are
    columns of the task with values that the table accepts, the update is
    answered 200, sets each of these columns to the value of its key and
    leaves every other column as it was ([updated_at] apart, which the
    statement sets and the model leaves out).  The keys are those of a
    JavaScript object, so no key comes twice.  [parent_task_id] and
    [user_id] are among these columns: the parent can be any existing task,
    whatever its parent or its owner, and the owner any existing user. *)
Theorem update_applies_every_defined_key db t u r updateData :
  Store.select_task t u db = Some r →
  NoDup updateData.*1 →
  (∃ k v, (k, Some v) ∈ updateData) →
  (∀ k v, (k, Some v) ∈ updateData → admissible db t k v) →
  ∃ r',
    TaskController.updateTask t u updateData db
    = (mkResponse 200 (TaskBody (t, r')),
       with_tasks (<[t := r']> (tasks db)) db)
    ∧ (∀ k v, (k, Some v) ∈ updateData → column k r' = Some v)
    ∧ (∀ c, (∀ v, (c, Some v) ∉ updateData) → column c r' = column c r).
Proof.
  intros Hsel Hnd Hsome Hadm.
  destruct (update_admissible db t u r updateData Hsel Hnd Hsome Hadm)
    as (r' & Hupd & Hsets & Hkeep).
  exists r'. split; [|done].
  unfold TaskController.updateTask, TaskController.handle, Task.findById,
    TaskController.reply, bind, query, exec, throw, ret.
  rewrite Hsel.
  assert (bool_decide (TaskController.field "status" updateData
                       = Some (VText "Completed")) = false) as ->.
  { apply bool_decide_eq_false_2. unfold TaskController.field.
    destruct (list_find _ updateData) as [[i [k v]]|] eqn:Hfind; [|done].
    apply list_find_Some in Hfind as (Hi & Hk & _). simpl in Hk. subst k.
    intros ->. apply list_elem_of_lookup_2 in Hi.
    pose proof (Hadm _ _ Hi) as Ha.
    inversion Ha as [| | | | | | | | | |s st Hst Hne]; subst.
    by vm_compute in Hst; simplify_eq. }
  simpl. by rewrite Hupd.
Qed.

(** Each of these stores is what the requests of user 1 leave. *)
Lemma three_tasks_db_reachable :
  three_tasks_db = new_task None (new_task None (new_task None empty_db)).
Proof. reflexivity. Qed.

Lemma chain_db_reachable :
  chain_db
  = (TaskController.addDependency 2 3 1
       (TaskController.addDependency 1 2 1 three_tasks_db).2).2.
Proof. reflexivity. Qed.

Lemma family_db_reachable :
  family_db
  = new_task None
      (TaskController.createSubtask 1 1 "t" None None None
         (new_task None empty_db)).2.
Proof. reflexivity. Qed.

Lemma blocked_pair_db_reachable :
  blocked_pair_db
  = (TaskController.addDependency 1 2 1
       (new_task None (new_task None empty_db))).2.
Proof. reflexivity. Qed.

Lemma blocked_alone_db_reachable :
  blocked_alone_db = new_task (Some Blocked) empty_db.
Proof. reflexivity. Qed.

(** ** The cycle check on a chain *)

Lemma acyclic_nil : acyclic [].
Proof. intros x Hp. inversion Hp; subst; by eapply elem_of_nil. Qed.

(** C1: with the dependencies 1→2 and 2→3, the edge 3→1 would close a
    cycle, and the check for the pair (3, 1) answers false: the probe
    reports that the dependency can be added.  It answers false for the
    pair (1, 1) as well. *)
Theorem checkCircularDependency_misses_cycle :
  wouldCreateCycle (task_dependencies chain_db) 3 1
  ∧ Task.checkCircularDependency_run 3 1 chain_db = Some false
  ∧ TaskController.validateDependencies 3 1 chain_db
    = (mkResponse 200 (ValidationBody false true), chain_db)
  ∧ wouldCreateCycle (task_dependencies chain_db) 1 1
  ∧ Task.checkCircularDependency_run 1 1 chain_db = Some false.
Proof.
  split; [|split; [|split; [|split]]].
  - right. apply (path_step _ 1 2 3); [set_solver|].
    apply path_edge. set_solver.
  - by vm_compute.
  - by vm_compute.
  - by left.
  - by vm_compute.
Qed.

(** C2: from three tasks with no dependency, the requests 1→2, 2→3 and
    3→1 are all accepted, and the third closes the cycle 1→2→3→1. *)
Theorem addDependency_closes_cycle :
  let r1 := TaskController.addDependency 1 2 1 three_tasks_db in
  let r2 := TaskController.addDependency 2 3 1 r1.2 in
  let r3 := TaskController.addDependency 3 1 1 r2.2 in
  acyclic (task_dependencies three_tasks_db)
  ∧ r1.1 = mkResponse 201 (DependencyBody (1, 2))
  ∧ r2.1 = mkResponse 201 (DependencyBody (2, 3))
  ∧ wouldCreateCycle (task_dependencies r2.2) 3 1
  ∧ r3.1 = mkResponse 201 (DependencyBody (3, 1))
  ∧ task_dependencies r3.2 = [(1, 2); (2, 3); (3, 1)]
  ∧ ¬ acyclic (task_dependencies r3.2).
Proof.
  assert (task_dependencies
            (TaskController.addDependency 3 1 1
               (TaskController.addDependency 2 3 1
                  (TaskController.addDependency 1 2 1 three_tasks_db).2).2).2
          = [(1, 2); (2, 3); (3, 1)]) as Hdeps by (by vm_compute).
  cbv zeta. split; [apply acyclic_nil|].
  split; [by vm_compute|]. split; [by vm_compute|].
  split.
  { rewrite <- chain_db_reachable. right.
    apply (path_step _ 1 2 3); [set_solver|]. apply path_edge. set_solver. }
  split; [by vm_compute|]. split; [done|].
  rewrite Hdeps. intros Hacyclic. apply (Hacyclic 1).
  apply (path_step _ 1 2 1); [set_solver|].
  apply (path_step _ 2 3 1); [set_solver|].
  apply path_edge. set_solver.
Qed.

(** ** The statuses after each request *)

Lemma filter_all {A} (P : A → Prop) `{!∀ x, Decision (P x)} (l : list A) :
  (∀ x, x ∈ l → P x) → filter P l = l.
Proof.
  induction l as [|x l IH]; intros Hall; [done|].
  rewrite filter_cons_True by (apply Hall; by left).
  f_equal. apply IH. intros y Hy. apply Hall. by right.
Qed.

(** The update with the body [{status: 'Completed'}] and the completion
    request, on a task of the caller all of whose dependents are the
    caller's. *)
Lemma updateTask_completed db t u :
  is_Some (Store.select_task t u db) →
  (∀ x, (x, t) ∈ task_dependencies db → is_Some (Store.select_task x u db)) →
  TaskController.updateTask t u [("status", Some (VText "Completed"))] db
  = TaskController.markAsCompleted t u db.
Proof.
  intros [r Hsel] Hown.
  assert (tasks db !! t = Some r ∧ user_id r = Some u) as [Ht Hu].
  { unfold Store.select_task in Hsel. destruct (tasks db !! t); [|done].
    case_decide; by simplify_eq. }
  unfold TaskController.updateTask, TaskController.handle, Task.findById,
    TaskController.reply, bind, query, exec, throw, ret.
  rewrite Hsel. simpl.
  destruct (Task.canCompleteTask t db) eqn:Hcan; simpl.
  - rewrite update_status_completed, Hsel.
    rewrite (markAsCompleted_success db t u r) by done.
    set (db1 := with_tasks (<[t := with_status Completed r]> (tasks db)) db).
    assert (Task.getDependents t u db1 = Store.dependents_of t db) as ->;
      [|done].
    unfold Task.getDependents.
    change (Store.dependents_of t db1) with (Store.dependents_of t db).
    apply filter_all. intros x Hx%elem_of_dependents_of.
    unfold Store.select_task, db1. simpl.
    destruct (decide (x = t)) as [->|Hne].
    + rewrite lookup_insert_eq. simpl. by rewrite decide_True.
    + rewrite lookup_insert_ne by done. by apply Hown.
  - unfold TaskController.markAsCompleted, TaskController.handle,
      Task.markAsCompleted, bind, query, exec, throw, ret.
    by rewrite Hcan.
Qed.


(** ** Counterexamples and instances *)



(** ** Deleting a task *)

(** A delete writes no row that it keeps. *)
Lemma deleteTask_keeps_rows db t u y r :
  tasks (TaskController.deleteTask t u db).2 !! y = Some r →
  tasks db !! y = Some r.
Proof.
  unfold TaskController.deleteTask, TaskController.handle, Task.delete,
    Store.delete_task, TaskController.reply, bind, ret.
  destruct (Store.select_task t u db); simpl; [|done].
  by intros [? _]%map_lookup_filter_Some.
Qed.

Lemma cascade_step_mono m (D : gset Z) : D ⊆ Store.cascade_step m D.
Proof. unfold Store.cascade_step. set_solver. Qed.

Lemma cascade_iter_contains m (n : nat) id :
  id ∈ Nat.iter n (Store.cascade_step m) {[id]}.
Proof.
  induction n as [|n IH]; simpl; [set_solver|].
  by apply cascade_step_mono.
Qed.

Lemma cascade_contains_children m id r s rs :
  m !! id = Some r → m !! s = Some rs → parent_task_id rs = Some id →
  s ∈ Store.cascade m id.
Proof.
  intros Hid Hs Hp. unfold Store.cascade.
  destruct (size m) as [|n] eqn:Hsize.
  { apply map_size_empty_iff in Hsize. by rewrite Hsize in Hid. }
  simpl. unfold Store.cascade_step at 1.
  apply elem_of_union_r, elem_of_dom. exists rs.
  apply map_lookup_filter_Some. split; [done|]. simpl.
  unfold Store.is_child_of. rewrite Hp.
  apply bool_decide_pack, cascade_iter_contains.
Qed.

(** What a delete removes: the task, its subtasks, and every dependency with
    an end among the removed tasks. *)
Lemma deleteTask_cascades db t u r :
  Store.select_task t u db = Some r →
  tasks (TaskController.deleteTask t u db).2 !! t = None
  ∧ (∀ s rs, tasks db !! s = Some rs → parent_task_id rs = Some t →
             tasks (TaskController.deleteTask t u db).2 !! s = None)
  ∧ (∀ a b, (a, b) ∈ task_dependencies (TaskController.deleteTask t u db).2 →
       (a, b) ∈ task_dependencies db
       ∧ tasks (TaskController.deleteTask t u db).2 !! a = tasks db !! a
       ∧ tasks (TaskController.deleteTask t u db).2 !! b = tasks db !! b).
Proof.
  intros Hsel.
  unfold TaskController.deleteTask, TaskController.handle, Task.delete,
    Store.delete_task, TaskController.reply, bind, ret.
  rewrite Hsel. simpl.
  assert (tasks db !! t = Some r) as Ht.
  { unfold Store.select_task in Hsel. destruct (tasks db !! t); [|done].
    by case_decide; simplify_eq. }
  assert (∀ x, x ∉ Store.cascade (tasks db) t →
            filter (λ kv : Z * TaskRow, kv.1 ∉ Store.cascade (tasks db) t)
              (tasks db) !! x = tasks db !! x) as Hkeep.
  { intros x Hx. apply option_eq. intros rx.
    rewrite map_lookup_filter_Some. naive_solver. }
  split; [|split].
  - apply map_lookup_filter_None. right. intros x _ Hx. simpl in Hx.
    apply Hx, cascade_iter_contains.
  - intros s rs Hs Hp. apply map_lookup_filter_None. right.
    intros x _ Hx. simpl in Hx. apply Hx.
    by eapply cascade_contains_children.
  - intros a b [[Ha Hb] Hin]%list_elem_of_filter. simpl in *.
    split; [done|]. split; by apply Hkeep.
Qed.

(** C4: deleting task 2, the only dependency of the Blocked task 1, removes
    the task and the edge, and task 1 is still Blocked afterwards; the
    recomputation, had it run, would have made it To Do. *)
Theorem deleteTask_leaves_dependent_blocked :
  let r := TaskController.deleteTask 2 1 blocked_pair_db in
  r.1 = mkResponse 200 (TaskBody (2, row None ToDo))
  ∧ tasks r.2 !! 2 = None
  ∧ task_dependencies r.2 = []
  ∧ tasks r.2 !! 1 = Some (row None Blocked)
  ∧ tasks (Task.updateTaskStatusBasedOnDependencies 1 r.2) !! 1
    = Some (row None ToDo).
Proof. cbv zeta. repeat split; by vm_compute. Qed.

(** ** Reparenting by update *)

Lemma createTask_nested_parent_rejected db u p rp g title description
    dueDate priority status :
  p ≠ 0 → Store.select_task p u db = Some rp →
  parent_task_id rp = Some g → g ≠ 0 →
  TaskController.createTask u title description (Some p) dueDate priority
    status db
  = (mkResponse 400 (ErrorBody "Invalid parent task"), db).
Proof.
  intros Hp Hsel Hg Hg0.
  unfold TaskController.createTask, TaskController.handle, Task.findById,
    TaskController.reply, TaskController.truthy, bind, query, ret.
  rewrite bool_decide_eq_true_2 by done. simpl. rewrite Hsel, Hg.
  by rewrite bool_decide_eq_true_2.
Qed.

Lemma createSubtask_nested_parent_rejected db u p rp g title description
    dueDate priority :
  Store.select_task p u db = Some rp →
  parent_task_id rp = Some g → g ≠ 0 →
  TaskController.createSubtask p u title description dueDate priority db
  = (mkResponse 400 (ErrorBody "Invalid parent task"), db).
Proof.
  intros Hsel Hg Hg0.
  unfold TaskController.createSubtask, TaskController.handle, Task.findById,
    TaskController.reply, TaskController.truthy, bind, query, ret.
  rewrite Hsel, Hg. by rewrite bool_decide_eq_true_2.
Qed.

(** C5: task 2 is a subtask of task 1; the update of task 3 with
    [parent_task_id] 2 is accepted and puts task 3 two levels deep. *)
Theorem updateTask_nests_two_levels :
  let r := TaskController.updateTask 3 1
             [("parent_task_id", Some (VInt 2))] family_db in
  single_level family_db
  ∧ r.1 = mkResponse 200 (TaskBody (3, row (Some 2) ToDo))
  ∧ tasks r.2 !! 3 = Some (row (Some 2) ToDo)
  ∧ tasks r.2 !! 2 = Some (row (Some 1) ToDo)
  ∧ ¬ single_level r.2.
Proof.
  cbv zeta. split; [apply (bool_decide_unpack _); by vm_compute|].
  split; [by vm_compute|]. split; [by vm_compute|]. split; [by vm_compute|].
  apply (bool_decide_unpack _). by vm_compute.
Qed.


(** Counterexample to C7: the request of task 1 on itself is answered as a
    task that was not found, not as a self-dependency. *)
Lemma addDependency_self_reported_not_found :
  (TaskController.addDependency 1 1 1 chain_db).1
  = mkResponse 404 (ErrorBody "Task not found")
  ∧ reported (TaskController.addDependency 1 1 1 chain_db).1 = Some NotFound
  ∧ reported (TaskController.addDependency 1 1 1 chain_db).1
    ≠ Some SelfDependency.
Proof. split; [by vm_compute|]. split; [by vm_compute|]. by vm_compute. Qed.

Lemma addDependency_self_rejected_witness :
  TaskController.addDependency 1 1 1 chain_db
  = (mkResponse 404 (ErrorBody "Task not found"), chain_db).
Proof.
  apply (addDependency_self_rejected chain_db 1 1). unfold int4. lia.
Defined.

Lemma cascade_unblocks_transitive_witness :
  ∃ db1 db2,
    TaskController.markAsCompleted 3 1 chain_db
    = (mkResponse 200 (TaskBody (3, row None Completed)), db1)
    ∧ tasks db1 !! 1 = Some (row None Blocked)
    ∧ tasks db1 !! 2 = Some (row None ToDo)
    ∧ TaskController.markAsCompleted 2 1 db1
      = (mkResponse 200 (TaskBody (2, row None Completed)), db2)
    ∧ tasks db2 !! 1 = Some (row None ToDo).
Proof.
  apply (cascade_unblocks_transitive chain_db 1 2 3 1
           (row None Blocked) (row None Blocked) (row None ToDo));
    try reflexivity; try discriminate.
  - intros d. unfold chain_db. simpl.
    rewrite !elem_of_cons, elem_of_nil. naive_solver.
  - intros d. unfold chain_db. simpl.
    rewrite !elem_of_cons, elem_of_nil. naive_solver.
  - apply (bool_decide_unpack
             (map_Forall (λ _ rs, parent_task_id rs ≠ Some 2
                                  ∧ parent_task_id rs ≠ Some 3)
                         (tasks chain_db))).
    by vm_compute.
Defined.

(** Counterexample to C9: task 1 was created Blocked and has no dependency;
    the removal of the dependency 1→2, which does not exist, answers 404 and
    has written To Do to task 1.  On a task that is not the caller's the
    answer is 500. *)
Lemma removeDependency_writes_status_on_failure :
  ((1, 2) ∉ task_dependencies blocked_alone_db)
  ∧ (TaskController.removeDependency 1 2 1 blocked_alone_db).1
    = mkResponse 404 (ErrorBody "Dependency not found")
  ∧ tasks blocked_alone_db !! 1 = Some (row None Blocked)
  ∧ tasks (TaskController.removeDependency 1 2 1 blocked_alone_db).2 !! 1
    = Some (row None ToDo)
  ∧ (TaskController.removeDependency 1 2 1 blocked_alone_db).2
    ≠ blocked_alone_db
  ∧ (TaskController.removeDependency 9 2 1 blocked_alone_db).1
    = mkResponse 500 (ErrorBody "Failed to remove dependency").
Proof.
  split; [apply not_elem_of_nil|].
  split; [by vm_compute|]. split; [by vm_compute|]. split; [by vm_compute|].
  split; [|by vm_compute].
  intros Heq. apply (f_equal (λ db, status <$> tasks db !! 1)) in Heq.
  by vm_compute in Heq.
Qed.

Lemma removeDependency_missing_edge_witness :
  TaskController.removeDependency 1 2 1 blocked_alone_db
  = (mkResponse 404 (ErrorBody "Dependency not found"),
     Task.updateTaskStatusBasedOnDependencies 1 blocked_alone_db)
  ∧ tasks (Task.updateTaskStatusBasedOnDependencies 1 blocked_alone_db) !! 1
    = Some (row None ToDo).
Proof.
  destruct (removeDependency_missing_edge blocked_alone_db 1 2 1)
    as (Hown & _ & _ & Hrow);
    [unfold int4; lia|apply not_elem_of_nil|by eexists|].
  split; [exact Hown|]. by apply (Hrow (row None Blocked)).
Defined.

Lemma update_applies_every_defined_key_witness :
  ∃ r',
    TaskController.updateTask 3 1
      [("parent_task_id", Some (VInt 2)); ("title", None);
       ("priority", Some (VText "High"));
       ("due_date", Some (VText "2028-02-29"))] family_db
    = (mkResponse 200 (TaskBody (3, r')),
       with_tasks (<[3 := r']> (tasks family_db)) family_db)
    ∧ (∀ k v, (k, Some v) ∈ [("parent_task_id", Some (VInt 2));
                             ("title", None);
                             ("priority", Some (VText "High"));
                             ("due_date", Some (VText "2028-02-29"))] →
              column k r' = Some v)
    ∧ (∀ c, (∀ v, (c, Some v) ∉ [("parent_task_id", Some (VInt 2));
                                 ("title", None);
                                 ("priority", Some (VText "High"));
                                 ("due_date", Some (VText "2028-02-29"))]) →
            column c r' = column c (row None ToDo)).
Proof.
  apply (update_applies_every_defined_key family_db 3 1 (row None ToDo)).
  - reflexivity.
  - apply (bool_decide_unpack _). by vm_compute.
  - exists "parent_task_id"%string, (VInt 2). by left.
  - intros k v Hin. rewrite !elem_of_cons, elem_of_nil in Hin.
    destruct Hin as [[= -> ->]|[[=]|[[= -> ->]|[[= -> ->]|[]]]]].
    + apply adm_parent_task_id. right. by eexists.
    + by apply (adm_priority _ _ "High" High).
    + apply adm_due_date. by vm_compute.
Defined.

(** Counterexample to C10: [dueDate], the name under which the validator
    checks the date, is a defined key and no column.  The update is answered
    500 and sets nothing. *)
Lemma updateTask_key_not_a_column :
  TaskController.updateTask 3 1 [("dueDate", Some (VText "2030-01-01"))]
    family_db
  = (mkResponse 500 (ErrorBody "Failed to update task"), family_db).
Proof. by vm_compute. Qed.

(** * Further properties *)

(** ** What the cycle check computes *)

Lemma finished_ok_path deps F x y :
  finished_ok deps F → x ∈ F → path_in deps x y → y ∈ F.
Proof.
  intros [Hclosed _] Hx Hp. induction Hp as [a b Hab|a b c Hab Hp IH].
  - by eapply Hclosed.
  - apply IH. by eapply Hclosed.
Qed.

(** A call that answers false hands [path] back as it got it. *)
Lemma checkCircularDependency_rec_false_path db f (n : nat) :
  ∀ t visited path visited' path',
    Task.checkCircularDependency_rec n db f t visited path
    = Some (false, visited', path') →
    path' = path.
Proof.
  induction n as [|n IH]; intros t V P V' P'; [done|].
  rewrite checkCircularDependency_rec_unfold.
  destruct (decide (t ∈ P)) as [|Hnin]; [done|].
  destruct (decide (t ∈ V)); [by intros [= _ <-]|].
  generalize ({[t]} ∪ V).
  induction (Store.depends_on t db) as [|d rows IHrows]; intros V0; simpl.
  - intros [= _ <-]. set_solver.
  - destruct (Task.checkCircularDependency_rec n db f d V0 ({[t]} ∪ P))
      as [[[[] Va] Pa]|] eqn:Hcall; [done| |done].
    apply IH in Hcall as ->. apply IHrows.
Qed.

(** A call that answers true has met a cycle that is reached from the node
    of the first call. *)
Lemma checkCircularDependency_rec_true db f t0 (n : nat) :
  ∀ t visited path visited' path',
    (∀ p, p ∈ path → path_in (task_dependencies db) p t) →
    t = t0 ∨ path_in (task_dependencies db) t0 t →
    Task.checkCircularDependency_rec n db f t visited path
    = Some (true, visited', path') →
    cycle_reachable (task_dependencies db) t0.
Proof.
  induction n as [|n IH]; intros t V P V' P' Hpath Hreach; [done|].
  rewrite checkCircularDependency_rec_unfold.
  destruct (decide (t ∈ P)) as [Hin|Hnin].
  { intros _. exists t. split; [naive_solver|by apply Hpath]. }
  destruct (decide (t ∈ V)); [done|].
  assert (∀ d, d ∈ Store.depends_on t db →
               (t, d) ∈ task_dependencies db) as Hrows
    by (intros d; by rewrite elem_of_depends_on).
  revert Hrows. generalize ({[t]} ∪ V).
  induction (Store.depends_on t db) as [|d rows IHrows]; intros V0 Hrows;
    simpl; [done|].
  destruct (Task.checkCircularDependency_rec n db f d V0 ({[t]} ∪ P))
    as [[[[] Va] Pa]|] eqn:Hcall; [| |done].
  - intros _. eapply IH; [| |exact Hcall].
    + intros p [->%elem_of_singleton|Hp]%elem_of_union.
      * apply path_edge, Hrows. by left.
      * eapply path_in_snoc; [by apply Hpath|]. apply Hrows. by left.
    + right. destruct Hreach as [->|Hreach].
      * apply path_edge, Hrows. by left.
      * eapply path_in_snoc; [done|]. apply Hrows. by left.
  - pose proof (checkCircularDependency_rec_false_path _ _ _ _ _ _ _ _ Hcall)
      as ->.
    apply IHrows. intros d' Hd'. apply Hrows. by right.
Qed.

(** A call that answers false has left its node: the nodes visited and no
    longer on the path hold their targets and lie on no cycle. *)
Lemma checkCircularDependency_rec_false db f (n : nat) :
  ∀ t visited path visited' path',
    finished_ok (task_dependencies db) (visited ∖ path) →
    Task.checkCircularDependency_rec n db f t visited path
    = Some (false, visited', path') →
    visited ⊆ visited' ∧ t ∈ visited' ∖ path
    ∧ finished_ok (task_dependencies db) (visited' ∖ path).
Proof.
  induction n as [|n IH]; intros t V P V' P' Hok; [done|].
  rewrite checkCircularDependency_rec_unfold.
  destruct (decide (t ∈ P)) as [|Hnin]; [done|].
  destruct (decide (t ∈ V)) as [Hv|Hnv].
  { intros [= <- _]. split; [done|]. split; [set_solver|done]. }
  intros Hloop.
  assert (finished_ok (task_dependencies db)
            (({[t]} ∪ V) ∖ ({[t]} ∪ P))) as Hok1.
  { replace (({[t]} ∪ V) ∖ ({[t]} ∪ P)) with (V ∖ P) by set_solver. done. }
  assert ({[t]} ∪ V ⊆ V'
          ∧ finished_ok (task_dependencies db) (V' ∖ ({[t]} ∪ P))
          ∧ ∀ d, d ∈ Store.depends_on t db → d ∈ V' ∖ ({[t]} ∪ P))
    as (Hsub & Hok' & Hdeps).
  { revert Hloop Hok1. generalize ({[t]} ∪ V).
    induction (Store.depends_on t db) as [|d rows IHrows]; intros V0; simpl.
    - intros [= <- _] Hok1. split; [done|]. split; [done|].
      intros d Hd. by apply elem_of_nil in Hd.
    - destruct (Task.checkCircularDependency_rec n db f d V0 ({[t]} ∪ P))
        as [[[[] Va] Pa]|] eqn:Hcall; [done| |done].
      intros Hloop Hok1.
      pose proof (checkCircularDependency_rec_false_path _ _ _ _ _ _ _ _ Hcall)
        as ->.
      apply IH in Hcall as (Hsa & Hda & Hoka); [|done].
      destruct (IHrows Va Hloop Hoka) as (Hsb & Hokb & Hdb).
      split; [set_solver|]. split; [done|].
      intros d' [->|Hd']%elem_of_cons; [set_solver|by apply Hdb]. }
  split; [set_solver|]. split; [set_solver|].
  assert (t ∉ V' ∖ ({[t]} ∪ P)) as Htn by set_solver.
  split.
  - intros x d [Hx Hxp]%elem_of_difference Hxd.
    assert (d ∈ V' ∖ ({[t]} ∪ P)); [|set_solver].
    destruct (decide (x = t)) as [->|Hne].
    + by apply Hdeps, elem_of_depends_on.
    + destruct Hok' as [Hclosed _]. apply (Hclosed x); [set_solver|done].
  - intros x [Hx Hxp]%elem_of_difference Hcycle.
    destruct (decide (x = t)) as [->|Hne].
    + apply Htn. inversion Hcycle as [a b Hab|a b c Hab Hbc]; subst.
      * by apply Hdeps, elem_of_depends_on.
      * eapply finished_ok_path; [done| |done].
        by apply Hdeps, elem_of_depends_on.
    + destruct Hok' as [_ Hacyc]. apply (Hacyc x); [set_solver|done].
Qed.


Lemma checkCircularDependency_iff db fromTaskId toTaskId :
  Task.checkCircularDependency fromTaskId toTaskId db = true
  ↔ cycle_reachable (task_dependencies db) toTaskId.
Proof.
  pose proof (checkCircularDependency_returns db fromTaskId toTaskId) as Hrun.
  unfold Task.checkCircularDependency_run in Hrun.
  destruct (Task.checkCircularDependency_rec _ db fromTaskId toTaskId ∅ ∅)
    as [[[b V] P]|] eqn:Hrec; [|done].
  simpl in Hrun. injection Hrun as <-. split.
  - intros ->.
    eapply checkCircularDependency_rec_true; [| |exact Hrec];
      [set_solver|by left].
  - intros (x & Hx & Hcycle). destruct b; [done|exfalso].
    apply checkCircularDependency_rec_false in Hrec as (_ & Ht & Hok).
    + replace (V ∖ ∅) with V in * by set_solver.
      destruct Hok as [Hclosed Hacyc]. apply (Hacyc x); [|done].
      destruct Hx as [->|Hx]; [done|].
      by eapply (finished_ok_path _ V toTaskId x).
    + split; set_solver.
Qed.

(** X2: what the check computes.  [checkCircularDependency(from, to)]
    answers true exactly when the graph as it is already has a cycle that is
    reached from [to]; [from] plays no part. *)
Theorem checkCircularDependency_true_iff_cycle_reachable db fromTaskId
    toTaskId :
  Task.checkCircularDependency fromTaskId toTaskId db = true
  ↔ cycle_reachable (task_dependencies db) toTaskId.
Proof. apply checkCircularDependency_iff. Qed.

(** ** Recomputation on a task that is already right *)

Lemma recompute_noop db x r :
  tasks db !! x = Some r → blocked_iff db x r →
  Task.updateTaskStatusBasedOnDependencies x db = db.
Proof.
  intros Hr Hiff. unfold blocked_iff in Hiff.
  rewrite <- hasIncompleteDeps_true in Hiff.
  unfold Task.updateTaskStatusBasedOnDependencies. rewrite Hr.
  destruct (Task.hasIncompleteDeps x db), (status r) eqn:Hs; simpl;
    try done; exfalso; naive_solver.
Qed.

Lemma recompute_missing db x :
  tasks db !! x = None → Task.updateTaskStatusBasedOnDependencies x db = db.
Proof.
  intros Hx. unfold Task.updateTaskStatusBasedOnDependencies. by rewrite Hx.
Qed.


(** X3: recomputing the status of a task twice in a row gives what
    recomputing it once gives: the second call writes nothing. *)
Theorem recompute_idempotent db taskId :
  Task.updateTaskStatusBasedOnDependencies taskId
    (Task.updateTaskStatusBasedOnDependencies taskId db)
  = Task.updateTaskStatusBasedOnDependencies taskId db.
Proof.
  destruct (tasks (Task.updateTaskStatusBasedOnDependencies taskId db)
              !! taskId) as [r'|] eqn:Hr'.
  - apply (recompute_noop _ taskId r'); [done|].
    by apply recompute_establishes.
  - by apply recompute_missing.
Qed.

(** ** What a completion request writes *)

Lemma recompute_each_row_status l db y r' :
  tasks (Task.recompute_each l db) !! y = Some r' →
  ∃ r, tasks db !! y = Some r ∧ r' = with_status (status r') r
       ∧ (status r' = Completed ↔ status r = Completed).
Proof.
  revert db r'. induction l as [|x l IH]; intros db r' Hr'.
  - exists r'. by rewrite with_status_id.
  - rewrite recompute_each_cons in Hr'.
    apply IH in Hr' as (r1 & Hr1 & Heq & Hs).
    rewrite recompute_lookup in Hr1. destruct (decide (y = x)) as [->|].
    + destruct (tasks db !! x) as [r|]; [|done]. simpl in Hr1.
      injection Hr1 as <-. exists r. split; [done|].
      split; [by rewrite Heq|].
      rewrite Hs. simpl. apply recomputed_status_completed.
    + by exists r1.
Qed.

Lemma recompute_each_lookup_None l db y :
  tasks (Task.recompute_each l db) !! y = None ↔ tasks db !! y = None.
Proof.
  revert db. induction l as [|x l IH]; intros db; [done|].
  rewrite recompute_each_cons, IH, recompute_lookup.
  destruct (decide (y = x)) as [->|]; [|done].
  by destruct (tasks db !! x).
Qed.

(** X4: whatever it answers, a completion request writes nothing but
    statuses, [updated_at] apart (every [UPDATE] sets that timestamp, which
    the model leaves out): the dependencies and the set of tasks stay, every
    row keeps its owner, title, description, parent, due date and priority,
    a Completed task stays Completed, and the only task that can become
    Completed is the task of the request, when it is the caller's. *)
Theorem markAsCompleted_writes_statuses_only db t u :
  task_dependencies (TaskController.markAsCompleted t u db).2
  = task_dependencies db
  ∧ (∀ y, tasks (TaskController.markAsCompleted t u db).2 !! y = None
          ↔ tasks db !! y = None)
  ∧ (∀ y r', tasks (TaskController.markAsCompleted t u db).2 !! y = Some r' →
       ∃ r, tasks db !! y = Some r ∧ r' = with_status (status r') r
            ∧ (status r = Completed → status r' = Completed)
            ∧ (status r' = Completed →
               status r = Completed ∨ (y = t ∧ user_id r = Some u))).
Proof.
  destruct (markAsCompleted_store t u db) as [-> | ->].
  { split; [done|]. split; [done|]. intros y r' Hr'. exists r'.
    rewrite with_status_id. naive_solver. }
  rewrite recompute_each_dependencies.
  split; [by destruct (Store.select_task t u db)|]. split.
  - intros y. rewrite recompute_each_lookup_None.
    destruct (Store.select_task t u db) as [r|] eqn:Hsel; [|done]. simpl.
    unfold Store.select_task in Hsel.
    destruct (tasks db !! t) as [rt|] eqn:Ht; [|done].
    destruct (decide (y = t)) as [->|Hne].
    + rewrite lookup_insert_eq, Ht. naive_solver.
    + by rewrite lookup_insert_ne.
  - intros y r' Hr'.
    apply recompute_each_row_status in Hr' as (r1 & Hr1 & Heq & Hs).
    destruct (Store.select_task t u db) as [r|] eqn:Hsel.
    + unfold Store.select_task in Hsel.
      destruct (tasks db !! t) as [rt|] eqn:Ht; [|done].
      case_decide; [|done]. injection Hsel as ->. simpl in Hr1.
      destruct (decide (y = t)) as [->|Hne].
      * rewrite lookup_insert_eq in Hr1. injection Hr1 as <-.
        exists r. rewrite Ht. split; [done|]. split; [by rewrite Heq|].
        simpl in Hs. naive_solver.
      * rewrite lookup_insert_ne in Hr1 by done. exists r1. naive_solver.
    + exists r1. naive_solver.
Qed.


(** ** The update handler *)

Lemma set_clause_undefined updateData :
  (∀ key v, (key, v) ∈ updateData → v = None) →
  Task.set_clause updateData = [].
Proof.
  induction updateData as [|[k [w|]] rest IH]; intros Hall; simpl; [done| |].
  - by specialize (Hall k (Some w) ltac:(left)).
  - apply IH. intros key v Hin. apply (Hall key). by right.
Qed.

Lemma field_undefined key updateData :
  (∀ k v, (k, v) ∈ updateData → v = None) →
  TaskController.field key updateData = None.
Proof.
  intros Hall. unfold TaskController.field.
  destruct (list_find _ updateData) as [[i [k v]]|] eqn:Hfind; [|done].
  apply list_find_Some in Hfind as (Hi & _ & _).
  apply (Hall k). by eapply list_elem_of_lookup_2.
Qed.

(** X6: an update whose body defines no field (an empty body, or keys that
    are all [undefined]) is answered 500 for a task of the caller, since
    [update] throws "No fields to update", and 404 for another id that the
    id column can hold; the store is left as it was. *)
Theorem updateTask_without_fields db t u updateData :
  (∀ key v, (key, v) ∈ updateData → v = None) →
  int4 t ∨ is_Some (Store.select_task t u db) →
  TaskController.updateTask t u updateData db
  = (if Store.select_task t u db is Some _
     then mkResponse 500 (ErrorBody "Failed to update task")
     else mkResponse 404 (ErrorBody "Task not found"),
     db).
Proof.
  intros Hall _.
  unfold TaskController.updateTask, TaskController.handle, Task.findById,
    Task.update, TaskController.reply, bind, query, exec, throw, ret.
  rewrite (field_undefined "status") by done.
  rewrite set_clause_undefined by done.
  by destruct (Store.select_task t u db).
Qed.

Lemma updateTask_without_fields_witness :
  TaskController.updateTask 1 1 [("title", None)] chain_db
  = (mkResponse 500 (ErrorBody "Failed to update task"), chain_db)
  ∧ TaskController.updateTask 9 1 [] chain_db
    = (mkResponse 404 (ErrorBody "Task not found"), chain_db).
Proof.
  split.
  - apply (updateTask_without_fields chain_db 1 1 [("title", None)]).
    + intros key v [[= _ <-]|Hin%elem_of_nil]%elem_of_cons; done.
    + right. by eexists.
  - apply (updateTask_without_fields chain_db 9 1 []).
    + intros key v Hin%elem_of_nil. done.
    + left. unfold int4. lia.
Defined.



(** X8: the two ways to complete a task agree.  For a task of the caller
    all of whose dependents are the caller's, the update with the body
    [{status: 'Completed'}] leaves the store that the completion request
    leaves and answers with the same status code and the same [task] or
    [error]; the [message] texts of the two handlers differ. *)
Theorem completion_routes_agree db t u :
  is_Some (Store.select_task t u db) →
  (∀ x, (x, t) ∈ task_dependencies db → is_Some (Store.select_task x u db)) →
  let updated :=
    TaskController.updateTask t u [("status", Some (VText "Completed"))] db in
  let completed := TaskController.markAsCompleted t u db in
  updated.2 = completed.2
  ∧ http_status updated.1 = http_status completed.1
  ∧ body updated.1 = body completed.1.
Proof.
  intros Hsel Hown. cbv zeta. by rewrite updateTask_completed.
Qed.

Lemma completion_routes_agree_witness :
  let updated :=
    TaskController.updateTask 3 1 [("status", Some (VText "Completed"))]
      chain_db in
  let completed := TaskController.markAsCompleted 3 1 chain_db in
  updated.2 = completed.2
  ∧ http_status updated.1 = http_status completed.1
  ∧ body updated.1 = body completed.1.
Proof.
  apply completion_routes_agree; [by eexists|].
  intros x Hx.
  assert (x = 2) as -> by (unfold chain_db in Hx; simpl in Hx; set_solver).
  by eexists.
Defined.


(** ** The outcomes of a request to add a dependency *)

Lemma select_task_Some t u db r :
  Store.select_task t u db = Some r
  ↔ tasks db !! t = Some r ∧ user_id r = Some u.
Proof.
  unfold Store.select_task. destruct (tasks db !! t) as [r'|]; [|naive_solver].
  case_decide; naive_solver.
Qed.

Lemma select_task_None t u db :
  Store.select_task t u db = None
  ↔ ∀ r, tasks db !! t = Some r → user_id r ≠ Some u.
Proof.
  unfold Store.select_task. destruct (tasks db !! t) as [r'|]; [|naive_solver].
  case_decide; naive_solver.
Qed.

(** The ownership query finds two rows only for two distinct tasks of the
    caller. *)
Lemma taskCheck_two_inv t d u db :
  Task.taskCheck t d u db = 2%nat →
  t ≠ d ∧ is_Some (Store.select_task t u db)
  ∧ is_Some (Store.select_task d u db).
Proof.
  intros Hrows.
  assert (∀ a b, Store.select_task a u db = None →
                 Task.taskCheck a b u db = Task.taskCheck b b u db) as Hdrop.
  { intros a b Ha. unfold Task.taskCheck. f_equal.
    apply map_filter_ext. intros i x Hi. simpl.
    rewrite select_task_None in Ha. naive_solver. }
  assert (∀ a b, Task.taskCheck a b u db = Task.taskCheck b a u db) as Hsym.
  { intros a b. unfold Task.taskCheck. f_equal.
    apply map_filter_ext. intros i x Hi. simpl. naive_solver. }
  destruct (decide (t = d)) as [->|Hne].
  { rewrite taskCheck_same in Hrows.
    by destruct (Store.select_task d u db). }
  split; [done|].
  destruct (Store.select_task t u db) as [rt|] eqn:Ht.
  - destruct (Store.select_task d u db) as [rd|] eqn:Hd; [by split|].
    rewrite Hsym, (Hdrop d t Hd), taskCheck_same, Ht in Hrows. done.
  - rewrite (Hdrop t d Ht), taskCheck_same in Hrows.
    by destruct (Store.select_task d u db).
Qed.

(** An accepted request, on a graph that may have cycles elsewhere. *)
Lemma addDependency_new_edge db t d u :
  t ≠ d → is_Some (Store.select_task t u db) →
  is_Some (Store.select_task d u db) →
  ¬ cycle_reachable (task_dependencies db) d →
  (t, d) ∉ task_dependencies db →
  TaskController.addDependency t d u db
  = (mkResponse 201 (DependencyBody (t, d)),
     Task.updateTaskStatusBasedOnDependencies t
       (with_dependencies (task_dependencies db ++ [(t, d)]) db)).
Proof.
  intros Hne [rt Ht] [rd Hd] Hcycle Hnew.
  pose proof Ht as Ht'. pose proof Hd as Hd'.
  apply select_task_Some in Ht' as [Hrt Hut].
  apply select_task_Some in Hd' as [Hrd Hud].
  unfold TaskController.addDependency, TaskController.handle, Task.findById,
    Task.addDependency, Store.insert_dependency,
    TaskController.reply, bind, try_catch, query, exec, throw, ret.
  rewrite Ht. cbn beta iota.
  rewrite (taskCheck_two t d u db rt rd) by done.
  rewrite (bool_decide_eq_false_2 (2 ≠ 2)%nat) by (by intros []).
  cbn beta iota.
  assert (Task.checkCircularDependency t d db = false) as ->.
  { apply Bool.not_true_is_false. by rewrite checkCircularDependency_iff. }
  cbn beta iota. rewrite Hrt, Hrd. simpl.
  by rewrite bool_decide_eq_false_2.
Qed.

(** X9: the outcomes of a request to add the dependency of [t] on [d], in
    the order the code decides them.  Unless both are distinct tasks of the
    caller the answer is 404, for ids that the id column can hold; else,
    when a cycle of the graph is reached
    from [d], 400; else, when the dependency exists, 409; and every refusal
    leaves the store as it was.  Otherwise the answer is 201, the one row is
    added last and the status of [t] is recomputed. *)
Theorem addDependency_outcomes db t d u :
  (int4 t → int4 d →
   t = d ∨ Store.select_task t u db = None
   ∨ Store.select_task d u db = None →
   TaskController.addDependency t d u db
   = (mkResponse 404 (ErrorBody "Task not found"), db))
  ∧ (t ≠ d → is_Some (Store.select_task t u db) →
     is_Some (Store.select_task d u db) →
     (cycle_reachable (task_dependencies db) d →
      TaskController.addDependency t d u db
      = (mkResponse 400 (ErrorBody "Circular dependency detected"), db))
     ∧ (¬ cycle_reachable (task_dependencies db) d →
        (t, d) ∈ task_dependencies db →
        TaskController.addDependency t d u db
        = (mkResponse 409 (ErrorBody "Dependency already exists"), db))
     ∧ (¬ cycle_reachable (task_dependencies db) d →
        (t, d) ∉ task_dependencies db →
        TaskController.addDependency t d u db
        = (mkResponse 201 (DependencyBody (t, d)),
           Task.updateTaskStatusBasedOnDependencies t
             (with_dependencies (task_dependencies db ++ [(t, d)]) db)))).
Proof.
  split.
  - intros _ _ Hbad.
    unfold TaskController.addDependency, TaskController.handle, Task.findById,
      Task.addDependency, TaskController.reply, bind, query, throw, ret.
    destruct (Store.select_task t u db) as [rt|] eqn:Ht; cbn beta iota;
      [|done].
    rewrite bool_decide_eq_true_2; [done|].
    intros (Hne & _ & Hd)%taskCheck_two_inv.
    destruct Hbad as [?|[?|Hnone]]; [done..|].
    rewrite Hnone in Hd. by destruct Hd.
  - intros Hne Ht Hd. split; [|split].
    + intros Hcycle. destruct Ht as [rt Ht], Hd as [rd Hd].
      pose proof Ht as [Hrt Hut]%select_task_Some.
      pose proof Hd as [Hrd Hud]%select_task_Some.
      unfold TaskController.addDependency, TaskController.handle,
        Task.findById, Task.addDependency, TaskController.reply,
        bind, query, throw, ret.
      rewrite Ht. cbn beta iota.
      rewrite (taskCheck_two t d u db rt rd) by done.
      rewrite (bool_decide_eq_false_2 (2 ≠ 2)%nat) by (by intros []).
      cbn beta iota.
      apply (checkCircularDependency_iff db t d) in Hcycle as ->. done.
    + intros Hcycle Hdup. destruct Ht as [rt Ht], Hd as [rd Hd].
      pose proof Ht as [Hrt Hut]%select_task_Some.
      pose proof Hd as [Hrd Hud]%select_task_Some.
      unfold TaskController.addDependency, TaskController.handle,
        Task.findById, Task.addDependency, Store.insert_dependency,
        TaskController.reply, bind, try_catch, query, exec, throw, ret.
      rewrite Ht. cbn beta iota.
      rewrite (taskCheck_two t d u db rt rd) by done.
      rewrite (bool_decide_eq_false_2 (2 ≠ 2)%nat) by (by intros []).
      cbn beta iota.
      assert (Task.checkCircularDependency t d db = false) as ->.
      { apply Bool.not_true_is_false. by rewrite checkCircularDependency_iff. }
      cbn beta iota. rewrite Hrt, Hrd. simpl.
      by rewrite bool_decide_eq_true_2.
    + intros Hcycle Hnew. by apply addDependency_new_edge.
Qed.

Lemma cyclic_db_reachable :
  cyclic_db = (TaskController.addDependency 3 1 1 chain_db).2.
Proof. reflexivity. Qed.

Lemma addDependency_outcomes_witness :
  TaskController.addDependency 1 1 1 chain_db
  = (mkResponse 404 (ErrorBody "Task not found"), chain_db)
  ∧ TaskController.addDependency 2 1 1 cyclic_db
    = (mkResponse 400 (ErrorBody "Circular dependency detected"), cyclic_db)
  ∧ TaskController.addDependency 1 2 1 chain_db
    = (mkResponse 409 (ErrorBody "Dependency already exists"), chain_db)
  ∧ TaskController.addDependency 1 3 1 chain_db
    = (mkResponse 201 (DependencyBody (1, 3)),
       Task.updateTaskStatusBasedOnDependencies 1
         (with_dependencies (task_dependencies chain_db ++ [(1, 3)])
            chain_db)).
Proof.
  assert (∀ d, Task.checkCircularDependency 0 d chain_db = false →
               ¬ cycle_reachable (task_dependencies chain_db) d) as Hfree.
  { intros d Hd. rewrite <- (checkCircularDependency_iff chain_db 0 d).
    by rewrite Hd. }
  split; [|split; [|split]].
  - apply (proj1 (addDependency_outcomes chain_db 1 1 1));
      [unfold int4; lia|unfold int4; lia|by left].
  - destruct (proj2 (addDependency_outcomes cyclic_db 2 1 1))
      as (Hcycle & _ & _); [done|by eexists|by eexists|].
    apply Hcycle. exists 1. split; [by left|].
    apply (path_step _ 1 2 1); [set_solver|].
    apply (path_step _ 2 3 1); [set_solver|].
    apply path_edge. set_solver.
  - destruct (proj2 (addDependency_outcomes chain_db 1 2 1))
      as (_ & Hdup & _); [done|by eexists|by eexists|].
    apply Hdup; [by apply Hfree|set_solver].
  - destruct (proj2 (addDependency_outcomes chain_db 1 3 1))
      as (_ & _ & Hnew); [done|by eexists|by eexists|].
    apply Hnew; [by apply Hfree|].
    unfold chain_db. simpl. set_solver.
Defined.

(** ** The status of a task after a new dependency *)




(** ** Removing a dependency, and adding then removing one *)


Lemma removeDependency_existing db t d u :
  is_Some (Store.select_task t u db) → (t, d) ∈ task_dependencies db →
  TaskController.removeDependency t d u db
  = (mkResponse 200 (DependencyBody (t, d)),
     Task.updateTaskStatusBasedOnDependencies t
       (with_dependencies
          (filter (λ e, e ≠ (t, d)) (task_dependencies db)) db)).
Proof.
  intros [r Hr] Hin.
  unfold TaskController.removeDependency, TaskController.handle,
    Task.removeDependency, Store.delete_dependency, TaskController.reply,
    bind, query, exec, throw, ret.
  rewrite Hr. simpl. by rewrite bool_decide_eq_true_2.
Qed.

(** X11: removing an existing dependency of a task of the caller answers 200
    with the removed pair; the pair is gone, every other dependency is kept,
    and the status of the task is recomputed on what is left. *)
Theorem removeDependency_removes db t d u :
  is_Some (Store.select_task t u db) → (t, d) ∈ task_dependencies db →
  TaskController.removeDependency t d u db
  = (mkResponse 200 (DependencyBody (t, d)),
     Task.updateTaskStatusBasedOnDependencies t
       (with_dependencies
          (filter (λ e, e ≠ (t, d)) (task_dependencies db)) db))
  ∧ ((t, d) ∉ task_dependencies (TaskController.removeDependency t d u db).2)
  ∧ (∀ e, e ≠ (t, d) →
       e ∈ task_dependencies (TaskController.removeDependency t d u db).2
       ↔ e ∈ task_dependencies db).
Proof.
  intros Hsel Hin. rewrite removeDependency_existing by done.
  split; [done|]. simpl. rewrite recompute_dependencies. simpl.
  split.
  - rewrite list_elem_of_filter. naive_solver.
  - intros e He. rewrite list_elem_of_filter. naive_solver.
Qed.

Lemma removeDependency_removes_witness :
  TaskController.removeDependency 1 2 1 chain_db
  = (mkResponse 200 (DependencyBody (1, 2)),
     Task.updateTaskStatusBasedOnDependencies 1
       (with_dependencies
          (filter (λ e, e ≠ (1, 2)) (task_dependencies chain_db)) chain_db))
  ∧ ((1, 2) ∉ task_dependencies
                (TaskController.removeDependency 1 2 1 chain_db).2).
Proof.
  destruct (removeDependency_removes chain_db 1 2 1) as (Hanswer & Hgone & _);
    [by eexists|unfold chain_db; simpl; set_solver|].
  by split.
Defined.




(** ** The cascade of a delete *)

Lemma cascade_iter_subseteq m id (n : nat) :
  is_Some (m !! id) → Nat.iter n (Store.cascade_step m) {[id]} ⊆ dom m.
Proof.
  intros Hid. induction n as [|n IH]; simpl.
  - apply elem_of_dom in Hid. set_solver.
  - unfold Store.cascade_step at 1.
    pose proof (dom_filter_subseteq
                  (λ kv : Z * TaskRow,
                     Store.is_child_of
                       (Nat.iter n (Store.cascade_step m) {[id]}) kv.2) m).
    set_solver.
Qed.

(** After as many steps as there are tasks, a further step adds nothing. *)
Lemma cascade_iter_grows m id (n : nat) :
  Store.cascade_step m (Nat.iter n (Store.cascade_step m) {[id]})
  = Nat.iter n (Store.cascade_step m) {[id]}
  ∨ (n < size (Nat.iter n (Store.cascade_step m) {[id]}))%nat.
Proof.
  induction n as [|n IH].
  - right. change (Nat.iter 0 (Store.cascade_step m) {[id]})
      with ({[id]} : gset Z).
    rewrite size_singleton. lia.
  - rewrite !Nat.iter_succ. destruct IH as [Hfix|Hsize].
    + left. by rewrite !Hfix.
    + set (D := Nat.iter n (Store.cascade_step m) {[id]}) in *.
      destruct (decide (Store.cascade_step m (Store.cascade_step m D)
                        = Store.cascade_step m D)) as [|Hne]; [by left|].
      right.
      destruct (decide (Store.cascade_step m D = D)) as [Heq|Hne'].
      { by rewrite !Heq in Hne. }
      assert (D ⊂ Store.cascade_step m D) as Hsub.
      { pose proof (cascade_step_mono m D). set_solver. }
      apply subset_size in Hsub. lia.
Qed.

Lemma cascade_closed m id s rs p :
  is_Some (m !! id) → m !! s = Some rs → parent_task_id rs = Some p →
  p ∈ Store.cascade m id → s ∈ Store.cascade m id.
Proof.
  intros Hid Hs Hp Hin. unfold Store.cascade in *.
  set (D := Nat.iter (size m) (Store.cascade_step m) {[id]}) in *.
  assert (Store.cascade_step m D = D) as <-.
  { destruct (cascade_iter_grows m id (size m)) as [|Hsize]; [done|].
    fold D in Hsize.
    pose proof (subseteq_size _ _ (cascade_iter_subseteq m id (size m) Hid))
      as Hle.
    fold D in Hle. rewrite size_dom in Hle. lia. }
  unfold Store.cascade_step. apply elem_of_union_r, elem_of_dom. exists rs.
  apply map_lookup_filter_Some. split; [done|]. simpl.
  unfold Store.is_child_of. rewrite Hp. by apply bool_decide_pack.
Qed.

Lemma deleteTask_store db t u :
  (TaskController.deleteTask t u db).2
  = if Store.select_task t u db is Some _
    then mkDb (users db)
           (filter (λ kv, kv.1 ∉ Store.cascade (tasks db) t) (tasks db))
           (tasks_id_seq db)
           (filter (λ e, (e.1 ∉ Store.cascade (tasks db) t)
                         ∧ (e.2 ∉ Store.cascade (tasks db) t))
                   (task_dependencies db))
    else db.
Proof.
  unfold TaskController.deleteTask, TaskController.handle, Task.delete,
    Store.delete_task, TaskController.reply, bind, ret.
  by destruct (Store.select_task t u db).
Qed.

Lemma deleteTask_integrity db t u :
  referential_integrity db →
  referential_integrity (TaskController.deleteTask t u db).2.
Proof.
  intros (Hparents & Hedges & Howners).
  rewrite deleteTask_store.
  destruct (Store.select_task t u db) as [rt|] eqn:Hsel; [|done].
  assert (is_Some (tasks db !! t)) as Hid.
  { apply select_task_Some in Hsel as [-> _]. by eexists. }
  split; [|split]; simpl.
  - intros y r p [Hr Hy]%map_lookup_filter_Some Hp. simpl in Hy.
    destruct (Hparents y r p Hr Hp) as [rp Hrp]. exists rp.
    apply map_lookup_filter_Some. split; [done|]. simpl.
    intros Hin. apply Hy. by eapply cascade_closed.
  - intros a b [[Ha Hb] Hin]%list_elem_of_filter. simpl in *.
    destruct (Hedges a b Hin) as [[ra Hra] [rb Hrb]].
    split; [exists ra|exists rb]; by apply map_lookup_filter_Some.
  - intros y r w [Hr _]%map_lookup_filter_Some. by apply (Howners y).
Qed.

(** X13: a delete leaves no reference to a removed task: when the parents
    and the ends of the dependencies exist before it, they exist after it,
    however deep the subtasks were nested.  The rows that are kept are kept
    as they were, and a task that is not the caller's, under an id that the
    id column can hold, is answered 404 with nothing removed. *)
Theorem deleteTask_keeps_references db t u :
  referential_integrity db →
  referential_integrity (TaskController.deleteTask t u db).2
  ∧ (∀ y r, tasks (TaskController.deleteTask t u db).2 !! y = Some r →
            tasks db !! y = Some r)
  ∧ (int4 t → Store.select_task t u db = None →
     TaskController.deleteTask t u db
     = (mkResponse 404 (ErrorBody "Task not found"), db)).
Proof.
  intros Hintegrity.
  split; [by apply deleteTask_integrity|split].
  - apply deleteTask_keeps_rows.
  - intros _ Hsel.
    unfold TaskController.deleteTask, TaskController.handle, Task.delete,
      Store.delete_task, TaskController.reply, bind, ret.
    by rewrite Hsel.
Qed.

(** ** Stores that differ in statuses only *)

Lemma same_but_statuses_refl db : same_but_statuses db db.
Proof.
  repeat split; try done. intros y r' Hr'. exists r'.
  by rewrite with_status_id.
Qed.

Lemma same_but_statuses_trans db1 db2 db3 :
  same_but_statuses db1 db2 → same_but_statuses db2 db3 →
  same_but_statuses db1 db3.
Proof.
  intros (Hu1 & Hq1 & Hd1 & Hn1 & Hr1) (Hu2 & Hq2 & Hd2 & Hn2 & Hr2).
  split; [congruence|]. split; [congruence|]. split; [congruence|].
  split; [intros y; by rewrite Hn2|].
  intros y r3 H3. destruct (Hr2 y r3 H3) as (r2 & H2 & ->).
  destruct (Hr1 y r2 H2) as (r1 & H1 & ->). exists r1. by split.
Qed.

Lemma same_but_statuses_set db t r s :
  tasks db !! t = Some r →
  same_but_statuses db (with_tasks (<[t := with_status s r]> (tasks db)) db).
Proof.
  intros Ht. repeat split; try done; simpl.
  - destruct (decide (y = t)) as [->|]; [by rewrite lookup_insert_eq|].
    by rewrite lookup_insert_ne.
  - destruct (decide (y = t)) as [->|]; [congruence|].
    by rewrite lookup_insert_ne.
  - intros y r'. destruct (decide (y = t)) as [->|].
    + rewrite lookup_insert_eq. intros [= <-]. by exists r.
    + rewrite lookup_insert_ne by done. intros Hr'. exists r'.
      by rewrite with_status_id.
Qed.

Lemma same_but_statuses_recompute db x :
  same_but_statuses db (Task.updateTaskStatusBasedOnDependencies x db).
Proof.
  destruct (tasks db !! x) as [r|] eqn:Hx.
  - assert (Task.updateTaskStatusBasedOnDependencies x db
            = with_tasks
                (<[x := with_status
                          (recomputed_status (Task.hasIncompleteDeps x db)
                             (status r)) r]> (tasks db)) db) as ->;
      [|by apply same_but_statuses_set].
    unfold Task.updateTaskStatusBasedOnDependencies, Store.set_status,
      recomputed_status.
    rewrite Hx.
    destruct (Task.hasIncompleteDeps x db && bool_decide (status r ≠ Blocked)
              && bool_decide (status r ≠ Completed));
      [|destruct (negb (Task.hasIncompleteDeps x db)
                  && bool_decide (status r = Blocked))];
      destruct db as [us ts sq ds]; simpl in *; unfold with_tasks; simpl;
      f_equal.
    + apply map_eq. intros i. rewrite lookup_alter.
      destruct (decide (x = i)) as [->|];
        [by rewrite lookup_insert_eq, Hx|by rewrite lookup_insert_ne].
    + apply map_eq. intros i. rewrite lookup_alter.
      destruct (decide (x = i)) as [->|];
        [by rewrite lookup_insert_eq, Hx|by rewrite lookup_insert_ne].
    + rewrite with_status_id. symmetry. by apply insert_id.
  - rewrite recompute_missing by done. apply same_but_statuses_refl.
Qed.

Lemma same_but_statuses_recompute_each l db :
  same_but_statuses db (Task.recompute_each l db).
Proof.
  revert db. induction l as [|x l IH]; intros db;
    [apply same_but_statuses_refl|].
  rewrite recompute_each_cons.
  eapply same_but_statuses_trans; [apply same_but_statuses_recompute|].
  apply IH.
Qed.

Lemma same_but_statuses_markAsCompleted db t u :
  same_but_statuses db (TaskController.markAsCompleted t u db).2.
Proof.
  destruct (markAsCompleted_store t u db) as [-> | ->];
    [apply same_but_statuses_refl|].
  eapply same_but_statuses_trans; [|apply same_but_statuses_recompute_each].
  destruct (Store.select_task t u db) as [r|] eqn:Hsel;
    [|apply same_but_statuses_refl].
  apply same_but_statuses_set. by apply select_task_Some in Hsel as [? _].
Qed.

Lemma same_but_statuses_lookup db db' y r :
  same_but_statuses db db' → tasks db !! y = Some r →
  ∃ s, tasks db' !! y = Some (with_status s r).
Proof.
  intros (_ & _ & _ & Hnone & Hrows) Hr.
  destruct (tasks db' !! y) as [r'|] eqn:Hr'.
  - destruct (Hrows y r' Hr') as (r0 & Hr0 & ->). exists (status r').
    congruence.
  - apply Hnone in Hr'. congruence.
Qed.

Lemma same_but_statuses_owner db db' y :
  same_but_statuses db db' → owner_of db' y = owner_of db y.
Proof.
  intros Hsame. unfold owner_of.
  destruct (tasks db !! y) as [r|] eqn:Hr.
  - destruct (same_but_statuses_lookup db db' y r Hsame Hr) as [s ->]. done.
  - destruct Hsame as (_ & _ & _ & Hnone & _). by rewrite (proj2 (Hnone y) Hr).
Qed.

Lemma same_but_statuses_row db db' y r' :
  same_but_statuses db db' → tasks db' !! y = Some r' →
  ∃ r, tasks db !! y = Some r ∧ parent_task_id r' = parent_task_id r
       ∧ user_id r' = user_id r.
Proof.
  intros (_ & _ & _ & _ & Hrows) Hr'.
  destruct (Hrows y r' Hr') as (r & Hr & Heq). exists r.
  split; [done|]. by rewrite Heq.
Qed.

Lemma same_but_statuses_hierarchy db db' :
  same_but_statuses db db' → hierarchy_ok db → hierarchy_ok db'.
Proof.
  intros Hsame ((Hparents & Hedges & Howners) & Hlevel & Hzero & Hseq).
  pose proof Hsame as (Hu & Hq & Hd & Hnone & Hrows).
  assert (∀ y, is_Some (tasks db !! y) → is_Some (tasks db' !! y)) as Hsome.
  { intros y [r Hr].
    destruct (same_but_statuses_lookup db db' y r Hsame Hr) as [s ->].
    by eexists. }
  split; [split; [|split]|split; [|split]].
  - intros y r' p Hr' Hp.
    destruct (same_but_statuses_row db db' y r' Hsame Hr')
      as (r & Hr & Hpr & _).
    apply Hsome. apply (Hparents y r p); [done|congruence].
  - intros a b Hin. rewrite Hd in Hin. destruct (Hedges a b Hin).
    split; by apply Hsome.
  - intros y r' w Hr' Hw.
    destruct (same_but_statuses_row db db' y r' Hsame Hr')
      as (r & Hr & _ & Hur).
    rewrite Hu. apply (Howners y r w); [done|congruence].
  - intros y r' Hr'.
    destruct (same_but_statuses_row db db' y r' Hsame Hr')
      as (r & Hr & Hpr & _).
    specialize (Hlevel y r Hr). unfold parent_is_root in *. rewrite Hpr.
    destruct (parent_task_id r) as [p|]; [|done].
    destruct (tasks db' !! p) as [rp'|] eqn:Hp'; [|done].
    destruct (same_but_statuses_row db db' p rp' Hsame Hp')
      as (rp & Hrp & Hprp & _).
    rewrite Hrp in Hlevel. congruence.
  - by apply Hnone.
  - by rewrite Hq.
Qed.

Lemma same_but_statuses_same_owner db db' :
  same_but_statuses db db' → same_owner_edges db → same_owner_edges db'.
Proof.
  intros Hsame Hedges a b Hin.
  pose proof Hsame as (_ & _ & Hd & _). rewrite Hd in Hin.
  rewrite !(same_but_statuses_owner db db') by done. by apply Hedges.
Qed.

(** ** The stores that the handlers leave *)

Lemma addDependency_store_owned db t d u :
  (TaskController.addDependency t d u db).2 = db
  ∨ (t ≠ d ∧ is_Some (Store.select_task t u db)
     ∧ is_Some (Store.select_task d u db)
     ∧ (TaskController.addDependency t d u db).2
       = Task.updateTaskStatusBasedOnDependencies t
           (with_dependencies (task_dependencies db ++ [(t, d)]) db)).
Proof.
  destruct (decide (Task.taskCheck t d u db = 2%nat)) as [Hrows|Hrows].
  - apply taskCheck_two_inv in Hrows as (Hne & Ht & Hd).
    destruct (addDependency_store t d u db) as [Heq|Heq]; [by left|].
    right. by repeat split.
  - left.
    unfold TaskController.addDependency, TaskController.handle, Task.findById,
      Task.addDependency, TaskController.reply, bind, query, throw, ret.
    destruct (Store.select_task t u db); cbn beta iota; [|done].
    by rewrite bool_decide_eq_true_2.
Qed.

Lemma truthy_false o :
  TaskController.truthy o = false ↔ o = None ∨ o = Some 0.
Proof.
  unfold TaskController.truthy. destruct o as [z|]; [|naive_solver].
  rewrite bool_decide_eq_false. destruct (decide (z = 0)); naive_solver.
Qed.

(** What [Task.create] leaves: the store as it was up to the sequence, or one
    new row under the next id. *)
Lemma create_store taskData db :
  users (Task.create taskData db).2 = users db
  ∧ task_dependencies (Task.create taskData db).2 = task_dependencies db
  ∧ tasks_id_seq (Task.create taskData db).2 = tasks_id_seq db + 1
  ∧ (tasks (Task.create taskData db).2 = tasks db
     ∨ ∃ r, tasks db !! tasks_id_seq db = None
            ∧ tasks (Task.create taskData db).2
              = <[tasks_id_seq db := r]> (tasks db)
            ∧ user_id r = Some (Task.userId taskData)
            ∧ Task.userId taskData ∈ users db
            ∧ parent_task_id r = Task.parentTaskId taskData).
Proof.
  unfold Task.create, Store.insert_task.
  destruct (negb _) eqn:Hrefs; simpl; [by auto|].
  case_decide as Hid; simpl; [by auto|].
  repeat split; try done. right. eexists. split.
  { destruct (tasks db !! tasks_id_seq db) eqn:E; [|done].
    destruct Hid. by eexists. }
  split; [done|]. simpl. split; [done|]. split; [|done].
  apply negb_false_iff, andb_true_iff in Hrefs as [Hu _].
  simpl in Hu. by apply bool_decide_eq_true in Hu.
Qed.

Lemma createTask_store u title description parent dueDate priority status db :
  let db' := (TaskController.createTask u title description parent dueDate
                priority status db).2 in
  db' = db
  ∨ (db' = (Task.create (Task.mkTaskData u title description parent dueDate
                           priority status) db).2
     ∧ ∀ p, parent = Some p → p ≠ 0 →
         ∃ rp, tasks db !! p = Some rp
               ∧ TaskController.truthy (parent_task_id rp) = false).
Proof.
  cbv zeta.
  unfold TaskController.createTask, TaskController.handle, Task.findById,
    TaskController.reply, bind, query, ret.
  destruct (TaskController.truthy parent) eqn:Htruthy.
  - destruct parent as [p|]; [|done]. simpl.
    destruct (Store.select_task p u db) as [rp|] eqn:Hsel; [|by left].
    destruct (TaskController.truthy (parent_task_id rp)) eqn:Hnested;
      [by left|].
    right. split.
    + by destruct (Task.create _ db) as [[]].
    + intros p' [= <-] _. exists rp. split; [|done].
      by apply select_task_Some in Hsel as [? _].
  - right. split.
    + by destruct (Task.create _ db) as [[]].
    + intros p -> Hp. apply truthy_false in Htruthy as [|[= ?]]; done.
Qed.

Lemma createSubtask_store p u title description dueDate priority db :
  let db' := (TaskController.createSubtask p u title description dueDate
                priority db).2 in
  db' = db
  ∨ (db' = (Task.create (Task.mkTaskData u title description (Some p)
                           dueDate priority (Some ToDo)) db).2
     ∧ ∃ rp, tasks db !! p = Some rp
             ∧ TaskController.truthy (parent_task_id rp) = false).
Proof.
  cbv zeta.
  unfold TaskController.createSubtask, TaskController.handle, Task.findById,
    TaskController.reply, bind, query, ret.
  destruct (Store.select_task p u db) as [rp|] eqn:Hsel; [|by left].
  destruct (TaskController.truthy (parent_task_id rp)) eqn:Hnested;
    [by left|].
  right. split.
  - by destruct (Task.create _ db) as [[]].
  - exists rp. split; [|done]. by apply select_task_Some in Hsel as [? _].
Qed.

(** A creation keeps the hierarchy when the parent that it names, if any, is
    a task that has no parent. *)
Lemma create_hierarchy taskData db :
  hierarchy_ok db →
  (∀ p, Task.parentTaskId taskData = Some p →
        ∃ rp, tasks db !! p = Some rp
              ∧ TaskController.truthy (parent_task_id rp) = false) →
  hierarchy_ok (Task.create taskData db).2.
Proof.
  intros ((Hparents & Hedges & Howners) & Hlevel & Hzero & Hseq) Hparent.
  destruct (create_store taskData db) as (Hu & Hd & Hq & [Hsame|Hnew]).
  { split; [split; [|split]|split; [|split]].
    - intros y r p. rewrite Hsame. apply Hparents.
    - intros a b. rewrite Hd, Hsame. apply Hedges.
    - intros y r w. rewrite Hsame, Hu. apply Howners.
    - unfold single_level, parent_is_root. rewrite Hsame. apply Hlevel.
    - by rewrite Hsame.
    - lia. }
  destruct Hnew as (r & Hfresh & Htasks & Hur & Huin & Hpr).
  assert (∀ y, is_Some (tasks db !! y) →
               tasks (Task.create taskData db).2 !! y = tasks db !! y)
    as Hold.
  { intros y [ry Hy]. rewrite Htasks, lookup_insert_ne; [done|].
    intros <-. congruence. }
  assert (∀ p, parent_task_id r = Some p →
               ∃ rp, tasks db !! p = Some rp ∧ parent_task_id rp = None)
    as Hroot.
  { intros p Hp. rewrite Hpr in Hp. destruct (Hparent p Hp) as (rp & Hrp & Ht).
    exists rp. split; [done|].
    apply truthy_false in Ht as [|Hz]; [done|].
    destruct (Hparents p rp 0 Hrp Hz) as [? ?]. congruence. }
  split; [split; [|split]|split; [|split]].
  - intros y ry p. rewrite Htasks.
    destruct (decide (y = tasks_id_seq db)) as [->|Hne].
    + rewrite lookup_insert_eq. intros [= <-] Hp.
      destruct (Hroot p Hp) as (rp & Hrp & _).
      rewrite <- Htasks, Hold; by eexists.
    + rewrite lookup_insert_ne by done. intros Hy Hp.
      rewrite <- Htasks, Hold; by eapply Hparents.
  - intros a b. rewrite Hd. intros Hin. destruct (Hedges a b Hin).
    by rewrite !Hold.
  - intros y ry w. rewrite Htasks, Hu.
    destruct (decide (y = tasks_id_seq db)) as [->|Hne].
    + rewrite lookup_insert_eq. intros [= <-] Hw. congruence.
    + rewrite lookup_insert_ne by done. apply Howners.
  - intros y ry. rewrite Htasks. unfold parent_is_root.
    rewrite <- Htasks.
    destruct (decide (y = tasks_id_seq db)) as [->|Hne].
    + rewrite Htasks, lookup_insert_eq. intros [= <-]. rewrite <- Htasks.
      destruct (parent_task_id r) as [p|] eqn:Hp; [|done].
      destruct (Hroot p eq_refl) as (rp & Hrp & Hnone).
      rewrite Hold, Hrp by (by eexists). done.
    + rewrite Htasks, lookup_insert_ne by done. rewrite <- Htasks.
      intros Hy. specialize (Hlevel y ry Hy). unfold parent_is_root in Hlevel.
      destruct (parent_task_id ry) as [p|] eqn:Hp; [|done].
      destruct (Hparents y ry p Hy Hp) as [rp Hrp].
      rewrite Hold by (by eexists). done.
  - rewrite Htasks, lookup_insert_ne; [done|lia].
  - lia.
Qed.

(** ** What every handler but the update keeps *)

Lemma hierarchy_ok_dependencies db l :
  hierarchy_ok db →
  (∀ a b, (a, b) ∈ l → is_Some (tasks db !! a) ∧ is_Some (tasks db !! b)) →
  hierarchy_ok (with_dependencies l db).
Proof.
  intros ((Hparents & Hedges & Howners) & Hlevel & Hzero & Hseq) Hl.
  split; [split; [|split]|split; [|split]]; done.
Qed.

Lemma deleteTask_hierarchy db t u :
  hierarchy_ok db → hierarchy_ok (TaskController.deleteTask t u db).2.
Proof.
  intros (Hintegrity & Hlevel & Hzero & Hseq).
  split; [by apply deleteTask_integrity|].
  rewrite deleteTask_store.
  destruct (Store.select_task t u db) as [rt|] eqn:Hsel; [|done].
  split; [|split]; simpl.
  - intros y r [Hr _]%map_lookup_filter_Some.
    specialize (Hlevel y r Hr). unfold parent_is_root in *. simpl.
    destruct (parent_task_id r) as [p|]; [|done].
    destruct (filter _ (tasks db) !! p) as [rp|] eqn:Hp; [|done].
    apply map_lookup_filter_Some in Hp as [Hp _]. by rewrite Hp in Hlevel.
  - apply map_lookup_filter_None. by left.
  - done.
Qed.

(** X14: every handler that writes, except the update, keeps the hierarchy:
    references intact, nesting one level deep at most, ids from 1 on.  For
    [createTask] the parent id, when given, is not 0, as its validator
    requires. *)
Theorem handlers_keep_hierarchy db :
  hierarchy_ok db →
  (∀ u title description parent dueDate priority status,
     parent ≠ Some 0 →
     hierarchy_ok (TaskController.createTask u title description parent
                     dueDate priority status db).2)
  ∧ (∀ p u title description dueDate priority,
       hierarchy_ok (TaskController.createSubtask p u title description
                       dueDate priority db).2)
  ∧ (∀ t u, hierarchy_ok (TaskController.deleteTask t u db).2)
  ∧ (∀ t d u, hierarchy_ok (TaskController.addDependency t d u db).2)
  ∧ (∀ t d u, hierarchy_ok (TaskController.removeDependency t d u db).2)
  ∧ (∀ t u, hierarchy_ok (TaskController.markAsCompleted t u db).2).
Proof.
  intros Hok. split; [|split; [|split; [|split; [|split]]]].
  - intros u title description parent dueDate priority status Hparent.
    destruct (createTask_store u title description parent dueDate priority
                status db) as [-> | [-> Hp]]; [done|].
    apply create_hierarchy; [done|]. simpl. intros p ->.
    apply (Hp p); [done|]. by intros ->.
  - intros p u title description dueDate priority.
    destruct (createSubtask_store p u title description dueDate priority db)
      as [-> | [-> Hp]]; [done|].
    apply create_hierarchy; [done|]. simpl. by intros p' [= <-].
  - intros t u. by apply deleteTask_hierarchy.
  - intros t d u.
    destruct (addDependency_store_owned db t d u)
      as [-> | (_ & [rt Ht] & [rd Hd] & ->)]; [done|].
    eapply same_but_statuses_hierarchy;
      [apply same_but_statuses_recompute|].
    apply hierarchy_ok_dependencies; [done|].
    apply select_task_Some in Ht as [Ht _].
    apply select_task_Some in Hd as [Hd _].
    destruct Hok as ((_ & Hedges & _) & _).
    intros a b [Hin|[= -> ->]%list_elem_of_singleton]%elem_of_app;
      [by apply Hedges|by split].
  - intros t d u.
    destruct (removeDependency_store t d u db) as [-> | ->]; [done|].
    eapply same_but_statuses_hierarchy;
      [apply same_but_statuses_recompute|].
    apply hierarchy_ok_dependencies; [done|].
    destruct Hok as ((_ & Hedges & _) & _).
    intros a b [_ Hin]%list_elem_of_filter. by apply Hedges.
  - intros t u. eapply same_but_statuses_hierarchy; [|done].
    apply same_but_statuses_markAsCompleted.
Qed.

Lemma owner_of_select t u db :
  is_Some (Store.select_task t u db) → owner_of db t = Some u.
Proof.
  intros [r [Hr Hu]%select_task_Some]. unfold owner_of. by rewrite Hr.
Qed.

Lemma create_same_owner taskData db :
  same_owner_edges db → same_owner_edges (Task.create taskData db).2.
Proof.
  intros Hedges a b.
  destruct (create_store taskData db) as (_ & -> & _ & [Hsame|Hnew]).
  { unfold owner_of. rewrite Hsame. apply Hedges. }
  destruct Hnew as (r & Hfresh & Htasks & _). intros Hin.
  destruct (Hedges a b Hin) as (w & Ha & Hb). exists w.
  assert (∀ y, owner_of db y = Some w →
               owner_of (Task.create taskData db).2 y = Some w) as Hold.
  { intros y Hy. unfold owner_of in *. rewrite Htasks, lookup_insert_ne; [done|].
    intros <-. by rewrite Hfresh in Hy. }
  split; by apply Hold.
Qed.

(** X15: every handler that writes, except the update, keeps each
    dependency between two tasks of one owner. *)
Theorem handlers_keep_edges_within_owner db :
  same_owner_edges db →
  (∀ u title description parent dueDate priority status,
     same_owner_edges (TaskController.createTask u title description parent
                         dueDate priority status db).2)
  ∧ (∀ p u title description dueDate priority,
       same_owner_edges (TaskController.createSubtask p u title description
                           dueDate priority db).2)
  ∧ (∀ t u, same_owner_edges (TaskController.deleteTask t u db).2)
  ∧ (∀ t d u, same_owner_edges (TaskController.addDependency t d u db).2)
  ∧ (∀ t d u, same_owner_edges (TaskController.removeDependency t d u db).2)
  ∧ (∀ t u, same_owner_edges (TaskController.markAsCompleted t u db).2).
Proof.
  intros Hedges. split; [|split; [|split; [|split; [|split]]]].
  - intros u title description parent dueDate priority status.
    destruct (createTask_store u title description parent dueDate priority
                status db) as [-> | [-> _]]; [done|].
    by apply create_same_owner.
  - intros p u title description dueDate priority.
    destruct (createSubtask_store p u title description dueDate priority db)
      as [-> | [-> _]]; [done|].
    by apply create_same_owner.
  - intros t u. rewrite deleteTask_store.
    destruct (Store.select_task t u db); [|done].
    intros a b [[Ha Hb] Hin]%list_elem_of_filter. simpl in *.
    destruct (Hedges a b Hin) as (w & Hwa & Hwb). exists w.
    assert (∀ y, y ∉ Store.cascade (tasks db) t → owner_of db y = Some w →
                 owner_of
                   (mkDb (users db)
                      (filter (λ kv, kv.1 ∉ Store.cascade (tasks db) t)
                         (tasks db))
                      (tasks_id_seq db)
                      (filter (λ e, (e.1 ∉ Store.cascade (tasks db) t)
                                    ∧ (e.2 ∉ Store.cascade (tasks db) t))
                         (task_dependencies db))) y = Some w) as Hkeep.
    { intros y Hy Hw. unfold owner_of in *. simpl.
      destruct (tasks db !! y) as [r|] eqn:Hr; [|done].
      by rewrite (proj2 (map_lookup_filter_Some _ _ y r)). }
    split; by apply Hkeep.
  - intros t d u.
    destruct (addDependency_store_owned db t d u)
      as [-> | (_ & Ht & Hd & ->)]; [done|].
    eapply same_but_statuses_same_owner;
      [apply same_but_statuses_recompute|].
    intros a b [Hin|[= -> ->]%list_elem_of_singleton]%elem_of_app.
    + by apply Hedges.
    + exists u. split; by apply owner_of_select.
  - intros t d u.
    destruct (removeDependency_store t d u db) as [-> | ->]; [done|].
    eapply same_but_statuses_same_owner;
      [apply same_but_statuses_recompute|].
    intros a b [_ Hin]%list_elem_of_filter. by apply Hedges.
  - intros t u. eapply same_but_statuses_same_owner; [|done].
    apply same_but_statuses_markAsCompleted.
Qed.

(** *** Deciding the invariants on a given store *)

Lemma referential_integrity_alt db :
  referential_integrity db
  ↔ map_Forall (λ _ r, parent_exists db r) (tasks db)
    ∧ Forall (λ e, is_Some (tasks db !! e.1) ∧ is_Some (tasks db !! e.2))
             (task_dependencies db)
    ∧ map_Forall (λ _ r, owner_exists db r) (tasks db).
Proof.
  unfold referential_integrity, map_Forall, parent_exists, owner_exists.
  rewrite Forall_forall. split.
  - intros (Hp & He & Ho). split; [|split].
    + intros y r Hr. destruct (parent_task_id r) eqn:E; [|done].
      by eapply Hp.
    + intros [a b] Hin. by apply He.
    + intros y r Hr. destruct (user_id r) eqn:E; [|done]. by eapply Ho.
  - intros (Hp & He & Ho). split; [|split].
    + intros y r p Hr Hpr. specialize (Hp y r Hr). by rewrite Hpr in Hp.
    + intros a b Hin. by apply (He (a, b)).
    + intros y r w Hr Hw. specialize (Ho y r Hr). by rewrite Hw in Ho.
Qed.

#[global] Instance referential_integrity_dec db :
  Decision (referential_integrity db).
Proof.
  destruct (decide (map_Forall (λ _ r, parent_exists db r) (tasks db)
                    ∧ Forall (λ e, is_Some (tasks db !! e.1)
                                   ∧ is_Some (tasks db !! e.2))
                             (task_dependencies db)
                    ∧ map_Forall (λ _ r, owner_exists db r) (tasks db)));
    [left|right]; by rewrite referential_integrity_alt.
Defined.

#[global] Instance hierarchy_ok_dec db : Decision (hierarchy_ok db).
Proof. unfold hierarchy_ok. apply _. Defined.

Lemma same_owner_edges_alt db :
  same_owner_edges db
  ↔ Forall (λ e, is_Some (owner_of db e.1)
                 ∧ owner_of db e.1 = owner_of db e.2)
           (task_dependencies db).
Proof.
  unfold same_owner_edges. rewrite Forall_forall. split.
  - intros H [a b] Hin. destruct (H a b Hin) as (w & Ha & Hb). simpl.
    rewrite Ha, Hb. by split.
  - intros H a b Hin. destruct (H (a, b) Hin) as [[w Hw] Heq]. simpl in *.
    exists w. split; congruence.
Qed.

#[global] Instance same_owner_edges_dec db : Decision (same_owner_edges db).
Proof.
  destruct (decide (Forall (λ e, is_Some (owner_of db e.1)
                                 ∧ owner_of db e.1 = owner_of db e.2)
                           (task_dependencies db)));
    [left|right]; by rewrite same_owner_edges_alt.
Defined.

(** Task 3 under task 2 under task 1, as the update of [family_db] leaves
    it: the delete of task 1 removes all three. *)
Lemma deleteTask_keeps_references_witness :
  let nested := (TaskController.updateTask 3 1
                   [("parent_task_id", Some (VInt 2))] family_db).2 in
  referential_integrity (TaskController.deleteTask 1 1 nested).2
  ∧ tasks (TaskController.deleteTask 1 1 nested).2 = ∅.
Proof.
  cbv zeta. split.
  - apply (deleteTask_keeps_references _ 1 1).
    apply (bool_decide_unpack _). by vm_compute.
  - by vm_compute.
Defined.

Lemma handlers_keep_hierarchy_witness :
  hierarchy_ok (TaskController.createSubtask 1 1 "s" None None None
                  chain_db).2
  ∧ hierarchy_ok (TaskController.deleteTask 2 1 chain_db).2.
Proof.
  assert (hierarchy_ok chain_db) as Hok
    by (apply (bool_decide_unpack _); by vm_compute).
  destruct (handlers_keep_hierarchy chain_db Hok)
    as (_ & Hsub & Hdel & _).
  split; [apply Hsub|apply Hdel].
Defined.

Lemma handlers_keep_edges_within_owner_witness :
  same_owner_edges (TaskController.addDependency 1 3 1 chain_db).2
  ∧ same_owner_edges (TaskController.deleteTask 3 1 chain_db).2.
Proof.
  assert (same_owner_edges chain_db) as Hok
    by (apply (bool_decide_unpack _); by vm_compute).
  destruct (handlers_keep_edges_within_owner chain_db Hok)
    as (_ & _ & Hdel & Hadd & _).
  split; [apply Hadd|apply Hdel].
Defined.

(** ** The outcomes of a request to create a task *)

(** X16: a request to create a task under a parent that is not a task of
    the caller, for a parent id that the id column can hold, is answered
    404, under a parent that has a parent itself 400, and neither writes.  Otherwise, for an existing user and a free next id,
    the answer is 201: the new row has the next id, the caller as owner, the
    fields of the body, Medium and To Do where the body gives no priority or
    status, and the caller finds it under that id. *)
Theorem createTask_outcomes db u title description parent dueDate priority
    status :
  (∀ p, parent = Some p → p ≠ 0 → int4 p →
     Store.select_task p u db = None →
     TaskController.createTask u title description parent dueDate priority
       status db
     = (mkResponse 404 (ErrorBody "Parent task not found"), db))
  ∧ (∀ p rp g, parent = Some p → p ≠ 0 →
       Store.select_task p u db = Some rp →
       parent_task_id rp = Some g → g ≠ 0 →
       TaskController.createTask u title description parent dueDate priority
         status db
       = (mkResponse 400 (ErrorBody "Invalid parent task"), db))
  ∧ (parent = None
     ∨ (∃ p rp, parent = Some p ∧ p ≠ 0
                ∧ Store.select_task p u db = Some rp
                ∧ parent_task_id rp = None) →
     u ∈ users db → tasks db !! tasks_id_seq db = None →
     let id := tasks_id_seq db in
     let r := mkTask (Some u) title description parent dueDate
                (default Medium priority) (default ToDo status) in
     TaskController.createTask u title description parent dueDate priority
       status db
     = (mkResponse 201 (TaskBody (id, r)),
        mkDb (users db) (<[id := r]> (tasks db)) (id + 1)
             (task_dependencies db))
     ∧ Store.select_task id u
         (mkDb (users db) (<[id := r]> (tasks db)) (id + 1)
               (task_dependencies db)) = Some r).
Proof.
  split; [|split].
  - intros p -> Hp _ Hsel.
    unfold TaskController.createTask, TaskController.handle, Task.findById,
      TaskController.reply, TaskController.truthy, bind, query, ret.
    rewrite bool_decide_eq_true_2 by done. simpl. by rewrite Hsel.
  - intros p rp g -> Hp Hsel Hg Hg0.
    by apply (createTask_nested_parent_rejected db u p rp g).
  - intros Hparent Hu Hfresh. cbv zeta.
    assert (TaskController.createTask u title description parent dueDate
              priority status db
            = TaskController.handle
                (let! task := Task.create
                                (Task.mkTaskData u title description parent
                                   dueDate priority status) in
                 TaskController.reply 201 (TaskBody task))
                (λ _, TaskController.failure 500 "Failed to create task") db)
      as ->.
    { unfold TaskController.createTask, TaskController.handle, Task.findById,
        TaskController.reply, TaskController.truthy, bind, query, ret.
      destruct Hparent as [->|(p & rp & -> & Hp & Hsel & Hroot)]; [done|].
      rewrite bool_decide_eq_true_2 by done. simpl. rewrite Hsel, Hroot.
      done. }
    assert (Store.references_ok (tasks db) db (tasks_id_seq db)
              (mkTask (Some u) title description parent dueDate
                 (default Medium priority) (default ToDo status)) = true)
      as Hrefs.
    { unfold Store.references_ok. simpl.
      rewrite (bool_decide_eq_true_2 (u ∈ users db)) by done. simpl.
      destruct Hparent as [->|(p & rp & -> & Hp & Hsel & Hroot)]; [done|].
      apply select_task_Some in Hsel as [Hrp _].
      rewrite (bool_decide_eq_true_2 (is_Some _)) by (by eexists).
      apply orb_true_r. }
    split.
    + unfold TaskController.handle, Task.create, Store.insert_task,
        TaskController.reply, bind, ret. simpl.
      rewrite Hrefs. simpl. rewrite Hfresh.
      by rewrite decide_False by (by intros [? ?]).
    + apply select_task_Some. simpl. by rewrite lookup_insert_eq.
Qed.

Lemma createTask_outcomes_witness :
  TaskController.createTask 1 "a" None (Some 9) None None None family_db
  = (mkResponse 404 (ErrorBody "Parent task not found"), family_db)
  ∧ TaskController.createTask 1 "a" None (Some 2) None None None family_db
    = (mkResponse 400 (ErrorBody "Invalid parent task"), family_db)
  ∧ TaskController.createTask 1 "a" None (Some 3) None None None family_db
    = (mkResponse 201
         (TaskBody (4, mkTask (Some 1) "a" None (Some 3) None Medium ToDo)),
       mkDb (users family_db)
            (<[4 := mkTask (Some 1) "a" None (Some 3) None Medium ToDo]>
               (tasks family_db))
            5 (task_dependencies family_db)).
Proof.
  destruct (createTask_outcomes family_db 1 "a" None (Some 9) None None None)
    as (Hmissing & _ & _).
  destruct (createTask_outcomes family_db 1 "a" None (Some 2) None None None)
    as (_ & Hnested & _).
  destruct (createTask_outcomes family_db 1 "a" None (Some 3) None None None)
    as (_ & _ & Hcreated).
  split; [|split].
  - by apply (Hmissing 9).
  - by apply (Hnested 2 (row (Some 1) ToDo) 1).
  - apply Hcreated; [|by vm_compute|reflexivity].
    right. exists 3, (row None ToDo). by repeat split.
Defined.

(** ** The helpers of the detail page against the server *)






(** ** The tree view: [getTaskTree] *)
Lemma depth_is_unique u db i j t :
  depth_is u db i t → depth_is u db j t → i = j.
Proof.
  revert j t. induction i as [|i IH]; intros [|j] t; simpl;
    intros (r & Hr & Hu & H1) (r' & Hr' & Hu' & H2); simplify_eq; try done.
  - destruct H2 as (p & Hp & _). congruence.
  - destruct H1 as (p & Hp & _). congruence.
  - destruct H1 as (p & Hp & H1), H2 as (p' & Hp' & H2). simplify_eq.
    f_equal. eauto.
Qed.

Lemma depth_is_lookup u db k t :
  depth_is u db k t → ∃ r, tasks db !! t = Some r ∧ user_id r = Some u.
Proof. destruct k; simpl; naive_solver. Qed.

Lemma ancestors_depth u db k t x :
  depth_is u db k t → x ∈ ancestors db k t →
  ∃ j, (j ≤ k)%nat ∧ depth_is u db j x.
Proof.
  revert t. induction k as [|k IH]; intros t Hd Hx.
  - simpl in Hx. apply list_elem_of_singleton in Hx as ->. exists 0%nat. done.
  - pose proof Hd as Hd'. simpl in Hd'.
    destruct Hd' as (r & Hr & Hu & p & Hp & Hdp).
    simpl in Hx. rewrite Hr in Hx. simpl in Hx. rewrite Hp in Hx.
    apply elem_of_app in Hx as [Hx|Hx].
    + destruct (IH p Hdp Hx) as (j & Hj & Hdj). exists j. split; [lia|done].
    + apply list_elem_of_singleton in Hx as ->. exists (S k). done.
Qed.

Lemma ancestors_NoDup u db k t :
  depth_is u db k t → NoDup (ancestors db k t).
Proof.
  revert t. induction k as [|k IH]; intros t Hd.
  - simpl. apply NoDup_singleton.
  - pose proof Hd as Hd'. simpl in Hd'.
    destruct Hd' as (r & Hr & Hu & p & Hp & Hdp).
    simpl. rewrite Hr. simpl. rewrite Hp.
    apply NoDup_app. split; [by apply IH|]. split; [|apply NoDup_singleton].
    intros x Hx Hxt. apply list_elem_of_singleton in Hxt as ->.
    destruct (ancestors_depth _ _ _ _ _ Hdp Hx) as (j & Hj & Hdj).
    pose proof (depth_is_unique _ _ _ _ _ Hdj Hd). lia.
Qed.

Lemma ancestors_length u db k t :
  depth_is u db k t → length (ancestors db k t) = S k.
Proof.
  revert t. induction k as [|k IH]; intros t Hd; [done|].
  simpl in Hd. destruct Hd as (r & Hr & Hu & p & Hp & Hdp).
  simpl. rewrite Hr. simpl. rewrite Hp. rewrite length_app, (IH p Hdp).
  simpl. lia.
Qed.

Lemma depth_is_bound u db k t :
  depth_is u db k t → (k < size (tasks db))%nat.
Proof.
  intros Hd.
  assert (list_to_set (ancestors db k t) ⊆ dom (tasks db)) as Hsub.
  { intros x Hx. apply elem_of_list_to_set in Hx.
    destruct (ancestors_depth _ _ _ _ _ Hd Hx) as (j & _ & Hdj).
    destruct (depth_is_lookup _ _ _ _ Hdj) as (r & Hr & _).
    apply elem_of_dom. by exists r. }
  apply subseteq_size in Hsub.
  rewrite size_list_to_set in Hsub by eauto using ancestors_NoDup.
  rewrite (ancestors_length u) in Hsub by done.
  rewrite size_dom in Hsub. lia.
Qed.

Lemma elem_of_anchor u db row :
  row ∈ TaskTree.anchor u db ↔
  tasks db !! TaskTree.tree_id row = Some (TaskTree.tree_task row)
  ∧ user_id (TaskTree.tree_task row) = Some u
  ∧ parent_task_id (TaskTree.tree_task row) = None
  ∧ TaskTree.level row = 0%nat
  ∧ TaskTree.path row = [TaskTree.tree_id row].
Proof.
  unfold TaskTree.anchor. rewrite list_elem_of_fmap. split.
  - intros ([i r] & -> & Hin). apply list_elem_of_filter in Hin as [[] Hin].
    apply elem_of_map_to_list in Hin. done.
  - destruct row as [i r l p]. simpl. intros (Hl & Hu & Hp & -> & ->).
    exists (i, r). split; [done|]. apply list_elem_of_filter. split; [done|].
    by apply elem_of_map_to_list.
Qed.

Lemma elem_of_subtasks_of u db tt row :
  row ∈ TaskTree.subtasks_of u db tt ↔
  tasks db !! TaskTree.tree_id row = Some (TaskTree.tree_task row)
  ∧ user_id (TaskTree.tree_task row) = Some u
  ∧ parent_task_id (TaskTree.tree_task row) = Some (TaskTree.tree_id tt)
  ∧ TaskTree.level row = S (TaskTree.level tt)
  ∧ TaskTree.path row = TaskTree.path tt ++ [TaskTree.tree_id row].
Proof.
  unfold TaskTree.subtasks_of. rewrite list_elem_of_fmap. split.
  - intros ([i r] & -> & Hin). apply list_elem_of_filter in Hin as [[] Hin].
    apply elem_of_map_to_list in Hin. done.
  - destruct row as [i r l p]. simpl. intros (Hl & Hu & Hp & -> & ->).
    exists (i, r). split; [done|]. apply list_elem_of_filter. split; [done|].
    by apply elem_of_map_to_list.
Qed.

Lemma level_rows_spec u db k row :
  row ∈ level_rows u db k ↔
  tasks db !! TaskTree.tree_id row = Some (TaskTree.tree_task row)
  ∧ TaskTree.level row = k
  ∧ depth_is u db k (TaskTree.tree_id row)
  ∧ TaskTree.path row = ancestors db k (TaskTree.tree_id row).
Proof.
  revert row. induction k as [|k IH]; intros row.
  - unfold level_rows. simpl. rewrite elem_of_anchor. split.
    + intros (Hl & Hu & Hp & Hlev & Hpath). split; [done|]. split; [done|].
      split; [|done]. by exists (TaskTree.tree_task row).
    + intros (Hl & Hlev & (r & Hr & Hu & Hp) & Hpath). simplify_eq. done.
  - unfold level_rows. rewrite Nat.iter_succ. fold (level_rows u db k).
    unfold TaskTree.recursive_term. rewrite list_elem_of_bind. split.
    + intros (tt & Hrow & Htt). apply IH in Htt as (Htl & Hlev & Hd & Hpath).
      apply elem_of_subtasks_of in Hrow as (Hl & Hu & Hp & Hlev' & Hpath').
      split; [done|]. split; [congruence|]. split.
      * exists (TaskTree.tree_task row). split; [done|]. split; [done|].
        exists (TaskTree.tree_id tt). split; [done|]. done.
      * simpl. rewrite Hl. simpl. rewrite Hp. by rewrite Hpath', Hpath.
    + intros (Hl & Hlev & Hd & Hpath). pose proof Hd as Hd'. simpl in Hd'.
      destruct Hd' as (r & Hr & Hu & p & Hp & Hdp). simplify_eq.
      destruct (depth_is_lookup _ _ _ _ Hdp) as (rp & Hrp & _).
      exists (TaskTree.mkTreeRow p rp k (ancestors db k p)). split.
      * apply elem_of_subtasks_of. simpl. split; [done|]. split; [done|].
        split; [done|]. split; [done|].
        rewrite Hpath. simpl. rewrite Hl. simpl. by rewrite Hp.
      * apply IH. done.
Qed.

Lemma children_NoDup (P : Z * TaskRow → Prop) `{∀ kv, Decision (P kv)}
    (g : Z * TaskRow → TaskTree.TreeRow) (m : gmap Z TaskRow) :
  (∀ kv, TaskTree.tree_id (g kv) = kv.1) →
  NoDup (TaskTree.tree_id <$> (g <$> filter P (map_to_list m))).
Proof.
  intros Hg. rewrite <- list_fmap_compose.
  rewrite (list_fmap_ext _ fst (filter P (map_to_list m)))
    by (intros ? kv _; apply Hg).
  eapply sublist_NoDup; [apply (NoDup_fst_map_to_list m)|].
  apply fmap_sublist, sublist_filter.
Qed.

Lemma recursive_term_NoDup u db W :
  NoDup (TaskTree.tree_id <$> W) →
  NoDup (TaskTree.tree_id <$> TaskTree.recursive_term u db W).
Proof.
  induction W as [|tt W IH]; [intros _; apply NoDup_nil_2|].
  rewrite fmap_cons, NoDup_cons. intros [Htt HW].
  unfold TaskTree.recursive_term. rewrite bind_cons, fmap_app.
  apply NoDup_app. split; [|split; [|by apply IH]].
  - unfold TaskTree.subtasks_of. by apply children_NoDup.
  - intros x Hx Hx'. apply list_elem_of_fmap in Hx as (row & -> & Hrow).
    apply list_elem_of_fmap in Hx' as (row' & Heq & Hrow').
    apply list_elem_of_bind in Hrow' as (tt' & Hrow' & Htt').
    apply elem_of_subtasks_of in Hrow as (Hl & _ & Hp & _).
    apply elem_of_subtasks_of in Hrow' as (Hl' & _ & Hp' & _).
    rewrite Heq in Hl. simplify_eq. apply Htt.
    apply list_elem_of_fmap. exists tt'. split; [congruence|done].
Qed.

Lemma level_rows_NoDup u db k :
  NoDup (TaskTree.tree_id <$> level_rows u db k).
Proof.
  induction k as [|k IH].
  - unfold level_rows, TaskTree.anchor. simpl. by apply children_NoDup.
  - unfold level_rows. rewrite Nat.iter_succ. by apply recursive_term_NoDup.
Qed.

Lemma level_rows_disjoint u db i j x :
  x ∈ TaskTree.tree_id <$> level_rows u db i →
  x ∈ TaskTree.tree_id <$> level_rows u db j → i = j.
Proof.
  intros (row & -> & Hrow)%list_elem_of_fmap (row' & Heq & Hrow')%list_elem_of_fmap.
  apply level_rows_spec in Hrow as (_ & _ & Hd & _).
  apply level_rows_spec in Hrow' as (_ & _ & Hd' & _).
  rewrite <- Heq in Hd'. eapply depth_is_unique; eauto.
Qed.

Lemma level_rows_empty u db : level_rows u db (size (tasks db)) = [].
Proof.
  apply elem_of_nil_inv. intros row Hrow.
  apply level_rows_spec in Hrow as (_ & _ & Hd & _).
  apply depth_is_bound in Hd. lia.
Qed.

Lemma recursive_term_iter_nil u db i :
  Nat.iter i (TaskTree.recursive_term u db) [] = [].
Proof. induction i as [|i IH]; [done|]. rewrite Nat.iter_succ, IH. done. Qed.

Lemma task_tree_spec u db rounds working :
  (∃ j, (j < rounds)%nat
        ∧ Nat.iter j (TaskTree.recursive_term u db) working = []) →
  ∃ rows,
    TaskTree.task_tree rounds u db working = Some rows
    ∧ (∀ row, row ∈ rows ↔
         ∃ i, row ∈ Nat.iter i (TaskTree.recursive_term u db) working)
    ∧ ((∀ i, NoDup (TaskTree.tree_id <$>
                      Nat.iter i (TaskTree.recursive_term u db) working)) →
       (∀ i j x,
          x ∈ TaskTree.tree_id <$>
                Nat.iter i (TaskTree.recursive_term u db) working →
          x ∈ TaskTree.tree_id <$>
                Nat.iter j (TaskTree.recursive_term u db) working → i = j) →
       NoDup (TaskTree.tree_id <$> rows)).
Proof.
  revert working. induction rounds as [|n IH]; intros working (j & Hj & Hnil);
    [lia|].
  destruct working as [|w ws].
  - exists []. split; [done|]. split; [|intros; apply NoDup_nil_2].
    intros row. split; [by intros ?%elem_of_nil|].
    intros (i & Hi). by rewrite recursive_term_iter_nil in Hi.
  - destruct j as [|j]; [done|]. rewrite Nat.iter_succ_r in Hnil.
    destruct (IH (TaskTree.recursive_term u db (w :: ws))) as
      (rows & Hrun & Hmem & Hnd); [exists j; split; [lia|done]|].
    exists ((w :: ws) ++ rows). split; [|split].
    + change (TaskTree.task_tree (S n) u db (w :: ws)) with
        (app (w :: ws) <$>
           TaskTree.task_tree n u db
             (TaskTree.recursive_term u db (w :: ws))).
      by rewrite Hrun.
    + intros row. rewrite elem_of_app, Hmem. split.
      * intros [Hin|(i & Hi)]; [by exists 0%nat|].
        exists (S i). by rewrite Nat.iter_succ_r.
      * intros ([|i] & Hi); [by left|]. right. exists i.
        by rewrite <- Nat.iter_succ_r.
    + intros Hlev Hdis. rewrite fmap_app. apply NoDup_app. split; [|split].
      * apply (Hlev 0%nat).
      * intros x Hx Hx'. apply list_elem_of_fmap in Hx' as (row & -> & Hrow).
        apply Hmem in Hrow as (i & Hi).
        assert (0%nat = S i) as Habs; [|done].
        apply (Hdis 0%nat (S i) (TaskTree.tree_id row)); [done|].
        rewrite Nat.iter_succ_r. apply list_elem_of_fmap. by exists row.
      * apply Hnd.
        -- intros i. rewrite <- Nat.iter_succ_r. apply Hlev.
        -- intros i i' x Hx Hx'. rewrite <- Nat.iter_succ_r in Hx, Hx'.
           pose proof (Hdis _ _ _ Hx Hx'). lia.
Qed.

Lemma getTaskTree_spec u db :
  ∃ rows,
    TaskTree.getTaskTree_run u db = Some rows
    ∧ TaskTree.getTaskTree u db = rows
    ∧ (∀ row, row ∈ rows ↔ ∃ k, row ∈ level_rows u db k)
    ∧ NoDup (TaskTree.tree_id <$> rows).
Proof.
  destruct (task_tree_spec u db (S (size (tasks db))) (TaskTree.anchor u db))
    as (rows & Hrun & Hmem & Hnd).
  { exists (size (tasks db)). split; [lia|]. apply level_rows_empty. }
  exists rows. unfold TaskTree.getTaskTree, TaskTree.getTaskTree_run.
  rewrite Hrun. split; [done|]. split; [done|]. split; [done|].
  apply Hnd.
  - intros i. apply level_rows_NoDup.
  - intros i j x. apply level_rows_disjoint.
Qed.

Lemma elem_of_getTaskTree u db row :
  row ∈ TaskTree.getTaskTree u db ↔
  tasks db !! TaskTree.tree_id row = Some (TaskTree.tree_task row)
  ∧ depth_is u db (TaskTree.level row) (TaskTree.tree_id row)
  ∧ TaskTree.path row
    = ancestors db (TaskTree.level row) (TaskTree.tree_id row).
Proof.
  destruct (getTaskTree_spec u db) as (rows & _ & -> & Hmem & _).
  rewrite Hmem. split.
  - intros (k & (Hl & <- & Hd & Hpath)%level_rows_spec). done.
  - intros (Hl & Hd & Hpath). exists (TaskTree.level row).
    by apply level_rows_spec.
Qed.

(** X19: the recursive query of [getTaskTree] ends on every store, also one
    whose parent links form a cycle: the working table is empty after at
    most as many rounds as there are tasks. *)
Theorem getTaskTree_returns userId db :
  ∃ rows,
    TaskTree.task_tree (S (size (tasks db))) userId db
      (TaskTree.anchor userId db) = Some rows
    ∧ TaskTree.getTaskTree userId db = rows.
Proof.
  destruct (getTaskTree_spec userId db) as (rows & Hrun & Hget & _).
  exists rows. done.
Qed.

(** X20: the rows of [getTaskTree].  No task is listed twice, and a row is
    listed exactly when it is a task of the user that lies [level] levels
    below a root task through tasks of the user only; its [path] then holds
    the ids from that root down to the task. *)
Theorem getTaskTree_rows userId db :
  NoDup (TaskTree.tree_id <$> TaskTree.getTaskTree userId db)
  ∧ ∀ row,
      row ∈ TaskTree.getTaskTree userId db ↔
      tasks db !! TaskTree.tree_id row = Some (TaskTree.tree_task row)
      ∧ depth_is userId db (TaskTree.level row) (TaskTree.tree_id row)
      ∧ TaskTree.path row
        = ancestors db (TaskTree.level row) (TaskTree.tree_id row).
Proof.
  split; [|apply elem_of_getTaskTree].
  destruct (getTaskTree_spec userId db) as (rows & _ & -> & _ & Hnd). done.
Qed.

Lemma getTaskTree_two_levels u db row :
  single_level db → row ∈ TaskTree.getTaskTree u db →
  (TaskTree.level row ≤ 1)%nat.
Proof.
  intros Hsingle (Hl & Hd & _)%elem_of_getTaskTree.
  destruct (TaskTree.level row) as [|[|k]]; [lia|lia|].
  simpl in Hd.
  destruct Hd as (r & Hr & _ & p & Hp & rp & Hrp & _ & g & Hg & _).
  pose proof (Hsingle _ _ Hr) as Hroot. unfold parent_is_root in Hroot.
  rewrite Hp, Hrp in Hroot. congruence.
Qed.

Lemma getTaskTree_complete u db t r :
  single_level db → subtasks_with_parent_owner db →
  tasks db !! t = Some r → user_id r = Some u →
  TaskTree.mkTreeRow t r
    (match parent_task_id r with Some _ => 1%nat | None => 0%nat end)
    (match parent_task_id r with Some p => [p; t] | None => [t] end)
  ∈ TaskTree.getTaskTree u db.
Proof.
  intros Hsingle Howner Hr Hu. apply elem_of_getTaskTree. simpl.
  split; [done|].
  destruct (parent_task_id r) as [p|] eqn:Hp.
  - pose proof (Howner _ _ Hr) as Hpo. simpl in Hpo. rewrite Hp in Hpo.
    unfold owner_of in Hpo.
    destruct (tasks db !! p) as [rp|] eqn:Hrp; simpl in Hpo; [|congruence].
    pose proof (Hsingle _ _ Hr) as Hroot. unfold parent_is_root in Hroot.
    rewrite Hp, Hrp in Hroot. split.
    + exists r. split; [done|]. split; [done|]. exists p. split; [done|].
      exists rp. split; [done|]. split; [congruence|done].
    + simpl. rewrite Hr. simpl. by rewrite Hp.
  - split; [|done]. exists r. done.
Qed.

(** X21: in a store whose nesting is one level deep and whose subtasks
    belong to the owner of their parent, the tree of a user has two levels
    at most and lists every task of the user: a root task at level 0, a
    subtask at level 1 below its parent.  The [count] of the response is
    then the number of tasks of the user. *)
Theorem getTaskTree_lists_every_task userId db :
  single_level db → subtasks_with_parent_owner db →
  (∀ row, row ∈ TaskTree.getTaskTree userId db →
          (TaskTree.level row ≤ 1)%nat)
  ∧ (∀ t r, tasks db !! t = Some r → user_id r = Some userId →
       TaskTree.mkTreeRow t r
         (match parent_task_id r with Some _ => 1%nat | None => 0%nat end)
         (match parent_task_id r with Some p => [p; t] | None => [t] end)
       ∈ TaskTree.getTaskTree userId db)
  ∧ length (TaskTree.getTaskTree userId db)
    = size (filter (λ kv, user_id kv.2 = Some userId) (tasks db)).
Proof.
  intros Hsingle Howner.
  split; [intros row; by apply getTaskTree_two_levels|].
  split; [intros t r; by apply getTaskTree_complete|].
  destruct (getTaskTree_spec userId db) as (rows & _ & Hget & _ & Hnd).
  rewrite <- Hget in Hnd.
  rewrite <- (length_fmap TaskTree.tree_id).
  rewrite <- (size_list_to_set (C := gset Z)) by done.
  rewrite <- size_dom. f_equal. apply set_eq. intros x.
  rewrite elem_of_list_to_set, list_elem_of_fmap, elem_of_dom. split.
  - intros (row & -> & (Hl & Hd & _)%elem_of_getTaskTree).
    destruct (depth_is_lookup _ _ _ _ Hd) as (r & Hr & Hu).
    exists r. by apply map_lookup_filter_Some.
  - intros (r & [Hr Hu]%map_lookup_filter_Some). simpl in Hu.
    eexists. split; [|by apply (getTaskTree_complete userId db x r)]. done.
Qed.

Lemma getTaskTree_lists_every_task_witness :
  TaskTree.mkTreeRow 2 (row (Some 1) ToDo) 1 [1; 2]
  ∈ TaskTree.getTaskTree 1 family_db.
Proof.
  destruct (getTaskTree_lists_every_task 1 family_db) as (_ & Hall & _).
  - apply (bool_decide_unpack _). by vm_compute.
  - apply (bool_decide_unpack _). by vm_compute.
  - apply (Hall 2 (row (Some 1) ToDo)); done.
Defined.

Lemma update_parent_task_id t u p db r :
  Store.select_task t u db = Some r → p = t ∨ is_Some (tasks db !! p) →
  Task.update t u [("parent_task_id", Some (VInt p))] db
  = (Returned (Some (t, with_parent (Some p) r)),
     with_tasks (<[t := with_parent (Some p) r]> (tasks db)) db).
Proof.
  intros Hsel Hp. unfold Task.update, Store.update_task. simpl.
  rewrite Hsel. simpl. unfold Store.references_kept. simpl.
  rewrite (bool_decide_eq_true_2 (user_id r = user_id r)) by done.
  assert (bool_decide (p = t)
          || bool_decide (is_Some (base.delete t (tasks db) !! p)) = true)
    as ->.
  { destruct (decide (p = t)) as [->|Hne].
    - by rewrite bool_decide_eq_true_2.
    - destruct Hp as [?|Hp]; [done|]. rewrite lookup_delete_ne by done.
      rewrite (bool_decide_eq_true_2 _ Hp). apply orb_true_r. }
  rewrite orb_true_r. simpl. by rewrite bool_decide_eq_true_2.
Qed.

(** X22: the update takes any existing task as the new parent.  With the
    task of another user as its parent, the task is answered 200 and is
    then listed in the tree of no user, its owner included. *)
Theorem updateTask_hides_task_from_tree db t u p r rp :
  Store.select_task t u db = Some r →
  tasks db !! p = Some rp → user_id rp ≠ Some u →
  let res := TaskController.updateTask t u
               [("parent_task_id", Some (VInt p))] db in
  res.1 = mkResponse 200 (TaskBody (t, with_parent (Some p) r))
  ∧ Store.select_task t u res.2 = Some (with_parent (Some p) r)
  ∧ ∀ v row, row ∈ TaskTree.getTaskTree v res.2 → TaskTree.tree_id row ≠ t.
Proof.
  intros Hsel Hp Hrp.
  assert (tasks db !! t = Some r ∧ user_id r = Some u) as [Ht Hu].
  { unfold Store.select_task in Hsel. destruct (tasks db !! t); [|done].
    case_decide; by simplify_eq. }
  assert (p ≠ t) as Hne by (intros ->; congruence).
  unfold TaskController.updateTask, TaskController.handle, Task.findById,
    TaskController.reply, bind, query, exec, throw, ret.
  rewrite Hsel. simpl.
  rewrite (update_parent_task_id t u p db r) by (try done; right; by eexists).
  simpl.
  split; [done|]. split.
  - unfold Store.select_task. simpl. rewrite lookup_insert_eq. simpl.
    by rewrite decide_True.
  - intros v row (Hl & Hd & _)%elem_of_getTaskTree Heq. rewrite Heq in Hl, Hd.
    simpl in Hl. rewrite lookup_insert_eq in Hl.
    destruct (TaskTree.level row) as [|k]; simpl in Hd.
    + destruct Hd as (r' & Hr' & _ & Hnone).
      rewrite lookup_insert_eq in Hr'. by simplify_eq.
    + destruct Hd as (r' & Hr' & Hv & p' & Hp' & Hd).
      rewrite lookup_insert_eq in Hr'. simplify_eq. simpl in Hv, Hp'.
      simplify_eq.
      destruct (depth_is_lookup _ _ _ _ Hd) as (rp' & Hrp' & Hurp).
      simpl in Hrp'. rewrite lookup_insert_ne in Hrp' by done. congruence.
Qed.

Lemma updateTask_hides_task_from_tree_witness :
  let res := TaskController.updateTask 1 1
               [("parent_task_id", Some (VInt 2))] two_owners_db in
  res.1 = mkResponse 200 (TaskBody (1, row (Some 2) ToDo))
  ∧ Store.select_task 1 1 res.2 = Some (row (Some 2) ToDo)
  ∧ ∀ v row, row ∈ TaskTree.getTaskTree v res.2 → TaskTree.tree_id row ≠ 1.
Proof.
  apply (updateTask_hides_task_from_tree two_owners_db 1 1 2
           (row None ToDo) (with_owner (Some 2) (row None ToDo)));
    [done|done|by vm_compute].
Defined.

(** X23: the update takes the task itself or one of its own subtasks as the
    new parent.  The request is answered 200, and the task and that subtask
    are then listed in the tree of no user. *)
Theorem updateTask_parent_cycle_hides db t u p r :
  Store.select_task t u db = Some r →
  (p = t ∨ ∃ rp, tasks db !! p = Some rp ∧ parent_task_id rp = Some t) →
  let res := TaskController.updateTask t u
               [("parent_task_id", Some (VInt p))] db in
  res.1 = mkResponse 200 (TaskBody (t, with_parent (Some p) r))
  ∧ ∀ v row, row ∈ TaskTree.getTaskTree v res.2 →
             TaskTree.tree_id row ≠ t ∧ TaskTree.tree_id row ≠ p.
Proof.
  intros Hsel Hp.
  unfold TaskController.updateTask, TaskController.handle, Task.findById,
    TaskController.reply, bind, query, exec, throw, ret.
  rewrite Hsel. simpl.
  assert (p = t ∨ is_Some (tasks db !! p)) as Hknown.
  { destruct Hp as [?|(rp & ? & _)]; [by left|right; by eexists]. }
  rewrite (update_parent_task_id t u p db r) by done.
  simpl. split; [done|].
  set (db' := with_tasks (<[t := with_parent (Some p) r]> (tasks db)) db).
  assert (∀ v k, depth_is v db' k t → ∃ k', k = S k' ∧ depth_is v db' k' p)
    as Hup.
  { intros v [|k]; simpl; intros (r' & Hr' & _ & Hd);
      rewrite lookup_insert_eq in Hr'; simplify_eq; simpl in Hd; try done.
    destruct Hd as (p' & Hp' & Hd). simplify_eq. by exists k. }
  assert (∀ v k, ¬ depth_is v db' k t) as Hnot.
  { intros v k Hd. destruct (Hup v k Hd) as (k' & -> & Hd').
    destruct Hp as [->|(rp & Hrp & Hpar)].
    - pose proof (depth_is_unique _ _ _ _ _ Hd Hd'). lia.
    - destruct (decide (p = t)) as [->|Hne].
      + pose proof (depth_is_unique _ _ _ _ _ Hd Hd'). lia.
      + destruct k' as [|k'']; simpl in Hd';
          destruct Hd' as (rp' & Hrp' & _ & Hd');
          simpl in Hrp'; rewrite lookup_insert_ne in Hrp' by done;
          simplify_eq.
        destruct Hd' as (g & Hg & Hd'). simplify_eq.
        pose proof (depth_is_unique _ _ _ _ _ Hd Hd'). lia. }
  intros v row (_ & Hd & _)%elem_of_getTaskTree. split.
  - intros Heq. rewrite Heq in Hd. by apply Hnot in Hd.
  - intros Heq. rewrite Heq in Hd.
    destruct Hp as [->|(rp & Hrp & Hpar)]; [by apply Hnot in Hd|].
    destruct (decide (p = t)) as [->|Hne]; [by apply Hnot in Hd|].
    destruct (TaskTree.level row) as [|k]; simpl in Hd;
      destruct Hd as (rp' & Hrp' & _ & Hd);
      simpl in Hrp'; rewrite lookup_insert_ne in Hrp' by done; simplify_eq.
    destruct Hd as (g & Hg & Hd). simplify_eq. by apply Hnot in Hd.
Qed.

Lemma updateTask_parent_cycle_hides_witness :
  let res := TaskController.updateTask 1 1
               [("parent_task_id", Some (VInt 2))] family_db in
  res.1 = mkResponse 200 (TaskBody (1, row (Some 2) ToDo))
  ∧ ∀ v row, row ∈ TaskTree.getTaskTree v res.2 →
             TaskTree.tree_id row ≠ 1 ∧ TaskTree.tree_id row ≠ 2.
Proof.
  apply (updateTask_parent_cycle_hides family_db 1 1 2 (row None ToDo));
    [done|]. right. by exists (row (Some 1) ToDo).
Defined.

(** ** The dependency menu *)






(** ** The invariant of the completion gate *)

Lemma completed_parents_ok_alt db :
  completed_parents_ok db ↔
  ∀ s rs p rp, tasks db !! s = Some rs → parent_task_id rs = Some p →
               tasks db !! p = Some rp → status rp = Completed →
               status rs = Completed.
Proof.
  unfold completed_parents_ok, completed_with_parent. split.
  - intros Hok s rs p rp Hs Hp Hrp. specialize (Hok s rs Hs). simpl in Hok.
    by rewrite Hp, Hrp in Hok.
  - intros Hok s rs Hs. simpl.
    destruct (parent_task_id rs) as [p|] eqn:Hp; [|done].
    destruct (tasks db !! p) as [rp|] eqn:Hrp; [|done]. eauto.
Qed.








Lemma createSubtask_accepted db p u rp title description dueDate priority :
  Store.select_task p u db = Some rp → parent_task_id rp = None →
  u ∈ users db → tasks db !! tasks_id_seq db = None →
  TaskController.createSubtask p u title description dueDate priority db
  = (mkResponse 201
       (TaskBody (tasks_id_seq db,
                  mkTask (Some u) title description (Some p) dueDate
                         (default Medium priority) ToDo)),
     mkDb (users db)
          (<[tasks_id_seq db :=
               mkTask (Some u) title description (Some p) dueDate
                      (default Medium priority) ToDo]> (tasks db))
          (tasks_id_seq db + 1) (task_dependencies db)).
Proof.
  intros Hsel Hroot Hu Hfree.
  pose proof Hsel as [Hp _]%select_task_Some.
  unfold TaskController.createSubtask, TaskController.handle, Task.findById,
    Task.create, Store.insert_task, Store.references_ok,
    TaskController.reply, bind, query, ret.
  rewrite Hsel. cbn beta iota. rewrite Hroot. simpl.
  rewrite (bool_decide_eq_true_2 _ Hu), Hp.
  rewrite (bool_decide_eq_true_2 (is_Some (Some rp))) by done.
  rewrite orb_true_r. simpl.
  rewrite decide_False; [done|]. rewrite Hfree. by intros [].
Qed.

(** X26: the creation of a subtask does not look at the status of the
    parent.  Under a Completed task of the caller it is answered 201, and
    the task is then Completed with a subtask that is To Do: the gate would
    refuse to complete it again. *)
Theorem createSubtask_under_completed_parent db p u rp title description
    dueDate priority :
  Store.select_task p u db = Some rp → parent_task_id rp = None →
  status rp = Completed →
  u ∈ users db → tasks db !! tasks_id_seq db = None →
  let res := TaskController.createSubtask p u title description dueDate
               priority db in
  http_status res.1 = 201
  ∧ tasks res.2 !! p = Some rp
  ∧ (∃ rs, tasks res.2 !! tasks_id_seq db = Some rs
           ∧ parent_task_id rs = Some p ∧ status rs = ToDo)
  ∧ Task.canCompleteTask p res.2 = false
  ∧ ¬ completed_parents_ok res.2.
Proof.
  intros Hsel Hroot Hdone Hu Hfree. cbv zeta.
  rewrite (createSubtask_accepted db p u rp) by done. simpl.
  pose proof Hsel as [Hp _]%select_task_Some.
  assert (p ≠ tasks_id_seq db) as Hne by (intros ->; congruence).
  split; [done|]. split; [by rewrite lookup_insert_ne|].
  split; [eexists; split; [apply lookup_insert_eq|done]|]. split.
  - apply Bool.not_true_is_false. rewrite canCompleteTask_true. intros Hall.
    specialize (Hall (tasks_id_seq db) _ (lookup_insert_eq _ _ _)). simpl in Hall.
    by specialize (Hall eq_refl).
  - rewrite completed_parents_ok_alt. intros Hok.
    specialize (Hok (tasks_id_seq db) _ p rp (lookup_insert_eq _ _ _)).
    simpl in Hok. rewrite lookup_insert_ne in Hok by done.
    by specialize (Hok eq_refl Hp Hdone).
Qed.

Lemma createSubtask_under_completed_parent_witness :
  let res := TaskController.createSubtask 1 1 "t" None None None
               finished_family_db in
  http_status res.1 = 201
  ∧ tasks res.2 !! 1 = Some (row None Completed)
  ∧ (∃ rs, tasks res.2 !! 4 = Some rs
           ∧ parent_task_id rs = Some 1 ∧ status rs = ToDo)
  ∧ Task.canCompleteTask 1 res.2 = false
  ∧ ¬ completed_parents_ok res.2.
Proof.
  apply (createSubtask_under_completed_parent finished_family_db 1 1
           (row None Completed) "t" None None None);
    [reflexivity|reflexivity|reflexivity|set_solver|reflexivity].
Defined.

(** ** An update of the status alone *)

Lemma status_of_text_inv s st :
  status_of_text s = Some st →
  (st = Completed ↔ s = "Completed"%string).
Proof.
  unfold status_of_text.
  destruct (String.eqb_spec s "To Do"); [intros [= <-]; by subst|].
  destruct (String.eqb_spec s "In Progress"); [intros [= <-]; by subst|].
  destruct (String.eqb_spec s "Completed"); [intros [= <-]; by subst|].
  destruct (String.eqb_spec s "Blocked"); [intros [= <-]; by subst|].
  done.
Qed.

(** X27: an update whose body is a [status] other than Completed writes
    that status on the task of the caller and, [updated_at] of that task
    apart (the statement sets it and the model leaves it out), nothing
    else.  The status is not checked against the dependencies or the parent
    of the task, and no other task is recomputed. *)
Theorem updateTask_status_as_given db t u r s st :
  Store.select_task t u db = Some r →
  status_of_text s = Some st → st ≠ Completed →
  TaskController.updateTask t u [("status", Some (VText s))] db
  = (mkResponse 200 (TaskBody (t, with_status st r)),
     with_tasks (<[t := with_status st r]> (tasks db)) db).
Proof.
  intros Hsel Hs Hst.
  assert (s ≠ "Completed"%string) as Hne.
  { intros Heq. by apply Hst, (status_of_text_inv s). }
  unfold TaskController.updateTask, TaskController.handle, Task.findById,
    TaskController.reply, bind, query, exec, throw, ret.
  rewrite Hsel. simpl.
  rewrite (bool_decide_eq_false_2 (Some (VText s) = Some (VText "Completed")))
    by congruence.
  simpl. unfold Task.update, Store.update_task. simpl.
  rewrite Hsel. simpl. rewrite Hs. unfold Store.references_kept. simpl.
  rewrite !bool_decide_eq_true_2 by done. done.
Qed.

Lemma updateTask_status_as_given_witness :
  TaskController.updateTask 2 1 [("status", Some (VText "To Do"))]
    finished_family_db
  = (mkResponse 200 (TaskBody (2, row (Some 1) ToDo)),
     with_tasks (<[2 := row (Some 1) ToDo]> (tasks finished_family_db))
       finished_family_db).
Proof.
  apply (updateTask_status_as_given finished_family_db 2 1
           (row (Some 1) Completed) "To Do" ToDo);
    [reflexivity|reflexivity|discriminate].
Defined.
